(** * MQD client: a shallow embedding of the Go sources and the properties
    checked against them.

    The definitions follow the packages of the repository:
    - [GoStrings], [strconv], [json]: what the sources use of Go's
      [strings], [strconv] and [encoding/json], on byte strings; the
      functions that follow Unicode tables or parse numbers and documents
      are interfaces (classes);
    - [models]: [domain/models] (catalog records, throughput keywords,
      [HaveToMask]);
    - [validation]: the schema validator and its clean-up of errors;
    - [configuration]: [crosscutting/configuration] ([validateSettings]);
    - [services]: the REST client ([executeGet]) and the report server;
    - [monitoring]: the counters of the process;
    - [application]: queue, configuration manager, aggregator, local result
      manager, API server and worker.
    [fixtures] has concrete inputs and [vocabulary] the notions the
    statements use; the properties follow.

    Go [int] is a 64-bit two's complement integer: it is a [Z] here, and the
    increments of the sources are wrapped by [wrap64].  Go strings are byte
    strings: they are Rocq [string]s, one [ascii] per byte.  A Go [error]
    is carried by its [Error()] text.  Calls of the logger leave no trace
    in the states and are left out, but for [Panic]. *)

From Stdlib Require Import ZArith Lia String Ascii List Bool DecimalString.
From stdpp Require Import base option list gmap strings fin_maps.

Local Open Scope string_scope.
Local Open Scope Z_scope.

(** ** Machine integers *)

Definition wrap64 (z : Z) : Z := (z + 2 ^ 63) mod 2 ^ 64 - 2 ^ 63.

(** A Go [error], by its text. *)
Definition error := string.

(** ** Package [strings] *)

Module GoStrings.

(** [strings.HasPrefix s prefix]. *)
Definition HasPrefix (s pre : string) : bool := String.prefix pre s.

(** [strings.Contains s substr]: [substr] occurs at some byte offset of [s]. *)
Fixpoint Contains (s substr : string) : bool :=
  if HasPrefix s substr then true
  else match s with
       | EmptyString => false
       | String _ s' => Contains s' substr
       end.

(** [strings.Split s sep] for a separator of one byte ([sep] is that byte):
    the pieces of [s] between the separators, in order; a string without
    separator is its only piece. *)
Fixpoint Split (s : string) (sep : ascii) : list string :=
  match s with
  | EmptyString => [EmptyString]
  | String c s' =>
      if Ascii.eqb c sep then EmptyString :: Split s' sep
      else match Split s' sep with
           | [] => [String c EmptyString]
           | piece :: pieces => String c piece :: pieces
           end
  end.

(** [strings.ReplaceAll s old new] for a non-empty [old]: the occurrences of
    [old] are found left to right without overlap.  [skip] counts the bytes
    of a matched occurrence that are still to be passed over. *)
Fixpoint replace_from (old new : string) (skip : nat) (s : string) : string :=
  match s with
  | EmptyString => EmptyString
  | String c s' =>
      match skip with
      | S k => replace_from old new k s'
      | O =>
          if HasPrefix s old
          then new +:+ replace_from old new (Nat.pred (String.length old)) s'
          else String c (replace_from old new O s')
      end
  end.

Definition ReplaceAll (s old new : string) : string := replace_from old new O s.

(** [strings.Repeat s count] for a count that is not negative. *)
Fixpoint Repeat (s : string) (count : nat) : string :=
  match count with
  | O => EmptyString
  | S n => s +:+ Repeat s n
  end.

(** The conversion [string(b)] of a byte [b]: the UTF-8 encoding of the code
    point of that number, one byte below 128 and two bytes from 128 on. *)
Definition string_of_byte (b : ascii) : string :=
  let n := N_of_ascii b in
  if (n <? 128)%N then String b EmptyString
  else String (ascii_of_N (192 + n / 64)) (String (ascii_of_N (128 + n mod 64)) EmptyString).

(** The byte [s[i]]; the sources index a string only below its length. *)
Definition byteAt (s : string) (i : nat) : ascii :=
  default Ascii.zero (String.get i s).

(** The functions of [strings] that follow Unicode tables: [EqualFold]
    (equality under simple case folding), [ToLower] and [TrimSpace].  The
    sources only call them; they are an interface here. *)
Class Unicode := {
  EqualFold : string -> string -> bool;
  ToLower : string -> string;
  TrimSpace : string -> string
}.

End GoStrings.

(** ** Package [strconv] *)

Module strconv.

(** [ParseFloat_ok s]: [strconv.ParseFloat(s, 64)] returns a nil error. *)
Class Strconv := {
  ParseFloat_ok : string -> bool
}.

(** [strconv.Itoa]: the decimal digits of an [int], with a minus sign
    before a negative one. *)
Definition Itoa (i : Z) : string := NilZero.string_of_int (Z.to_int i).

End strconv.

(** ** Package [models] *)

Module models.

(** api_configuration_settings.go, the throughput keywords. *)
Definition ExtremelyHighTroughput : string := "EXTEMELY_HIGH".
Definition HighTroughput : string := "HIGH".
Definition MediumTroughput : string := "MEDIUM".
Definition LowTroughput : string := "LOW".
Definition VeryLowTroughput : string := "VERY_LOW".

Record APIEndpointSetting := {
  Endpoint : string;
  HeaderValidationRules : string;
  BodyValidationRules : string;
  JSONHeaderSchema : string;
  JSONBodySchema : string;
  Throughput : string
}.

(** A slice of endpoint settings.  The sources never write into the backing
    array of an endpoint list once it is decoded, so a slice is the identity
    of its backing array ([None] for the nil slice) together with its
    elements; two slices are the same reference when [array] agrees. *)
Definition loc := positive.

Record EndpointSlice := {
  array : option loc;
  elems : list APIEndpointSetting
}.

Definition nilSlice : EndpointSlice := {| array := None; elems := [] |}.

Record APISetting := {
  API : string;
  api_BasePath : string;
  Version : string;
  EndpointBase : string;
  EndpointList : EndpointSlice
}.

Record APIGroupSetting := {
  Group : string;
  grp_BasePath : string;
  APIList : list APISetting
}.

Record ValidationSettings := {
  APIGroupSettings : list APIGroupSetting;
  TransmitterValidationRate : Z;
  ReceiverValidationRate : Z;
  ExtremelyHighTroughputValidationRate : Z;
  HighTroughputValidationRate : Z;
  MediumTroughputValidationRate : Z;
  LowTroughputValidationRate : Z;
  VeryLowTroughputValidationRate : Z
}.

(** [GetGroupSetting]: the first group of that name. *)
Fixpoint findGroup (l : list APIGroupSetting) (groupName : string) : option APIGroupSetting :=
  match l with
  | [] => None
  | setting :: rest =>
      if String.eqb (Group setting) groupName then Some setting
      else findGroup rest groupName
  end.

Definition GetGroupSetting (vs : ValidationSettings) (groupName : string) : option APIGroupSetting :=
  findGroup (APIGroupSettings vs) groupName.

(** [GetAPISetting]: the first API of that name in the group. *)
Fixpoint findAPI (l : list APISetting) (apiName : string) : option APISetting :=
  match l with
  | [] => None
  | setting :: rest =>
      if String.eqb (API setting) apiName then Some setting
      else findAPI rest apiName
  end.

Definition GetAPISetting (gs : APIGroupSetting) (apiName : string) : option APISetting :=
  findAPI (APIList gs) apiName.

(** configuration_settings.go *)
Record ReportSettings := {
  ReportExecutionWindow : Z;
  SendOnReportNumber : Z
}.

Record SecuritySettings := {
  AttributesToMask : list string
}.

Record ConfigurationSettings := {
  cs_Version : string;
  cs_ValidationSettings : ValidationSettings;
  cs_ReportSettings : ReportSettings;
  cs_SecuritySettings : SecuritySettings
}.

Section HaveToMask.
Context `{!GoStrings.Unicode}.

Fixpoint anyEqualFold (l : list string) (attributeName : string) : bool :=
  match l with
  | [] => false
  | value :: rest =>
      if GoStrings.EqualFold value attributeName then true
      else anyEqualFold rest attributeName
  end.

Definition HaveToMask (ss : SecuritySettings) (attributeName : string) : bool :=
  anyEqualFold (AttributesToMask ss) attributeName.
End HaveToMask.

(** report.go (package [models]): the summaries of a report. *)
Record FieldDetail := {
  fd_ErrorType : string;
  fd_XFapiList : list string;
  fd_TotalCount : Z
}.

Record EndPointSummaryDetail := {
  sd_Field : string;
  sd_Details : list FieldDetail
}.

Record EndPointSummary := {
  es_EndpointName : string;
  es_TotalRequests : Z;
  es_ValidationErrors : Z;
  es_Detail : list EndPointSummaryDetail
}.

Record ServerSummary := {
  ss_ServerID : string;
  ss_TotalRequests : Z;
  ss_EndpointSummary : list EndPointSummary
}.

End models.

(** ** Package [encoding/json]: decoded values *)

Module json.

(** What [json.Unmarshal] stores in an [interface{}]: nil, bool, float64
    (carried by its 64 IEEE-754 bits), string, []interface{} and
    map[string]interface{}.  [Int] is a Go [int], which the masking code
    writes into a payload.  A decoded document is a tree: no slice or map
    occurs in it twice. *)
#[warnings="-register-all"]
Inductive value :=
| Nil
| Bool (b : bool)
| Float64 (bits : Z)
| Int (n : Z)
| Str (s : string)
| Slice (l : list value)
| Map (m : gmap string value).

(** The decoders of [encoding/json] the sources call:
    - [Valid body]: [json.Unmarshal(body, &js)] into a [json.RawMessage]
      returns nil;
    - [Unmarshal_object]: [json.Unmarshal] into a [map[string]interface{}];
    - [Unmarshal_endpoints]: [json.Unmarshal] into a
      [[]models.APIEndpointSetting]; [None] is the nil slice that the
      document [null] leaves;
    - [Unmarshal_settings]: [json.Unmarshal] into a
      [models.ConfigurationSettings]. *)
Class Decoder := {
  Valid : string -> bool;
  Unmarshal_object : string -> error + gmap string value;
  Unmarshal_endpoints : string -> error + option (list models.APIEndpointSetting);
  Unmarshal_settings : string -> error + models.ConfigurationSettings
}.

End json.

(** ** Package [validation] *)

Module validation.
Import json.

(** [DynamicStruct] is [map[string]interface{}]; ranging over a nil map and
    over an empty one is the same, both are the empty map here. *)
Abbreviation DynamicStruct := (gmap string value).

(** The result of a validation (package [validation]). *)
Record Result := {
  Valid : bool;
  Errors : gmap string (list string)
}.

(** [gojsonschema.ResultError], by the three methods the sources call. *)
Record ResultError := {
  Field : string;
  Description : string;
  String_ : string
}.

(** [gojsonschema.Result], by [Valid()] and [Errors()]. *)
Record EngineResult := {
  engine_Valid : bool;
  engine_Errors : list ResultError
}.

(** [gojsonschema.Validate] on a schema text and a decoded document. *)
Class SchemaEngine := {
  gojsonschema_Validate : string -> DynamicStruct -> error + EngineResult
}.

Definition dquote : ascii := "034"%char.

(** The Go literal of four bytes: a quote, [i], [f], a quote. *)
Definition quoted_if : string := String dquote ("if" +:+ String dquote EmptyString).

Section SchemaValidator.
Context `{!strconv.Strconv} `{!SchemaEngine}.

Definition isNumeric (s : string) : bool := strconv.ParseFloat_ok s.

(** One round of the loop of [cleanString]. *)
Definition cleanString_step (result v : string) : string :=
  if negb (isNumeric v) then
    if String.eqb result EmptyString then v else result +:+ "." +:+ v
  else result.

Definition cleanString (value : string) : string :=
  if negb (GoStrings.Contains value "data") then value
  else fold_left cleanString_step (GoStrings.Split value "."%char) EmptyString.

(** One round of the loop of [cleanErrors]. *)
Definition cleanErrors_step (result : gmap string (list string)) (desc : ResultError)
  : gmap string (list string) :=
  if GoStrings.Contains (String_ desc) quoted_if then result
  else
    let field := cleanString (Field desc) in
    let desc' := cleanString (Description desc) in
    <[field := (default [] (result !! field) ++ [desc'])%list]> result.

Definition cleanErrors (errors : list ResultError) : gmap string (list string) :=
  fold_left cleanErrors_step errors ∅.

(** [SchemaValidator.Validate]; [schema] is the validator's field. *)
Definition Validate (schema : string) (data : DynamicStruct) : error + Result :=
  if String.eqb schema EmptyString then inr {| Valid := true; Errors := ∅ |}
  else match gojsonschema_Validate schema data with
       | inl err => inl err
       | inr result =>
           if negb (engine_Valid result)
           then inr {| Valid := false; Errors := cleanErrors (engine_Errors result) |}
           else inr {| Valid := true; Errors := ∅ |}
       end.

End SchemaValidator.

End validation.

(** ** Package [configuration] *)

Module configuration.

Definition transmitterMode : string := "TRANSMITTER".
Definition receiverMode : string := "RECEIVER".
Definition certPath : string := "/certificates/".

(** Modelled from the spec: the declaration of the struct [Settings] of this
    package is not among the sources.  The records below have the fields
    the sources read and write, with the types they use them at; the
    specification names the result settings ([samplesPerError],
    [filesPerDay], [daysToStore], [enabled]), the report window and count,
    and the organisation and mode of the environment. *)
Record ApplicationSettings := {
  Mode : string;
  OrganisationID : string
}.

Record ReportSettings := {
  ExecutionWindow : Z;
  ExecutionNumber : Z
}.

Record SecuritySettings := {
  EnableHTTPS : bool;
  KeyFilePath : string;
  CertFilePath : string;
  ProxyURL : string
}.

Record ResultSettings := {
  Enabled : bool;
  FilesPerDay : Z;
  SamplesPerError : Z;
  DaysToStore : Z
}.

Record ConfigurationSettings := {
  APIPort : string;
  Environment : string;
  ApplicationID : string
}.

Record Settings := {
  s_ApplicationSettings : ApplicationSettings;
  s_ReportSettings : ReportSettings;
  s_SecuritySettings : SecuritySettings;
  s_ResultSettings : ResultSettings;
  s_ConfigurationSettings : ConfigurationSettings
}.

(** Field assignments. *)
Definition set_ReportSettings (f : ReportSettings -> ReportSettings) (s : Settings) : Settings :=
  {| s_ApplicationSettings := s_ApplicationSettings s;
     s_ReportSettings := f (s_ReportSettings s);
     s_SecuritySettings := s_SecuritySettings s;
     s_ResultSettings := s_ResultSettings s;
     s_ConfigurationSettings := s_ConfigurationSettings s |}.

Definition set_SecuritySettings (f : SecuritySettings -> SecuritySettings) (s : Settings) : Settings :=
  {| s_ApplicationSettings := s_ApplicationSettings s;
     s_ReportSettings := s_ReportSettings s;
     s_SecuritySettings := f (s_SecuritySettings s);
     s_ResultSettings := s_ResultSettings s;
     s_ConfigurationSettings := s_ConfigurationSettings s |}.

Definition set_ResultSettings (f : ResultSettings -> ResultSettings) (s : Settings) : Settings :=
  {| s_ApplicationSettings := s_ApplicationSettings s;
     s_ReportSettings := s_ReportSettings s;
     s_SecuritySettings := s_SecuritySettings s;
     s_ResultSettings := f (s_ResultSettings s);
     s_ConfigurationSettings := s_ConfigurationSettings s |}.

Definition set_ExecutionWindow (v : Z) (r : ReportSettings) : ReportSettings :=
  {| ExecutionWindow := v; ExecutionNumber := ExecutionNumber r |}.

Definition set_ExecutionNumber (v : Z) (r : ReportSettings) : ReportSettings :=
  {| ExecutionWindow := ExecutionWindow r; ExecutionNumber := v |}.

Definition set_KeyFilePath (v : string) (r : SecuritySettings) : SecuritySettings :=
  {| EnableHTTPS := EnableHTTPS r; KeyFilePath := v;
     CertFilePath := CertFilePath r; ProxyURL := ProxyURL r |}.

Definition set_CertFilePath (v : string) (r : SecuritySettings) : SecuritySettings :=
  {| EnableHTTPS := EnableHTTPS r; KeyFilePath := KeyFilePath r;
     CertFilePath := v; ProxyURL := ProxyURL r |}.

Definition set_FilesPerDay (v : Z) (r : ResultSettings) : ResultSettings :=
  {| Enabled := Enabled r; FilesPerDay := v;
     SamplesPerError := SamplesPerError r; DaysToStore := DaysToStore r |}.

Definition set_SamplesPerError (v : Z) (r : ResultSettings) : ResultSettings :=
  {| Enabled := Enabled r; FilesPerDay := FilesPerDay r;
     SamplesPerError := v; DaysToStore := DaysToStore r |}.

(** [uuid.Parse] of github.com/google/uuid returns a nil error. *)
Class UUID := {
  uuid_Parse_ok : string -> bool
}.

(** A panic, by its message: of the logger ([JSONLogger.Panic]) or of the
    run time. *)
Inductive panic := Panic (message : string).

Section validateSettings.
Context `{!UUID}.
(** [notExist path]: [os.IsNotExist] holds of the error of [os.Stat path]. *)
Variable notExist : string -> bool.

Definition validateHTTPSCertificates (s : Settings) : panic + Settings :=
  let certFile := "server.crt" in
  let keyFile := "server.key" in
  let s := set_SecuritySettings (set_KeyFilePath (certPath +:+ keyFile)) s in
  let s := set_SecuritySettings (set_CertFilePath (certPath +:+ certFile)) s in
  if notExist (KeyFilePath (s_SecuritySettings s))
  then inl (Panic ("Key certificate not found: " +:+ KeyFilePath (s_SecuritySettings s)))
  else if notExist (CertFilePath (s_SecuritySettings s))
  then inl (Panic ("Certificate file not found: " +:+ CertFilePath (s_SecuritySettings s)))
  else inr s.

(** The checks of [validateSettings] that follow the certificates. *)
Definition validateResultSettings (s : Settings) : Settings :=
  let s :=
    if (FilesPerDay (s_ResultSettings s) <? 1) || (24 <? FilesPerDay (s_ResultSettings s))
    then set_ResultSettings (set_FilesPerDay 8) s else s in
  let s :=
    if (SamplesPerError (s_ResultSettings s) <? 1) || (10 <? SamplesPerError (s_ResultSettings s))
    then set_ResultSettings (set_SamplesPerError 5) s else s in
  let s :=
    if (DaysToStore (s_ResultSettings s) <? 1) || (10 <? DaysToStore (s_ResultSettings s))
    then set_ResultSettings (set_SamplesPerError 7) s else s in
  s.

(** [validateSettings] returns [isValid] and leaves the corrected settings
    in the receiver; a panic of the certificate check ends it. *)
Definition validateSettings (s : Settings) : panic + (bool * Settings) :=
  let isValid := true in
  let isValid :=
    if negb (String.eqb (Mode (s_ApplicationSettings s)) transmitterMode
             || String.eqb (Mode (s_ApplicationSettings s)) receiverMode)
    then false else isValid in
  let isValid :=
    if negb (uuid_Parse_ok (OrganisationID (s_ApplicationSettings s)))
    then false else isValid in
  let s :=
    if negb (ExecutionWindow (s_ReportSettings s) =? 0)
       && ((60 <? ExecutionWindow (s_ReportSettings s))
           || (ExecutionWindow (s_ReportSettings s) <? 0))
    then set_ReportSettings (set_ExecutionWindow 0) s else s in
  let s :=
    if negb (ExecutionNumber (s_ReportSettings s) =? 0)
       && ((200000 <? ExecutionNumber (s_ReportSettings s))
           || (ExecutionNumber (s_ReportSettings s) <? 10000))
    then set_ReportSettings (set_ExecutionNumber 0) s else s in
  match (if EnableHTTPS (s_SecuritySettings s)
         then validateHTTPSCertificates s else inr s) with
  | inl p => inl p
  | inr s => inr (isValid, validateResultSettings s)
  end.

End validateSettings.

End configuration.

(** ** Package [services] *)

Module services.

Definition settingsPath : string := "/settings".
Definition configurationSettingsFile : string := "configurationSettings.json".

Definition StatusOK : Z := 200.
Definition StatusForbidden : Z := 403.

(** [time.Second], in nanoseconds. *)
Definition Second : Z := 1000000000.

(** What one [httpClient.Get] gives: an error of the transport, or a
    response with its status code and what [io.ReadAll] makes of its body. *)
Inductive HTTPResult :=
| TransportError (err : error)
| Response (StatusCode : Z) (Body : error + string).

(** [net n] is the outcome of the GET the client sends after [n] others. *)
Definition Network := nat -> HTTPResult.

(** What the client does, in order. *)
Inductive event :=
| Get (url : string)
| Sleep (d : Z).

(** [executeGet]; [retries] is [retryTimes] when it is positive and zero
    otherwise, [sent] the number of requests sent so far.  The result is the
    returned pair (body or error) and the events of the call. *)
Fixpoint executeGet_from (net : Network) (url : string) (retries sent : nat)
  : (error + string) * list event :=
  match net sent with
  | TransportError err =>
      match retries with
      | S k =>
          let '(r, evs) := executeGet_from net url k (S sent) in
          (r, Get url :: Sleep (1 * Second) :: evs)
      | O => (inl err, [Get url])
      end
  | Response StatusCode Body =>
      if StatusCode =? StatusForbidden then (inl "forbidden status code", [Get url])
      else if negb (StatusCode =? StatusOK) then
        match retries with
        | S k =>
            let '(r, evs) := executeGet_from net url k (S sent) in
            (r, Get url :: Sleep (1 * Second) :: evs)
        | O => (inl ("invalid status code: " +:+ strconv.Itoa StatusCode), [Get url])
        end
      else
        match Body with
        | inl err => (inl err, [Get url])
        | inr body =>
            if GoStrings.Contains body "NoSuchKey"
            then (inl ("configuration file not found: " +:+ url), [Get url])
            else (inr body, [Get url])
        end
  end.

Definition executeGet (net : Network) (url : string) (retryTimes : Z) (sent : nat)
  : (error + string) * list event :=
  executeGet_from net url (Z.to_nat retryTimes) sent.

(** report_server_mqd.go *)
Definition LoadAPIConfigurationFile (net : Network) (serverURL filePath : string) (sent : nat)
  : (error + string) * list event :=
  let serverPath := serverURL +:+ settingsPath +:+ "/" +:+ filePath in
  executeGet net serverPath 3 sent.

Definition LoadConfigurationSettings `{!json.Decoder} (net : Network) (serverURL : string)
    (sent : nat) : (error + models.ConfigurationSettings) * list event :=
  let serverPath := serverURL +:+ settingsPath +:+ "/" +:+ configurationSettingsFile in
  match executeGet net serverPath 3 sent with
  | (inl err, evs) => (inl err, evs)
  | (inr body, evs) =>
      match json.Unmarshal_settings body with
      | inl err => (inl err, evs)
      | inr result => (inr result, evs)
      end
  end.

End services.

(** ** Package [monitoring] *)

Module monitoring.

(** The package variables.  An OpenTelemetry counter is the number of times
    one was added to it; a duration is a number of nanoseconds. *)
Record Metrics := {
  requests : Z;
  endpointRequests : gmap (string * string) Z;
  endpointValidationErrors : gmap (string * string) Z;
  requestsReceived : Z;
  badRequestsReceived : Z;
  responseTime : list Z;
  unsupportedEndpoints : gmap string (gmap string Z)
}.

Definition RecordResponseDuration (elapsed : Z) (m : Metrics) : Metrics :=
  {| requests := requests m;
     endpointRequests := endpointRequests m;
     endpointValidationErrors := endpointValidationErrors m;
     requestsReceived := requestsReceived m;
     badRequestsReceived := badRequestsReceived m;
     responseTime := (responseTime m ++ [elapsed])%list;
     unsupportedEndpoints := unsupportedEndpoints m |}.

Definition IncreaseRequestsReceived (m : Metrics) : Metrics :=
  {| requests := requests m + 1;
     endpointRequests := endpointRequests m;
     endpointValidationErrors := endpointValidationErrors m;
     requestsReceived := wrap64 (requestsReceived m + 1);
     badRequestsReceived := badRequestsReceived m;
     responseTime := responseTime m;
     unsupportedEndpoints := unsupportedEndpoints m |}.

Definition IncreaseBadRequestsReceived (m : Metrics) : Metrics :=
  {| requests := requests m;
     endpointRequests := endpointRequests m;
     endpointValidationErrors := endpointValidationErrors m;
     requestsReceived := requestsReceived m;
     badRequestsReceived := wrap64 (badRequestsReceived m + 1);
     responseTime := responseTime m;
     unsupportedEndpoints := unsupportedEndpoints m |}.

Definition IncreaseBadEndpointsReceived (endpoint version errorMessage : string) (m : Metrics)
  : Metrics :=
  let byVersion := default ∅ (unsupportedEndpoints m !! endpoint) in
  let count := default 0 (byVersion !! version) in
  {| requests := requests m;
     endpointRequests := endpointRequests m;
     endpointValidationErrors := endpointValidationErrors m;
     requestsReceived := requestsReceived m;
     badRequestsReceived := wrap64 (badRequestsReceived m + 1);
     responseTime := responseTime m;
     unsupportedEndpoints :=
       <[endpoint := <[version := wrap64 (count + 1)]> byVersion]> (unsupportedEndpoints m) |}.

Definition counterAdd (key : string * string) (c : gmap (string * string) Z)
  : gmap (string * string) Z :=
  <[key := default 0 (c !! key) + 1]> c.

Definition IncreaseValidationResult (serverID endpointName : string) (valid : bool) (m : Metrics)
  : Metrics :=
  {| requests := requests m;
     endpointRequests := counterAdd (serverID, endpointName) (endpointRequests m);
     endpointValidationErrors :=
       if negb valid
       then counterAdd (serverID, endpointName) (endpointValidationErrors m)
       else endpointValidationErrors m;
     requestsReceived := requestsReceived m;
     badRequestsReceived := badRequestsReceived m;
     responseTime := responseTime m;
     unsupportedEndpoints := unsupportedEndpoints m |}.

(** The counters that are read and reset for a report. *)
Definition getAndCleanRequestsReceived (m : Metrics) : Z * Metrics :=
  (requestsReceived m,
   {| requests := requests m;
      endpointRequests := endpointRequests m;
      endpointValidationErrors := endpointValidationErrors m;
      requestsReceived := 0;
      badRequestsReceived := badRequestsReceived m;
      responseTime := responseTime m;
      unsupportedEndpoints := unsupportedEndpoints m |}).

Definition getAndCleanBadRequestsReceived (m : Metrics) : Z * Metrics :=
  (badRequestsReceived m,
   {| requests := requests m;
      endpointRequests := endpointRequests m;
      endpointValidationErrors := endpointValidationErrors m;
      requestsReceived := requestsReceived m;
      badRequestsReceived := 0;
      responseTime := responseTime m;
      unsupportedEndpoints := unsupportedEndpoints m |}).

(** [GetAndCleanUnsupportedEndpoints]: the returned map is the one the
    variable referred to; the variable gets a new map. *)
Definition GetAndCleanUnsupportedEndpoints (m : Metrics) : gmap string (gmap string Z) * Metrics :=
  (unsupportedEndpoints m,
   {| requests := requests m;
      endpointRequests := endpointRequests m;
      endpointValidationErrors := endpointValidationErrors m;
      requestsReceived := requestsReceived m;
      badRequestsReceived := badRequestsReceived m;
      responseTime := responseTime m;
      unsupportedEndpoints := ∅ |}).

(** [time.Duration.Microseconds]: the duration, a number of nanoseconds,
    divided by 1000 and truncated toward zero. *)
Definition Microseconds (d : Z) : Z := Z.quot d 1000.

(** [calculateAverageDuration]; the sum is an [int64]. *)
Definition calculateAverageDuration (durations : list Z) : Z :=
  if (length durations =? 0)%nat then 0
  else
    let sum := fold_left (fun sum m => wrap64 (sum + Microseconds m)) durations 0 in
    Z.quot sum (Z.of_nat (length durations)).

(** [getAndCleanResponseTime]; [fmt.Sprint] of an [int64] is its decimal
    text. *)
Definition getAndCleanResponseTime (m : Metrics) : string * Metrics :=
  let avgTime := calculateAverageDuration (responseTime m) in
  (strconv.Itoa avgTime,
   {| requests := requests m;
      endpointRequests := endpointRequests m;
      endpointValidationErrors := endpointValidationErrors m;
      requestsReceived := requestsReceived m;
      badRequestsReceived := badRequestsReceived m;
      responseTime := [];
      unsupportedEndpoints := unsupportedEndpoints m |}).

(** A measurement of the memory calculator; the memory is an unsigned
    64-bit number of bytes, [CPU] a [float64] by its bits. *)
Record Measurement := {
  Timestamp : Z;
  Memory : Z;
  MaxUSedMemory : Z;
  CPU : Z;
  NumCPU : Z
}.

Definition calculateAverageMemory (measurements : list Measurement) : Z * Z * Z :=
  if (length measurements =? 0)%nat then (0, 0, 0)
  else
    let '(sum, maxMemory, maxCPU) :=
      fold_left (fun '(sum, maxMemory, maxCPU) m =>
                   ((sum + Memory m) mod 2 ^ 64,
                    if maxMemory <? MaxUSedMemory m then MaxUSedMemory m else maxMemory,
                    if maxCPU <=? NumCPU m then NumCPU m else maxCPU))
                measurements (0, 0, 0) in
    (sum / Z.of_nat (length measurements), maxMemory, maxCPU).

Record SystemMetrics := {
  AverageMemory : string;
  MaxUsedMemory : string;
  CPUUsage : string;
  AllowedCPUs : string;
  RequestsReceived : string;
  BadRequestsReceived : string;
  AverageResponseTime : string
}.

(** [fmt.Sprintf("%.2f MB", float64(v)/1024/1024)] of a number of bytes:
    the formatting of floating-point numbers is an interface. *)
Class Sprintf := {
  Sprintf_megabytes : Z -> string
}.

(** [GetAndCleanSystemMetrics]; [measurements] is the package variable of
    that name. *)
Definition GetAndCleanSystemMetrics `{!Sprintf} (measurements : list Measurement) (m : Metrics)
  : SystemMetrics * list Measurement * Metrics :=
  let '(avgMemory, maxMemory, numCPU) := calculateAverageMemory measurements in
  let '(received, m) := getAndCleanRequestsReceived m in
  let '(bad, m) := getAndCleanBadRequestsReceived m in
  let '(average, m) := getAndCleanResponseTime m in
  ({| AverageMemory := Sprintf_megabytes avgMemory;
      MaxUsedMemory := Sprintf_megabytes maxMemory;
      CPUUsage := EmptyString;
      AllowedCPUs := strconv.Itoa numCPU;
      RequestsReceived := strconv.Itoa received;
      BadRequestsReceived := strconv.Itoa bad;
      AverageResponseTime := average |}, [], m).

End monitoring.

(** ** Package [application] *)

Module application.
Import json.

(** *** queue_manager.go *)

Record Message := {
  msg_Message : string;
  msg_Endpoint : string;
  msg_APIVersion : string;
  msg_HTTPMethod : string;
  msg_ServerID : string;
  msg_XFapiInteractionID : string;
  msg_ConsentID : string;
  msg_TransmitterID : string
}.

(** [messageQueue = make(chan *Message, 1000)]: the buffer of the channel,
    oldest message first. *)
Definition capacity : nat := 1000.

(** The send statement [ch <- msg] of a goroutine on a buffered channel
    nobody is receiving from: with room in the buffer the message goes to its
    end and the statement is over; on a full buffer the goroutine is parked
    at the statement ([None]) until a receive has made room. *)
Definition chan_send (buffer : list Message) (msg : Message) : option (list Message) :=
  if (length buffer <? capacity)%nat then Some (buffer ++ [msg])%list else None.

(** A receive [<-ch], as in [for msg := range ch]: the oldest message, and
    [None] on an empty buffer (the receiver is parked). *)
Definition chan_receive (buffer : list Message) : option (Message * list Message) :=
  match buffer with
  | [] => None
  | msg :: rest => Some (msg, rest)
  end.

(** [EnqueueMessage] is the send statement and nothing else. *)
Definition EnqueueMessage (msg : Message) (messageQueue : list Message)
  : option (list Message) :=
  chan_send messageQueue msg.

Section GetMappedObject.
Context `{!Decoder}.

(** [GetMappedObject]: the decoded body, or the error and a nil map. *)
Definition GetMappedObject (msg : Message) : error + gmap string value :=
  Unmarshal_object (msg_Message msg).

End GetMappedObject.

(** *** The configuration manager *)

Record APIValidationSettings := {
  EndpointSettings : models.APIEndpointSetting;
  APIGroup : string;
  avs_API : string;
  APIVersion : string;
  BasePath : string
}.

(** The manager after [Initialize]: the catalog it holds and the local
    settings. *)
Record ConfigurationManager := {
  cm_ConfigurationSettings : models.ConfigurationSettings;
  cm_settings : configuration.Settings
}.

Section GetEndpointSettingFromAPI.
Context `{!GoStrings.Unicode}.
Import GoStrings.

Fixpoint findEndpoint (endpointName : string) (setting : models.APIGroupSetting)
    (api : models.APISetting) (l : list models.APIEndpointSetting)
  : option APIValidationSettings :=
  match l with
  | [] => None
  | endpoint :: rest =>
      let apiEndpointName :=
        ToLower (TrimSpace (TrimSpace (models.EndpointBase api)
                            +:+ TrimSpace (models.Endpoint endpoint))) in
      if String.eqb apiEndpointName (ToLower (TrimSpace endpointName))
      then Some {| EndpointSettings := endpoint;
                   APIVersion := models.Version api;
                   avs_API := models.API api;
                   APIGroup := models.Group setting;
                   BasePath := models.api_BasePath api |}
      else findEndpoint endpointName setting api rest
  end.

Fixpoint findInAPIs (endpointName : string) (setting : models.APIGroupSetting)
    (l : list models.APISetting) : option APIValidationSettings :=
  match l with
  | [] => None
  | api :: rest =>
      if Contains (ToLower endpointName) (ToLower (TrimSpace (models.EndpointBase api)))
      then match findEndpoint endpointName setting api
                   (models.elems (models.EndpointList api)) with
           | Some found => Some found
           | None => findInAPIs endpointName setting rest
           end
      else findInAPIs endpointName setting rest
  end.

Fixpoint findInGroups (endpointName : string) (l : list models.APIGroupSetting)
  : option APIValidationSettings :=
  match l with
  | [] => None
  | setting :: rest =>
      match findInAPIs endpointName setting (models.APIList setting) with
      | Some found => Some found
      | None => findInGroups endpointName rest
      end
  end.

Definition getAPIGroupSettings (cm : ConfigurationManager) : list models.APIGroupSetting :=
  models.APIGroupSettings (models.cs_ValidationSettings (cm_ConfigurationSettings cm)).

Definition GetEndpointSettingFromAPI (cm : ConfigurationManager) (endpointName : string)
  : option APIValidationSettings :=
  findInGroups endpointName (getAPIGroupSettings cm).

End GetEndpointSettingFromAPI.

(** *** The configuration manager: [updateValidationSettings] *)

(** The report server as the manager sees it, and the allocator: the paths
    requested so far, oldest first, and the next unused array identity. *)
Record Fetch := {
  fetched : list string;
  next : models.loc
}.

(** [services.ReportServer.LoadAPIConfigurationFile]: the answer to a path
    may depend on the paths requested before it. *)
Class ReportServer := {
  LoadAPIConfigurationFile : list string -> string -> error + string
}.

(** A computation that talks to the report server and may fail. *)
Definition M (A : Type) : Type := Fetch -> (error + A) * Fetch.

Definition ret {A} (a : A) : M A := fun w => (inr a, w).

Definition bind {A B} (m : M A) (f : A -> M B) : M B :=
  fun w =>
    match m w with
    | (inl err, w') => (inl err, w')
    | (inr a, w') => f a w'
    end.

(** A range loop whose body may return the error: the first error ends it. *)
Fixpoint forEach {A B} (f : A -> M B) (l : list A) : M (list B) :=
  match l with
  | [] => ret []
  | a :: rest => bind (f a) (fun b => bind (forEach f rest) (fun bs => ret (b :: bs)))
  end.

Definition set_EndpointList (epList : models.EndpointSlice) (api : models.APISetting)
  : models.APISetting :=
  {| models.API := models.API api;
     models.api_BasePath := models.api_BasePath api;
     models.Version := models.Version api;
     models.EndpointBase := models.EndpointBase api;
     models.EndpointList := epList |}.

Definition set_APIList (apis : list models.APISetting) (g : models.APIGroupSetting)
  : models.APIGroupSetting :=
  {| models.Group := models.Group g;
     models.grp_BasePath := models.grp_BasePath g;
     models.APIList := apis |}.

Definition set_APIGroupSettings (groups : list models.APIGroupSetting)
    (cs : models.ConfigurationSettings) : models.ConfigurationSettings :=
  let vs := models.cs_ValidationSettings cs in
  {| models.cs_Version := models.cs_Version cs;
     models.cs_ValidationSettings :=
       {| models.APIGroupSettings := groups;
          models.TransmitterValidationRate := models.TransmitterValidationRate vs;
          models.ReceiverValidationRate := models.ReceiverValidationRate vs;
          models.ExtremelyHighTroughputValidationRate :=
            models.ExtremelyHighTroughputValidationRate vs;
          models.HighTroughputValidationRate := models.HighTroughputValidationRate vs;
          models.MediumTroughputValidationRate := models.MediumTroughputValidationRate vs;
          models.LowTroughputValidationRate := models.LowTroughputValidationRate vs;
          models.VeryLowTroughputValidationRate := models.VeryLowTroughputValidationRate vs |};
     models.cs_ReportSettings := models.cs_ReportSettings cs;
     models.cs_SecuritySettings := models.cs_SecuritySettings cs |}.

Section updateValidationSettings.
Context `{!ReportServer} `{!Decoder}.

(** The file name [getAPIConfigurationFile] asks for. *)
Definition apiConfigurationFileName (basePath apiPath apiVersion : string) : string :=
  let apiConfigurationPath :=
    basePath +:+ "//" +:+ apiPath +:+ "//" +:+ apiVersion +:+ "//response//" in
  let apiConfigurationPath :=
    GoStrings.ReplaceAll apiConfigurationPath "ParameterData//" "" in
  let apiConfigurationPath := GoStrings.ReplaceAll apiConfigurationPath "//" "/" in
  apiConfigurationPath +:+ "endpoints.json".

Definition getAPIConfigurationFile (basePath apiPath apiVersion : string)
  : M models.EndpointSlice :=
  fun w =>
    let fileName := apiConfigurationFileName basePath apiPath apiVersion in
    let w' := {| fetched := (fetched w ++ [fileName])%list; next := next w |} in
    match LoadAPIConfigurationFile (fetched w) fileName with
    | inl err => (inl err, w')
    | inr file =>
        match Unmarshal_endpoints file with
        | inl err => (inl err, w')
        | inr None => (inr models.nilSlice, w')
        | inr (Some result) =>
            (inr {| models.array := Some (next w); models.elems := result |},
             {| fetched := fetched w'; next := Pos.succ (next w) |})
        end
    end.

(** The body of the loops that fetch: the endpoint list of [newAPI] is
    replaced by the fetched one. *)
Definition loadAPI (newSet : models.APIGroupSetting) (newAPI : models.APISetting)
  : M models.APISetting :=
  bind (getAPIConfigurationFile (models.grp_BasePath newSet) (models.api_BasePath newAPI)
          (models.Version newAPI))
       (fun epList => ret (set_EndpointList epList newAPI)).

(** The body of the loop over the APIs of a group the old catalog has. *)
Definition updateAPI (oldSet newSet : models.APIGroupSetting) (newAPI : models.APISetting)
  : M models.APISetting :=
  match models.GetAPISetting oldSet (models.API newAPI) with
  | None => loadAPI newSet newAPI
  | Some oldAPI =>
      if negb (String.eqb (models.Version oldAPI) (models.Version newAPI))
      then loadAPI newSet newAPI
      else ret (set_EndpointList (models.EndpointList oldAPI) newAPI)
  end.

(** The body of the loop over the groups; [current] is
    [cm.ConfigurationSettings], [None] when it is nil. *)
Definition updateGroup (current : option models.ConfigurationSettings)
    (newSet : models.APIGroupSetting) : M models.APIGroupSetting :=
  match current with
  | None =>
      bind (forEach (loadAPI newSet) (models.APIList newSet))
           (fun apis => ret (set_APIList apis newSet))
  | Some old =>
      match models.GetGroupSetting (models.cs_ValidationSettings old) (models.Group newSet) with
      | None =>
          bind (forEach (loadAPI newSet) (models.APIList newSet))
               (fun apis => ret (set_APIList apis newSet))
      | Some oldSet =>
          bind (forEach (updateAPI oldSet newSet) (models.APIList newSet))
               (fun apis => ret (set_APIList apis newSet))
      end
  end.

(** [updateValidationSettings] writes the endpoint lists into [newSettings]
    and returns an error or nil: here the settings so completed are the
    result of the call without error.  After an error the caller
    ([updateConfiguration]) drops [newSettings]. *)
Definition updateValidationSettings (current : option models.ConfigurationSettings)
    (newSettings : models.ConfigurationSettings) : M models.ConfigurationSettings :=
  bind (forEach (updateGroup current)
          (models.APIGroupSettings (models.cs_ValidationSettings newSettings)))
       (fun groups => ret (set_APIGroupSettings groups newSettings)).

End updateValidationSettings.

(** *** result_processor.go: the aggregator *)

Record MessageResult := {
  mr_TransmitterID : string;
  mr_Endpoint : string;
  mr_HTTPMethod : string;
  mr_Result : bool;
  mr_ServerID : string;
  mr_Errors : gmap string (list string);
  mr_XFapiInteractionID : string
}.

(** [GroupedResults] is a Go map: [None] is the nil map, which reads as
    the empty map and cannot be written. *)
Record TransmitterResults := {
  TransmitterID : string;
  GroupedResults : option (gmap string (list MessageResult))
}.

(** The package variables [txGroupedResults] and [totalResults].  A Go map
    is a reference: [tables] holds the maps made so far, by identity, and
    [txGroupedResults] is the identity of the one the variable refers to.
    The inner map [GroupedResults] is reached through its table only and is
    a value of the table's entry: made by [AppendResult] with the entry,
    nil in the entry that [StartResultsProcessor] stores. *)
Record Aggregator := {
  tables : gmap models.loc (gmap string TransmitterResults);
  txGroupedResults : models.loc;
  totalResults : Z
}.

(** The table the variable [txGroupedResults] refers to. *)
Definition currentTable (a : Aggregator) : gmap string TransmitterResults :=
  default ∅ (tables a !! txGroupedResults a).

(** [AppendResult]; [organisationID] is
    [rp.cm.settings.ApplicationSettings.OrganisationID].  The assignment to
    an entry of a nil map is a panic of the run time: nothing recovers it
    and the process ends. *)
Definition AppendResult (organisationID : string) (result : MessageResult) (a : Aggregator)
  : configuration.panic + Aggregator :=
  let total := wrap64 (totalResults a + 1) in
  let transmitterID :=
    if String.eqb (mr_TransmitterID result) EmptyString then organisationID
    else mr_TransmitterID result in
  let table := currentTable a in
  let table :=
    match table !! transmitterID with
    | Some _ => table
    | None =>
        <[transmitterID := {| TransmitterID := transmitterID; GroupedResults := Some ∅ |}]>
          table
    end in
  let txResult :=
    default {| TransmitterID := EmptyString; GroupedResults := None |}
            (table !! transmitterID) in
  match GroupedResults txResult with
  | None => inl (configuration.Panic "assignment to entry in nil map")
  | Some grouped =>
      let txResult :=
        {| TransmitterID := TransmitterID txResult;
           GroupedResults :=
             Some (<[mr_ServerID result :=
                       (default [] (grouped !! mr_ServerID result) ++ [result])%list]>
                     grouped) |} in
      inr {| tables := <[txGroupedResults a := <[transmitterID := txResult]> table]> (tables a);
             txGroupedResults := txGroupedResults a;
             totalResults := total |}
  end.

(** [StartResultsProcessor] up to its call of [processAndSendResults]: the
    entry it stores for the organisation has no map ([GroupedResults] is
    left out of the literal), and replaces the entry the organisation had. *)
Definition StartResultsProcessor (organisationID : string) (a : Aggregator) : Aggregator :=
  let newResult := {| TransmitterID := organisationID; GroupedResults := None |} in
  {| tables := <[txGroupedResults a := <[organisationID := newResult]> (currentTable a)]>
                 (tables a);
     txGroupedResults := txGroupedResults a;
     totalResults := totalResults a |}.

(** [getAndClearResults]: the returned reference is the value of the
    variable when [return] is evaluated; the deferred function then makes a
    new map for the variable and resets the counter. *)
Definition getAndClearResults (a : Aggregator) : models.loc * Aggregator :=
  let made := fresh (dom (tables a)) in
  (txGroupedResults a,
   {| tables := <[made := ∅]> (tables a);
      txGroupedResults := made;
      totalResults := 0 |}).

(** *** The local result manager *)

Record payloadDetail := {
  pd_XFapiInteractionID : string;
  pd_ConsentID : string;
  pd_Payload : gmap string value;
  pd_Errors : gmap string (list string)
}.

Record localEndpointSummary := {
  EndpointName : string;
  Requests : Z;
  RequestsWithErrors : Z;
  PayloadDetails : list payloadDetail
}.

Record LocalResultManager := {
  result : gmap string localEndpointSummary;
  recordedErrors : gmap string Z
}.

Definition scrambleValue (value : json.value) : json.value :=
  match value with
  | Str v =>
      if (2 <? String.length v)%nat
      then Str (GoStrings.string_of_byte (GoStrings.byteAt v 0)
                +:+ GoStrings.Repeat "*" (String.length v - 2)
                +:+ GoStrings.string_of_byte (GoStrings.byteAt v (String.length v - 1)))
      else Str (GoStrings.Repeat "*" (String.length v))
  | Int _ | Float64 _ => Int 0
  | Bool _ => Bool false
  | _ => Str "**********"
  end.

Section findAndScrambleAttribute.
Context `{!GoStrings.Unicode}.
Variable ss : models.SecuritySettings.

(** What the loop of [findAndScrambleAttribute] does with the value [v] of
    a key that is not masked: a nested map is walked, the maps among the
    items of a slice are walked, anything else is left.  The maps are
    updated in place; in a decoded document no map is reached twice, so
    the update is the map of the updated entries. *)
Fixpoint scrambleNested (v : json.value) : json.value :=
  match v with
  | Map val =>
      Map (map_imap (fun k v' =>
             Some (if models.HaveToMask ss k then scrambleValue v' else scrambleNested v')) val)
  | Slice val =>
      Slice (map (fun item =>
                    match item with
                    | Map _ => scrambleNested item
                    | _ => item
                    end) val)
  | _ => v
  end.

Definition findAndScrambleAttribute (payload : gmap string value) : gmap string value :=
  map_imap (fun k v =>
    Some (if models.HaveToMask ss k then scrambleValue v else scrambleNested v)) payload.

End findAndScrambleAttribute.

Section LocalResultManager.
Context `{!GoStrings.Unicode} `{!Decoder}.

(** The innermost loop body of [AppendResult]: one description of one
    field; [prefix] is the part of [errorKey] before the field. *)
Definition recordError (samplesPerError : Z) (prefix field : string)
    (acc : gmap string Z * bool) (validError : string) : gmap string Z * bool :=
  let errorKey := prefix +:+ "-" +:+ field +:+ "-" +:+ validError in
  if samplesPerError <=? default 0 (fst acc !! errorKey) then acc
  else (<[errorKey := wrap64 (default 0 (fst acc !! errorKey) + 1)]> (fst acc), true).

(** The two loops over [result.Errors]; the counts they leave do not depend
    on the order in which the fields are ranged over. *)
Definition recordErrors (samplesPerError : Z) (prefix : string)
    (errors : gmap string (list string)) (recorded : gmap string Z) : gmap string Z * bool :=
  map_fold (fun field errorField acc =>
              fold_left (recordError samplesPerError prefix field) errorField acc)
           (recorded, false) errors.

Definition lrm_AppendResult (cm : ConfigurationManager) (message : Message)
    (res : MessageResult) (settings : APIValidationSettings) (mng : LocalResultManager)
  : LocalResultManager :=
  let rs := configuration.s_ResultSettings (cm_settings cm) in
  if negb (configuration.Enabled rs) then mng
  else
    let prefix :=
      APIGroup settings +:+ "-" +:+ GoStrings.ReplaceAll (BasePath settings) "-" ""
      +:+ "-" +:+ models.Endpoint (EndpointSettings settings) in
    let key := prefix in
    let summary :=
      default {| EndpointName := models.Endpoint (EndpointSettings settings);
                 Requests := 0; RequestsWithErrors := 0; PayloadDetails := [] |}
              (result mng !! key) in
    let requests := wrap64 (Requests summary + 1) in
    if mr_Result res
    then {| result := <[key := {| EndpointName := EndpointName summary;
                                  Requests := requests;
                                  RequestsWithErrors := RequestsWithErrors summary;
                                  PayloadDetails := PayloadDetails summary |}]> (result mng);
            recordedErrors := recordedErrors mng |}
    else
      let '(recorded, needToSaveSample) :=
        recordErrors (configuration.SamplesPerError rs) prefix (mr_Errors res)
                     (recordedErrors mng) in
      let details :=
        if needToSaveSample then
          let payload :=
            match GetMappedObject message with
            | inl _ => ∅
            | inr payload => payload
            end in
          let payload :=
            findAndScrambleAttribute
              (models.cs_SecuritySettings (cm_ConfigurationSettings cm)) payload in
          (PayloadDetails summary
           ++ [{| pd_Payload := payload;
                  pd_ConsentID := msg_ConsentID message;
                  pd_XFapiInteractionID := msg_XFapiInteractionID message;
                  pd_Errors := mr_Errors res |}])%list
        else PayloadDetails summary in
      {| result := <[key := {| EndpointName := EndpointName summary;
                               Requests := requests;
                               RequestsWithErrors := wrap64 (RequestsWithErrors summary + 1);
                               PayloadDetails := details |}]> (result mng);
         recordedErrors := recorded |}.

End LocalResultManager.

(** *** main.go: the API server *)

Definition xFAPIInteractionID : string := "x-fapi-interaction-id".
Definition srvOrgID : string := "serverOrgId".
Definition transmitterID : string := "transmitterID".

Definition StatusBadRequest : Z := 400.
Definition StatusInternalServerError : Z := 500.

Record GenericError := {
  ge_Message : string
}.

(** A request, by what the handler reads of it: [r.Header.Get],
    [io.ReadAll(r.Body)] and [r.Method]. *)
Record Request := {
  Header_Get : string -> string;
  Body : error + string;
  Method : string
}.

(** What the handler has written: the status code, and as body either the
    JSON encoding of a [GenericError] or a text. *)
Inductive ResponseBody :=
| JSONBody (genericError : GenericError)
| TextBody (text : string).

Record Response := {
  StatusCode : Z;
  body : ResponseBody
}.

(** [crypto/rand.Int(rand.Reader, max)]: a number drawn from [0, max), or
    the error of the reader. *)
Inductive rand_Int :=
| RandNum (num : Z)
| RandErr (err : error).

(** [getRandomNumber]; [drawn] is what [rand.Int(rand.Reader, 101)] gives. *)
Definition getRandomNumber (drawn : rand_Int) : Z :=
  match drawn with
  | RandErr _ => 100
  | RandNum num => num
  end.

Definition mustValidate (cm : ConfigurationManager)
    (endpointSetting : models.APIEndpointSetting) (drawn : rand_Int) : bool :=
  let value := getRandomNumber drawn in
  let vs := models.cs_ValidationSettings (cm_ConfigurationSettings cm) in
  let throughput := models.Throughput endpointSetting in
  if String.eqb throughput models.ExtremelyHighTroughput
  then value <? models.ExtremelyHighTroughputValidationRate vs
  else if String.eqb throughput models.HighTroughput
  then value <? models.HighTroughputValidationRate vs
  else if String.eqb throughput models.MediumTroughput
  then value <? models.MediumTroughputValidationRate vs
  else if String.eqb throughput models.LowTroughput
  then value <? models.LowTroughputValidationRate vs
  else if String.eqb throughput models.VeryLowTroughput
  then value <? models.VeryLowTroughputValidationRate vs
  else true.

(** The package variables of the process the handler and the worker touch. *)
Record Process := {
  messageQueue : list Message;
  metrics : monitoring.Metrics;
  receivedValues : gmap string Z;
  validatedValues : gmap string Z;
  aggregator : Aggregator;
  localResults : LocalResultManager
}.

Definition set_messageQueue (q : list Message) (p : Process) : Process :=
  {| messageQueue := q; metrics := metrics p;
     receivedValues := receivedValues p; validatedValues := validatedValues p;
     aggregator := aggregator p; localResults := localResults p |}.

Definition set_metrics (f : monitoring.Metrics -> monitoring.Metrics) (p : Process) : Process :=
  {| messageQueue := messageQueue p; metrics := f (metrics p);
     receivedValues := receivedValues p; validatedValues := validatedValues p;
     aggregator := aggregator p; localResults := localResults p |}.

Definition set_receivedValues (v : gmap string Z) (p : Process) : Process :=
  {| messageQueue := messageQueue p; metrics := metrics p;
     receivedValues := v; validatedValues := validatedValues p;
     aggregator := aggregator p; localResults := localResults p |}.

Definition set_validatedValues (v : gmap string Z) (p : Process) : Process :=
  {| messageQueue := messageQueue p; metrics := metrics p;
     receivedValues := receivedValues p; validatedValues := v;
     aggregator := aggregator p; localResults := localResults p |}.

Definition set_aggregator (f : Aggregator -> Aggregator) (p : Process) : Process :=
  {| messageQueue := messageQueue p; metrics := metrics p;
     receivedValues := receivedValues p; validatedValues := validatedValues p;
     aggregator := f (aggregator p); localResults := localResults p |}.

Definition set_localResults (f : LocalResultManager -> LocalResultManager) (p : Process)
  : Process :=
  {| messageQueue := messageQueue p; metrics := metrics p;
     receivedValues := receivedValues p; validatedValues := validatedValues p;
     aggregator := aggregator p; localResults := f (localResults p) |}.

(** How a run of the handler ends: it has written a response, or it is
    parked at the send statement of [EnqueueMessage] with nothing written. *)
Inductive Outcome :=
| Responded (w : Response)
| Parked (msg : Message).

Definition updateResponseError (genericError : GenericError) (responseCode : Z) : Outcome :=
  Responded {| StatusCode := responseCode; body := JSONBody genericError |}.

Section APIServer.
Context `{!GoStrings.Unicode} `{!Decoder} `{!configuration.UUID}.

(** [loadMessageHeaderValues]: the error to answer with, or the message
    with the header values in it. *)
Definition loadMessageHeaderValues (r : Request) (p : Process) : (GenericError + Message) * Process :=
  let serverOrgID := Header_Get r srvOrgID in
  if negb (configuration.uuid_Parse_ok serverOrgID)
  then (inl {| ge_Message := srvOrgID +:+ ": Not found or bad format." |},
        set_metrics monitoring.IncreaseBadRequestsReceived p)
  else
    let xFapiID := Header_Get r xFAPIInteractionID in
    if negb (configuration.uuid_Parse_ok xFapiID)
    then (inl {| ge_Message := xFAPIInteractionID +:+ ": Not found or bad format." |},
          set_metrics monitoring.IncreaseBadRequestsReceived p)
    else
      let txServerID := Header_Get r transmitterID in
      if negb (String.eqb txServerID EmptyString) && negb (configuration.uuid_Parse_ok txServerID)
      then (inl {| ge_Message := transmitterID +:+ ": bad format." |},
            set_metrics monitoring.IncreaseBadRequestsReceived p)
      else
        (inr {| msg_Message := EmptyString;
                msg_Endpoint := Header_Get r "endpointName";
                msg_APIVersion := Header_Get r "version";
                msg_HTTPMethod := EmptyString;
                msg_ServerID := serverOrgID;
                msg_XFapiInteractionID := xFapiID;
                msg_ConsentID := Header_Get r "consentID";
                msg_TransmitterID := txServerID |}, p).

(** The end of the handler, from [monitoring.RecordResponseDuration] on;
    [elapsed] is [time.Since(startTime)] there.  The first write sends the
    status 200. *)
Definition respondEnqueued (elapsed : Z) (p : Process) : Outcome * Process :=
  (Responded {| StatusCode := 200; body := TextBody "Message enqueued for processing!" |},
   set_metrics (monitoring.RecordResponseDuration elapsed) p).

(** The handler up to the send statement: it has answered with an error,
    or the gate has passed the request over, or [msg] is ready for
    [EnqueueMessage]. *)
Inductive Admission :=
| Rejected (w : Outcome)
| NotSampled
| Sampled (msg : Message).

(** [handleValidateResponseMessage] from its first statement to the test
    [if as.mustValidate(...)] and the assignments under it; [drawn] is the
    draw of [mustValidate]. *)
Definition admission (cm : ConfigurationManager) (r : Request) (drawn : rand_Int)
    (p : Process) : Admission * Process :=
  let p := set_metrics monitoring.IncreaseRequestsReceived p in
  match loadMessageHeaderValues r p with
  | (inl loadError, p) => (Rejected (updateResponseError loadError StatusBadRequest), p)
  | (inr msg, p) =>
      match Body r with
      | inl _ =>
          (Rejected (updateResponseError {| ge_Message := "Failed to read request body." |}
                       StatusInternalServerError), p)
      | inr body =>
          if negb (Valid body)
          then (Rejected (updateResponseError
                            {| ge_Message := "body: Not a Valid JSON Message." |}
                            StatusBadRequest),
                set_metrics monitoring.IncreaseBadRequestsReceived p)
          else
            match GetEndpointSettingFromAPI cm (msg_Endpoint msg) with
            | None =>
                (Rejected (updateResponseError
                             {| ge_Message := "endpointName: Not found or bad format." |}
                             StatusBadRequest),
                 set_metrics (monitoring.IncreaseBadEndpointsReceived (msg_Endpoint msg) "N.A."
                                "Endpoint not supported") p)
            | Some validationSettings =>
                if negb (String.eqb (msg_APIVersion msg) EmptyString)
                   && negb (String.eqb (msg_APIVersion msg) (APIVersion validationSettings))
                then
                  (Rejected (updateResponseError
                               {| ge_Message := "version: not supported for as endpoint: "
                                                +:+ msg_Endpoint msg |}
                               StatusBadRequest),
                   set_metrics (monitoring.IncreaseBadEndpointsReceived (msg_Endpoint msg)
                                  (msg_APIVersion msg) "Version not supported") p)
                else if mustValidate cm (EndpointSettings validationSettings) drawn
                then
                  (Sampled {| msg_Message := body;
                              msg_Endpoint := msg_Endpoint msg;
                              msg_APIVersion := msg_APIVersion msg;
                              msg_HTTPMethod := Method r;
                              msg_ServerID := msg_ServerID msg;
                              msg_XFapiInteractionID := msg_XFapiInteractionID msg;
                              msg_ConsentID := msg_ConsentID msg;
                              msg_TransmitterID := msg_TransmitterID msg |}, p)
                else (NotSampled, p)
            end
      end
  end.

(** [handleValidateResponseMessage]: the steps above, then the call of
    [EnqueueMessage] for a sampled request, then the answer. *)
Definition handleValidateResponseMessage (cm : ConfigurationManager) (r : Request)
    (drawn : rand_Int) (elapsed : Z) (p : Process) : Outcome * Process :=
  match admission cm r drawn p with
  | (Rejected w, p) => (w, p)
  | (NotSampled, p) => respondEnqueued elapsed p
  | (Sampled msg, p) =>
      match EnqueueMessage msg (messageQueue p) with
      | Some q => respondEnqueued elapsed (set_messageQueue q p)
      | None => (Parked msg, p)
      end
  end.

(** A handler parked on [msg] goes on once the send can complete. *)
Definition resumeParked (msg : Message) (elapsed : Z) (p : Process) : Outcome * Process :=
  match EnqueueMessage msg (messageQueue p) with
  | Some q => respondEnqueued elapsed (set_messageQueue q p)
  | None => (Parked msg, p)
  end.

End APIServer.

(** *** message_process_Worker.go *)

Section Worker.
Context `{!GoStrings.Unicode} `{!Decoder} `{!strconv.Strconv} `{!validation.SchemaEngine}.

(** [validateContentWithSchema]: the result left in [validationResult] and
    the returned error, [None] for nil. *)
Definition validateContentWithSchema (content schema : string)
    (validationResult : validation.Result) : validation.Result * option error :=
  match Unmarshal_object content with
  | inl err =>
      ({| validation.Valid := false;
          validation.Errors := validation.Errors validationResult |}, Some err)
  | inr dynamicStruct =>
      match validation.Validate schema dynamicStruct with
      | inl err =>
          ({| validation.Valid := false;
              validation.Errors := validation.Errors validationResult |}, Some err)
      | inr valRes =>
          if negb (validation.Valid valRes)
          then ({| validation.Valid := validation.Valid valRes;
                   validation.Errors :=
                     validation.Errors valRes ∪ validation.Errors validationResult |}, None)
          else (validationResult, None)
      end
  end.

Definition validateMessage (msg : Message) (settings : models.APIEndpointSetting)
  : validation.Result * option error :=
  let validationResult := {| validation.Valid := true; validation.Errors := ∅ |} in
  match validateContentWithSchema (msg_Message msg) (models.JSONBodySchema settings)
          validationResult with
  | (validationResult, Some err) =>
      ({| validation.Valid := false;
          validation.Errors := validation.Errors validationResult |}, Some err)
  | (validationResult, None) => (validationResult, None)
  end.

Definition increment (key : string) (m : gmap string Z) : gmap string Z :=
  <[key := wrap64 (default 0 (m !! key) + 1)]> m.

(** [processMessage]; a panic of [AppendResult] ends the worker and the
    process with it. *)
Definition processMessage (cm : ConfigurationManager) (msg : Message) (p : Process)
  : configuration.panic + Process :=
  let p := set_receivedValues (increment (msg_Endpoint msg) (receivedValues p)) p in
  match GetEndpointSettingFromAPI cm (msg_Endpoint msg) with
  | None => inr p
  | Some validationSettings =>
      let xFapi :=
        if negb (String.eqb (msg_ConsentID msg) EmptyString)
        then "[" +:+ msg_ConsentID msg +:+ "] - [" +:+ msg_XFapiInteractionID msg +:+ "]"
        else msg_XFapiInteractionID msg in
      let '(vr, err) := validateMessage msg (EndpointSettings validationSettings) in
      let messageResult :=
        match err with
        | Some err =>
            {| mr_TransmitterID := msg_TransmitterID msg;
               mr_Endpoint := msg_Endpoint msg;
               mr_HTTPMethod := msg_HTTPMethod msg;
               mr_Result := false;
               mr_ServerID := msg_ServerID msg;
               mr_Errors := {[ "(error)" := [err] ]};
               mr_XFapiInteractionID := xFapi |}
        | None =>
            {| mr_TransmitterID := msg_TransmitterID msg;
               mr_Endpoint := msg_Endpoint msg;
               mr_HTTPMethod := msg_HTTPMethod msg;
               mr_Result := validation.Valid vr;
               mr_ServerID := msg_ServerID msg;
               mr_Errors := validation.Errors vr;
               mr_XFapiInteractionID := xFapi |}
        end in
      let p := set_metrics (monitoring.IncreaseValidationResult (mr_ServerID messageResult)
                              (mr_Endpoint messageResult) (mr_Result messageResult)) p in
      match AppendResult
              (configuration.OrganisationID
                 (configuration.s_ApplicationSettings (cm_settings cm)))
              messageResult (aggregator p) with
      | inl runtimePanic => inl runtimePanic
      | inr appended =>
          let p := set_aggregator (fun _ => appended) p in
          let p := set_localResults (lrm_AppendResult cm msg messageResult validationSettings) p in
          inr (set_validatedValues (increment (msg_Endpoint msg) (validatedValues p)) p)
      end
  end.

(** One round of [for msg := range mpw.qm.GetQueue()]: [None] when the
    worker is parked on the empty queue, and otherwise what [processMessage]
    makes of the oldest message. *)
Definition worker_step (cm : ConfigurationManager) (p : Process)
  : option (configuration.panic + Process) :=
  match chan_receive (messageQueue p) with
  | None => None
  | Some (msg, rest) => Some (processMessage cm msg (set_messageQueue rest p))
  end.

End Worker.

(** *** The configuration manager: the report settings and the update *)

(** [GetReportExecutionWindow] and [GetSendOnReportNumber]: the local
    setting when it is positive, the one of the catalog otherwise. *)
Definition GetReportExecutionWindow (cm : ConfigurationManager) : Z :=
  if 0 <? configuration.ExecutionWindow (configuration.s_ReportSettings (cm_settings cm))
  then configuration.ExecutionWindow (configuration.s_ReportSettings (cm_settings cm))
  else models.ReportExecutionWindow (models.cs_ReportSettings (cm_ConfigurationSettings cm)).

Definition GetSendOnReportNumber (cm : ConfigurationManager) : Z :=
  if 0 <? configuration.ExecutionNumber (configuration.s_ReportSettings (cm_settings cm))
  then configuration.ExecutionNumber (configuration.s_ReportSettings (cm_settings cm))
  else models.SendOnReportNumber (models.cs_ReportSettings (cm_ConfigurationSettings cm)).

(** A [time.Time], by its instant. *)
Definition Time := Z.

Record ConfigurationUpdateStatus := {
  LastExecutionDate : Time;
  LastUpdatedDate : Time;
  UpdateMessages : gmap Z string
}.

(** The fields of the manager that [updateConfiguration] writes: the
    catalog, nil before the first update that succeeds, and the status of
    the update. *)
Record ManagerState := {
  ms_ConfigurationSettings : option models.ConfigurationSettings;
  ms_configurationUpdateStatus : ConfigurationUpdateStatus
}.

(** The assignment
    [AttributesToMask = append(AttributesToMask, "companyCnpj")]. *)
Definition appendCompanyCnpj (cs : models.ConfigurationSettings) : models.ConfigurationSettings :=
  {| models.cs_Version := models.cs_Version cs;
     models.cs_ValidationSettings := models.cs_ValidationSettings cs;
     models.cs_ReportSettings := models.cs_ReportSettings cs;
     models.cs_SecuritySettings :=
       {| models.AttributesToMask :=
            (models.AttributesToMask (models.cs_SecuritySettings cs) ++ ["companyCnpj"])%list |} |}.

Section updateConfiguration.
Context `{!ReportServer} `{!Decoder}.

(** [updateConfiguration]; [now] and [now'] are the values of its first and
    second [time.Now()], [loaded] is what
    [cm.mqdServer.LoadConfigurationSettings()] returns.  The result is the
    returned error ([None] for nil), the fields of the manager and the
    requests for endpoint files. *)
Definition updateConfiguration (now now' : Time)
    (loaded : error + models.ConfigurationSettings) (st : ManagerState) (w : Fetch)
  : option error * ManagerState * Fetch :=
  let status := ms_configurationUpdateStatus st in
  let status :=
    {| LastExecutionDate := now;
       LastUpdatedDate := LastUpdatedDate status;
       UpdateMessages := UpdateMessages status |} in
  match loaded with
  | inl err =>
      (Some err,
       {| ms_ConfigurationSettings := ms_ConfigurationSettings st;
          ms_configurationUpdateStatus :=
            {| LastExecutionDate := LastExecutionDate status;
               LastUpdatedDate := LastUpdatedDate status;
               UpdateMessages := <[now' := err]> (UpdateMessages status) |} |}, w)
  | inr cs =>
      if match ms_ConfigurationSettings st with
         | Some current => String.eqb (models.cs_Version cs) (models.cs_Version current)
         | None => false
         end
      then (None,
            {| ms_ConfigurationSettings := ms_ConfigurationSettings st;
               ms_configurationUpdateStatus := status |}, w)
      else
        match updateValidationSettings (ms_ConfigurationSettings st) cs w with
        | (inl err, w') =>
            (Some err,
             {| ms_ConfigurationSettings := ms_ConfigurationSettings st;
                ms_configurationUpdateStatus :=
                  {| LastExecutionDate := LastExecutionDate status;
                     LastUpdatedDate := LastUpdatedDate status;
                     UpdateMessages :=
                       <[LastExecutionDate status := err]> (UpdateMessages status) |} |}, w')
        | (inr cs, w') =>
            (None,
             {| ms_ConfigurationSettings := Some (appendCompanyCnpj cs);
                ms_configurationUpdateStatus :=
                  {| LastExecutionDate := LastExecutionDate status;
                     LastUpdatedDate := LastExecutionDate status;
                     UpdateMessages := ∅ |} |}, w')
        end
  end.

(** [Initialize] is the first [updateConfiguration]. *)
Definition Initialize := updateConfiguration.

End updateConfiguration.

(** *** The local result manager: the files *)

(** [startStoreProcess] up to the ticker: the window between two calls of
    [storeFiles], in hours; [None] when the local results are disabled and
    the function returns at once.  A division by zero is a panic of the
    run time. *)
Definition startStoreProcess (cm : ConfigurationManager) : configuration.panic + option Z :=
  let rs := configuration.s_ResultSettings (cm_settings cm) in
  if negb (configuration.Enabled rs) then inr None
  else if configuration.FilesPerDay rs =? 0
  then inl (configuration.Panic "runtime error: integer divide by zero")
  else
    let executionWindow := Z.quot 24 (configuration.FilesPerDay rs) in
    if executionWindow =? 0
    then inl (configuration.Panic
                "FilesPerDay value is higher than expected, max value : 24, min value: 1.")
    else inr (Some executionWindow).

(** One round of the first loop of [storeFiles]: the summary goes to the
    file of the second piece of its key; a key without hyphen is a panic of
    the run time (index out of range). *)
Definition storeFiles_step (acc : configuration.panic + gmap string (list localEndpointSummary))
    (entry : string * localEndpointSummary)
  : configuration.panic + gmap string (list localEndpointSummary) :=
  match acc with
  | inl p => inl p
  | inr filesToSave =>
      let keyValues := GoStrings.Split entry.1 "-" in
      match keyValues !! 1%nat with
      | None =>
          inl (configuration.Panic "runtime error: index out of range [1] with length 1")
      | Some api =>
          inr (<[api := (default [] (filesToSave !! api) ++ [entry.2])%list]> filesToSave)
      end
  end.

(** [storeFiles]: the files handed to [saveFile], by family, and the
    manager.  [reports] is the order in which the range visits the entries
    of the map of summaries, which Go leaves open. *)
Definition storeFiles
    (reports : gmap string localEndpointSummary -> list (string * localEndpointSummary))
    (mng : LocalResultManager)
  : configuration.panic + (gmap string (list localEndpointSummary) * LocalResultManager) :=
  if (size (result mng) <=? 0)%nat then inr (∅, mng)
  else
    match fold_left storeFiles_step (reports (result mng)) (inr ∅) with
    | inl p => inl p
    | inr filesToSave => inr (filesToSave, {| result := ∅; recordedErrors := ∅ |})
    end.

(** *** result_processor.go: the summary of a report *)

(** The inner loop of [updateFieldDetails] and what follows it, for one
    description: every detail of that error type gets the identifier and
    one more count; without such a detail a new one is put last. *)
Definition updateFieldDetail (xfapiID : string) (details : list models.FieldDetail)
    (errorDetail : string) : list models.FieldDetail :=
  let detailFound :=
    existsb (fun fieldDetail => String.eqb (models.fd_ErrorType fieldDetail) errorDetail)
            details in
  let details :=
    map (fun fieldDetail =>
           if String.eqb (models.fd_ErrorType fieldDetail) errorDetail
           then {| models.fd_ErrorType := models.fd_ErrorType fieldDetail;
                   models.fd_XFapiList := (models.fd_XFapiList fieldDetail ++ [xfapiID])%list;
                   models.fd_TotalCount := wrap64 (models.fd_TotalCount fieldDetail + 1) |}
           else fieldDetail) details in
  if negb detailFound
  then (details ++ [{| models.fd_ErrorType := errorDetail;
                       models.fd_TotalCount := 1;
                       models.fd_XFapiList := [xfapiID] |}])%list
  else details.

Definition updateFieldDetails (details : list models.FieldDetail) (fieldDetails : list string)
    (xfapiID : string) : list models.FieldDetail :=
  fold_left (updateFieldDetail xfapiID) fieldDetails details.

(** The details of the first entry of that field get [update]; [None]
    without such an entry. *)
Fixpoint updateFirstField (key : string)
    (update : list models.FieldDetail -> list models.FieldDetail)
    (details : list models.EndPointSummaryDetail) : option (list models.EndPointSummaryDetail) :=
  match details with
  | [] => None
  | field :: rest =>
      if String.eqb key (models.sd_Field field)
      then Some ({| models.sd_Field := models.sd_Field field;
                    models.sd_Details := update (models.sd_Details field) |} :: rest)
      else option_map (cons field) (updateFirstField key update rest)
  end.

(** One round of the loop of [updateEndpointSummaryDetail]. *)
Definition updateEndpointSummaryDetail_step (xfapiID : string)
    (details : list models.EndPointSummaryDetail) (entry : string * list string)
  : list models.EndPointSummaryDetail :=
  match updateFirstField entry.1 (fun d => updateFieldDetails d entry.2 xfapiID) details with
  | Some details => details
  | None =>
      (details ++ [{| models.sd_Field := entry.1;
                      models.sd_Details := updateFieldDetails [] entry.2 xfapiID |}])%list
  end.

Section getSummary.
(** The order in which a range visits the entries of a map of errors, and
    of a map of results: Go leaves it open, so the order is a parameter. *)
Variable errorsOrder : gmap string (list string) -> list (string * list string).
Variable serversOrder :
  gmap string (list MessageResult) -> list (string * list MessageResult).

Definition updateEndpointSummaryDetail (details : list models.EndPointSummaryDetail)
    (errors : gmap string (list string)) (xfapiID : string)
  : list models.EndPointSummaryDetail :=
  fold_left (updateEndpointSummaryDetail_step xfapiID) (errorsOrder errors) details.

(** The loop of [updateEndpointSummary]: the first summary of the endpoint
    is updated; [None] without such a summary. *)
Fixpoint updateFirstEndpoint (messageResult : MessageResult)
    (endpointSummary : list models.EndPointSummary) : option (list models.EndPointSummary) :=
  match endpointSummary with
  | [] => None
  | ep :: rest =>
      if String.eqb (models.es_EndpointName ep) (mr_Endpoint messageResult)
      then Some ({| models.es_EndpointName := models.es_EndpointName ep;
                    models.es_TotalRequests := wrap64 (models.es_TotalRequests ep + 1);
                    models.es_ValidationErrors :=
                      if negb (mr_Result messageResult)
                      then wrap64 (models.es_ValidationErrors ep + 1)
                      else models.es_ValidationErrors ep;
                    models.es_Detail :=
                      if negb (mr_Result messageResult)
                      then updateEndpointSummaryDetail (models.es_Detail ep)
                             (mr_Errors messageResult) (mr_XFapiInteractionID messageResult)
                      else models.es_Detail ep |} :: rest)
      else option_map (cons ep) (updateFirstEndpoint messageResult rest)
  end.

Definition updateEndpointSummary (endpointSummary : list models.EndPointSummary)
    (messageResult : MessageResult) : list models.EndPointSummary :=
  match updateFirstEndpoint messageResult endpointSummary with
  | Some endpointSummary => endpointSummary
  | None =>
      (endpointSummary
       ++ [{| models.es_EndpointName := mr_Endpoint messageResult;
              models.es_TotalRequests := 1;
              models.es_ValidationErrors := if negb (mr_Result messageResult) then 1 else 0;
              models.es_Detail :=
                if negb (mr_Result messageResult)
                then updateEndpointSummaryDetail [] (mr_Errors messageResult)
                       (mr_XFapiInteractionID messageResult)
                else [] |}])%list
  end.

(** The body of the loop of [getSummary] over the servers. *)
Definition serverSummary (entry : string * list MessageResult) : models.ServerSummary :=
  fold_left (fun newSummary endpointResult =>
               {| models.ss_ServerID := models.ss_ServerID newSummary;
                  models.ss_TotalRequests := wrap64 (models.ss_TotalRequests newSummary + 1);
                  models.ss_EndpointSummary :=
                    updateEndpointSummary (models.ss_EndpointSummary newSummary)
                                          endpointResult |})
            entry.2
            {| models.ss_ServerID := entry.1;
               models.ss_TotalRequests := 0;
               models.ss_EndpointSummary := [] |}.

Definition getSummary (results : gmap string (list MessageResult))
  : list models.ServerSummary :=
  map serverSummary (serversOrder results).

End getSummary.

End application.

(** ** Stand-ins for the external libraries

    The examples below run the embedding on concrete inputs; they need the
    external functions at those inputs.  Each stand-in says where it agrees
    with the library.  None is an instance: a statement about the sources
    holds for every implementation of the interfaces. *)

Module fixtures.

Definition lower_byte (c : ascii) : ascii :=
  let n := N_of_ascii c in
  if ((65 <=? n) && (n <=? 90))%N then ascii_of_N (n + 32) else c.

Fixpoint lower (s : string) : string :=
  match s with
  | EmptyString => EmptyString
  | String c s' => String (lower_byte c) (lower s')
  end.

Definition is_space (c : ascii) : bool :=
  let n := N_of_ascii c in
  ((9 <=? n) && (n <=? 13) || (n =? 32))%N.

Fixpoint trim_left (s : string) : string :=
  match s with
  | EmptyString => EmptyString
  | String c s' => if is_space c then trim_left s' else s
  end.

Fixpoint reverse (s acc : string) : string :=
  match s with
  | EmptyString => acc
  | String c s' => reverse s' (String c acc)
  end.

Definition trim (s : string) : string :=
  reverse (trim_left (reverse (trim_left s) EmptyString)) EmptyString.

(** On strings of ASCII bytes these are [strings.EqualFold],
    [strings.ToLower] and [strings.TrimSpace]. *)
Definition ascii_Unicode : GoStrings.Unicode :=
  {| GoStrings.EqualFold := fun s t => String.eqb (lower s) (lower t);
     GoStrings.ToLower := lower;
     GoStrings.TrimSpace := trim |}.

Definition is_digit (c : ascii) : bool :=
  let n := N_of_ascii c in ((48 <=? n) && (n <=? 57))%N.

Fixpoint all_bytes (f : ascii -> bool) (s : string) : bool :=
  match s with
  | EmptyString => true
  | String c s' => f c && all_bytes f s'
  end.

(** The tokens that are an array index: a run of decimal digits.
    [strconv.ParseFloat] accepts every such run of at most 308 digits; it
    accepts other spellings of numbers too, and none of the words
    ([data], [name], [links] ...) used in the examples. *)
Definition digits_Strconv : strconv.Strconv :=
  {| strconv.ParseFloat_ok := fun s =>
       negb (String.eqb s EmptyString) && all_bytes is_digit s
       && (String.length s <=? 308)%nat |}.

Definition is_hex (c : ascii) : bool :=
  let n := N_of_ascii c in
  ((48 <=? n) && (n <=? 57) || (65 <=? n) && (n <=? 70) || (97 <=? n) && (n <=? 102))%N.

Fixpoint uuid_shape (s : string) (i : nat) : bool :=
  match s with
  | EmptyString => (i =? 36)%nat
  | String c s' =>
      (if (i =? 8)%nat || (i =? 13)%nat || (i =? 18)%nat || (i =? 23)%nat
       then Ascii.eqb c "-"%char else is_hex c)
      && uuid_shape s' (S i)
  end.

(** The canonical form of 36 bytes, 8-4-4-4-12 hexadecimal digits;
    [uuid.Parse] accepts it (and a few other spellings). *)
Definition canonical_UUID : configuration.UUID :=
  {| configuration.uuid_Parse_ok := fun s => uuid_shape s 0 |}.

(** A decoder that knows two documents as bodies, the empty object and an
    array, which is valid JSON and is no object, and the empty array as a
    list of endpoints. *)
Definition two_documents : json.Decoder :=
  {| json.Valid := fun s => String.eqb s "{}" || String.eqb s "[1]";
     json.Unmarshal_object := fun s =>
       if String.eqb s "{}" then inr ∅
       else inl "json: cannot unmarshal array into Go value of type validation.DynamicStruct";
     json.Unmarshal_endpoints := fun s =>
       if String.eqb s "[]" then inr (Some []) else inl "unexpected end of JSON input";
     json.Unmarshal_settings := fun _ => inl "unexpected end of JSON input" |}.

(** A schema engine that finds every document valid. *)
Definition lenient_engine : validation.SchemaEngine :=
  {| validation.gojsonschema_Validate := fun _ _ =>
       inr {| validation.engine_Valid := true; validation.engine_Errors := [] |} |}.

(** A report server that answers every path with the empty array. *)
Definition empty_server : application.ReportServer :=
  {| application.LoadAPIConfigurationFile := fun _ _ => inr "[]" |}.

Definition endpoint (name throughput : string) : models.APIEndpointSetting :=
  {| models.Endpoint := name;
     models.HeaderValidationRules := EmptyString;
     models.BodyValidationRules := EmptyString;
     models.JSONHeaderSchema := EmptyString;
     models.JSONBodySchema := EmptyString;
     models.Throughput := throughput |}.

Definition accounts_api (version : string) (endpoints : models.EndpointSlice)
  : models.APISetting :=
  {| models.API := "accounts";
     models.api_BasePath := "accounts";
     models.Version := version;
     models.EndpointBase := "/accounts/v2";
     models.EndpointList := endpoints |}.

Definition accounts_endpoints : models.EndpointSlice :=
  {| models.array := Some 1%positive;
     models.elems := [endpoint "/accounts" models.HighTroughput] |}.

(** A catalog with one group, one API and one endpoint; every class has
    the rate [rate]. *)
Definition catalog (version : string) (rate : Z) (apis : list models.APISetting)
  : models.ConfigurationSettings :=
  {| models.cs_Version := version;
     models.cs_ValidationSettings :=
       {| models.APIGroupSettings :=
            [{| models.Group := "open-data";
                models.grp_BasePath := "ParameterData";
                models.APIList := apis |}];
          models.TransmitterValidationRate := rate;
          models.ReceiverValidationRate := rate;
          models.ExtremelyHighTroughputValidationRate := rate;
          models.HighTroughputValidationRate := rate;
          models.MediumTroughputValidationRate := rate;
          models.LowTroughputValidationRate := rate;
          models.VeryLowTroughputValidationRate := rate |};
     models.cs_ReportSettings :=
       {| models.ReportExecutionWindow := 30; models.SendOnReportNumber := 10000 |};
     models.cs_SecuritySettings := {| models.AttributesToMask := ["cpf"; "companyCnpj"] |} |}.

Definition organisation : string := "33333333-3333-3333-3333-333333333333".

(** Local settings as a settings.yml without the result section leaves
    them: [DaysToStore] and its neighbours are zero. *)
Definition settings : configuration.Settings :=
  {| configuration.s_ApplicationSettings :=
       {| configuration.Mode := "TRANSMITTER"; configuration.OrganisationID := organisation |};
     configuration.s_ReportSettings :=
       {| configuration.ExecutionWindow := 0; configuration.ExecutionNumber := 0 |};
     configuration.s_SecuritySettings :=
       {| configuration.EnableHTTPS := false; configuration.KeyFilePath := EmptyString;
          configuration.CertFilePath := EmptyString; configuration.ProxyURL := EmptyString |};
     configuration.s_ResultSettings :=
       {| configuration.Enabled := true; configuration.FilesPerDay := 8;
          configuration.SamplesPerError := 3; configuration.DaysToStore := 0 |};
     configuration.s_ConfigurationSettings :=
       {| configuration.APIPort := "8080"; configuration.Environment := "DEBUG";
          configuration.ApplicationID := EmptyString |} |}.

Definition manager (rate : Z) : application.ConfigurationManager :=
  {| application.cm_ConfigurationSettings :=
       catalog "v1" rate [accounts_api "2.0.0" accounts_endpoints];
     application.cm_settings := settings |}.

Definition no_metrics : monitoring.Metrics :=
  {| monitoring.requests := 0;
     monitoring.endpointRequests := ∅;
     monitoring.endpointValidationErrors := ∅;
     monitoring.requestsReceived := 0;
     monitoring.badRequestsReceived := 0;
     monitoring.responseTime := [];
     monitoring.unsupportedEndpoints := ∅ |}.

(** The aggregator after [make]: one empty table. *)
Definition new_aggregator : application.Aggregator :=
  {| application.tables := {[ 1%positive := ∅ ]};
     application.txGroupedResults := 1%positive;
     application.totalResults := 0 |}.

Definition process (queue : list application.Message) : application.Process :=
  {| application.messageQueue := queue;
     application.metrics := no_metrics;
     application.receivedValues := ∅;
     application.validatedValues := ∅;
     application.aggregator := new_aggregator;
     application.localResults :=
       {| application.result := ∅; application.recordedErrors := ∅ |} |}.

Definition message (body : string) : application.Message :=
  {| application.msg_Message := body;
     application.msg_Endpoint := "/accounts/v2/accounts";
     application.msg_APIVersion := EmptyString;
     application.msg_HTTPMethod := "POST";
     application.msg_ServerID := "11111111-1111-1111-1111-111111111111";
     application.msg_XFapiInteractionID := "22222222-2222-2222-2222-222222222222";
     application.msg_ConsentID := EmptyString;
     application.msg_TransmitterID := EmptyString |}.

(** The decoded body of an accounts response: under [data] an array with
    one object, which has a [cpf], a [name] and an array of tags. *)
Definition accounts_payload : gmap string json.value :=
  {[ "data" := json.Slice
       [json.Map {[ "cpf" := json.Str "12345678901";
                    "name" := json.Str "Ana";
                    "tags" := json.Slice [json.Str "vip"] ]}] ]}.

(** An API the catalog of [manager] does not have. *)
Definition loans_api : models.APISetting :=
  {| models.API := "loans";
     models.api_BasePath := "loans";
     models.Version := "1.0.0";
     models.EndpointBase := "/loans/v1";
     models.EndpointList := models.nilSlice |}.

(** A full queue. *)
Definition full_queue : list application.Message := repeat (message "{}") 1000.

(** The request of scenario S1 of the specification, with the body [body]. *)
Definition request (body : string) : application.Request :=
  {| application.Header_Get := fun key =>
       if String.eqb key "serverOrgId" then "11111111-1111-1111-1111-111111111111"
       else if String.eqb key "x-fapi-interaction-id"
       then "22222222-2222-2222-2222-222222222222"
       else if String.eqb key "endpointName" then "/accounts/v2/accounts"
       else EmptyString;
     application.Body := inr body;
     application.Method := "POST" |}.

(** A result of the worker for [fixtures.message]. *)
Definition valid_result : application.MessageResult :=
  {| application.mr_TransmitterID := EmptyString;
     application.mr_Endpoint := "/accounts/v2/accounts";
     application.mr_HTTPMethod := "POST";
     application.mr_Result := true;
     application.mr_ServerID := "11111111-1111-1111-1111-111111111111";
     application.mr_Errors := ∅;
     application.mr_XFapiInteractionID := "22222222-2222-2222-2222-222222222222" |}.

(** A schema engine that rejects every document with one error, the one
    the engine reports for the conditional of a schema. *)
Definition conditional_engine : validation.SchemaEngine :=
  {| validation.gojsonschema_Validate := fun _ _ =>
       inr {| validation.engine_Valid := false;
              validation.engine_Errors :=
                [{| validation.Field := "(root)";
                    validation.Description := "Must validate all the schemas (allOf)";
                    validation.String_ :=
                      "(root): Must validate then as " +:+ validation.quoted_if
                      +:+ " was valid" |}] |} |}.

(** A message for an endpoint the catalog of [manager] does not have. *)
Definition stray_message : application.Message :=
  {| application.msg_Message := "{}";
     application.msg_Endpoint := "/loans/v1/contracts";
     application.msg_APIVersion := EmptyString;
     application.msg_HTTPMethod := "GET";
     application.msg_ServerID := "11111111-1111-1111-1111-111111111111";
     application.msg_XFapiInteractionID := "22222222-2222-2222-2222-222222222222";
     application.msg_ConsentID := EmptyString;
     application.msg_TransmitterID := EmptyString |}.

(** The request of [request] with a version header. *)
Definition request_version (version body : string) : application.Request :=
  {| application.Header_Get := fun key =>
       if String.eqb key "version" then version
       else application.Header_Get (request body) key;
     application.Body := inr body;
     application.Method := "POST" |}.

(** The manager with the local settings as [validateSettings] returns
    them for [settings]. *)
Definition validated_manager : application.ConfigurationManager :=
  {| application.cm_ConfigurationSettings :=
       catalog "v1" 100 [accounts_api "2.0.0" accounts_endpoints];
     application.cm_settings :=
       configuration.set_ResultSettings (configuration.set_SamplesPerError 7) settings |}.

(** The settings the catalog of [manager] resolves the endpoint of
    [message] to. *)
Definition accounts_settings : application.APIValidationSettings :=
  {| application.EndpointSettings := endpoint "/accounts" models.HighTroughput;
     application.APIGroup := "open-data";
     application.avs_API := "accounts";
     application.APIVersion := "2.0.0";
     application.BasePath := "accounts" |}.

(** A result of the worker for [message] that is not valid: one field with
    one error. *)
Definition invalid_result : application.MessageResult :=
  {| application.mr_TransmitterID := EmptyString;
     application.mr_Endpoint := "/accounts/v2/accounts";
     application.mr_HTTPMethod := "POST";
     application.mr_Result := false;
     application.mr_ServerID := "11111111-1111-1111-1111-111111111111";
     application.mr_Errors := {[ "data.name" := ["name is required"] ]};
     application.mr_XFapiInteractionID := "22222222-2222-2222-2222-222222222222" |}.

(** The aggregator after the result [valid_result] was appended to
    [new_aggregator]. *)
Definition one_result_aggregator : application.Aggregator :=
  {| application.tables :=
       {[ 1%positive :=
            {[ organisation :=
                 {| application.TransmitterID := organisation;
                    application.GroupedResults :=
                      Some {[ "11111111-1111-1111-1111-111111111111" := [valid_result] ]} |} ]} ]};
     application.txGroupedResults := 1%positive;
     application.totalResults := 1 |}.

(** The aggregator between the store of [StartResultsProcessor] and its
    initial report. *)
Definition seeded_aggregator : application.Aggregator :=
  application.StartResultsProcessor organisation new_aggregator.

(** A process whose aggregator is [a]. *)
Definition process_with (a : application.Aggregator) (queue : list application.Message)
  : application.Process :=
  {| application.messageQueue := queue;
     application.metrics := no_metrics;
     application.receivedValues := ∅;
     application.validatedValues := ∅;
     application.aggregator := a;
     application.localResults :=
       {| application.result := ∅; application.recordedErrors := ∅ |} |}.

(** The name Jose with an acute accent on its last letter, in UTF-8: the
    last letter takes the two bytes 195 and 169. *)
Definition accented_name : string :=
  "Jos" +:+ String "195"%char (String "169"%char EmptyString).

(** The decoded body of a response with that name. *)
Definition accented_payload : gmap string json.value :=
  {[ "data" := json.Slice [json.Map {[ "name" := json.Str accented_name ]}] ]}.

End fixtures.

(** ** Vocabulary of the statements *)

Module vocabulary.
Import models application.

(** The five throughput classes the gate knows. *)
Definition knownThroughputs : list string :=
  [ExtremelyHighTroughput; HighTroughput; MediumTroughput; LowTroughput; VeryLowTroughput].

(** The rate [mustValidate] compares the draw with, for a known class. *)
Definition rateOf (vs : ValidationSettings) (throughput : string) : option Z :=
  if String.eqb throughput ExtremelyHighTroughput
  then Some (ExtremelyHighTroughputValidationRate vs)
  else if String.eqb throughput HighTroughput then Some (HighTroughputValidationRate vs)
  else if String.eqb throughput MediumTroughput then Some (MediumTroughputValidationRate vs)
  else if String.eqb throughput LowTroughput then Some (LowTroughputValidationRate vs)
  else if String.eqb throughput VeryLowTroughput then Some (VeryLowTroughputValidationRate vs)
  else None.

(** What [rand.Int(rand.Reader, max)] promises of its result. *)
Definition rand_Int_below (max : Z) (drawn : rand_Int) : Prop :=
  match drawn with
  | RandNum num => 0 <= num < max
  | RandErr _ => True
  end.

(** The results the table that [txGroupedResults] refers to holds for a
    transmitter and a server, oldest first. *)
Definition resultsOf (a : Aggregator) (transmitter server : string) : list MessageResult :=
  default [] (currentTable a !! transmitter
              ≫= fun tx => GroupedResults tx ≫= fun grouped => grouped !! server).

(** The variable [txGroupedResults] refers to a map that was made. *)
Definition tableAllocated (a : Aggregator) : Prop :=
  is_Some (tables a !! txGroupedResults a).

(** The outcomes after which [executeGet] tries again while retries are
    left: an error of the transport, and a status that is neither 200 nor
    403. *)
Definition retryable (r : services.HTTPResult) : bool :=
  match r with
  | services.TransportError _ => true
  | services.Response code _ =>
      negb (code =? services.StatusForbidden) && negb (code =? services.StatusOK)
  end.

(** The error [executeGet] returns for such an outcome when no retry is
    left. *)
Definition retryError (r : services.HTTPResult) : error :=
  match r with
  | services.TransportError err => err
  | services.Response code _ => "invalid status code: " +:+ strconv.Itoa code
  end.

(** [n] rounds of a request and a sleep of one second. *)
Fixpoint retryRounds (url : string) (n : nat) : list services.event :=
  match n with
  | O => []
  | S k => services.Get url :: services.Sleep services.Second :: retryRounds url k
  end.

(** A call that ends at its request number [n+1]: [n] retries, then the
    last request. *)
Definition retryEvents (url : string) (n : nat) : list services.event :=
  (retryRounds url n ++ [services.Get url])%list.

(** [strings.Join elems "."]. *)
Definition joinDots (elems : list string) : string :=
  match elems with
  | [] => EmptyString
  | first :: rest => fold_left (fun acc piece => acc +:+ "." +:+ piece) rest first
  end.

(** The pieces from the first one that is not empty on. *)
Fixpoint dropLeadingEmpty (pieces : list string) : list string :=
  match pieces with
  | [] => []
  | piece :: rest =>
      if String.eqb piece EmptyString then dropLeadingEmpty rest else pieces
  end.

Section cleanErrors_vocabulary.
Context `{!strconv.Strconv}.
Import validation.

(** The error is not one of the "if" construct. *)
Definition kept (desc : ResultError) : bool :=
  negb (GoStrings.Contains (String_ desc) quoted_if).

(** The pieces of a dotted text that do not parse as a number. *)
Definition wordPieces (value : string) : list string :=
  List.filter (fun piece => negb (isNumeric piece)) (GoStrings.Split value "."%char).

(** The cleaned descriptions of the kept errors whose cleaned field is
    [field], in the order of the errors. *)
Definition descriptionsFor (errors : list ResultError) (field : string) : list string :=
  map (fun desc => cleanString (Description desc))
      (List.filter (fun desc => kept desc && String.eqb (cleanString (Field desc)) field)
                   errors).

(** The pieces [cleanString] joins, for a text that contains "data". *)
Definition keptPieces (value : string) : list string :=
  dropLeadingEmpty (wordPieces value).

(** The clean-up of a field path as the specification words it: the
    numeric array indices are dropped, and so is a leading [data] token. *)
Definition cleanPath_spec (path : string) : string :=
  joinDots (match wordPieces path with
            | first :: rest => if String.eqb first "data" then rest else first :: rest
            | [] => []
            end).

End cleanErrors_vocabulary.

(** A position in a decoded document: down the key of an object, or down
    the index of an array. *)
Inductive step :=
| Key (k : string)
| Index (i : nat).

(** The value of a document at a position. *)
Fixpoint get (v : json.value) (path : list step) : option json.value :=
  match path with
  | [] => Some v
  | Key k :: rest =>
      match v with
      | json.Map m => m !! k ≫= fun v' => get v' rest
      | _ => None
      end
  | Index i :: rest =>
      match v with
      | json.Slice l => l !! i ≫= fun v' => get v' rest
      | _ => None
      end
  end.

(** A way down through nested objects and arrays of objects: at each
    object a key, and where the key holds an array, the index of an item. *)
Definition segment : Type := string * option nat.

Definition stepsOf (sg : segment) : list step :=
  match sg.2 with
  | None => [Key sg.1]
  | Some i => [Key sg.1; Index i]
  end.

Definition steps (segs : list segment) : list step := concat (map stepsOf segs).

Section masking_vocabulary.
Context `{!GoStrings.Unicode}.

(** No key on the way is one to mask. *)
Definition unmasked (ss : SecuritySettings) (segs : list segment) : Prop :=
  Forall (fun sg : segment => HaveToMask ss sg.1 = false) segs.

End masking_vocabulary.

(** The transmitter a result is filed under: its own, or the organisation
    of the agent when it has none. *)
Definition transmitterOf (cm : ConfigurationManager) (msg : Message) : string :=
  if String.eqb (msg_TransmitterID msg) EmptyString
  then configuration.OrganisationID (configuration.s_ApplicationSettings (cm_settings cm))
  else msg_TransmitterID msg.

Section worker_vocabulary.
Context `{!json.Decoder} `{!validation.SchemaEngine}.

(** Decoding the body of [msg] returns the error [err], or the body decodes
    and the schema engine, run on the schema [schema], returns it. *)
Definition engineError (msg : Message) (schema : string) (err : error) : Prop :=
  json.Unmarshal_object (msg_Message msg) = inl err
  \/ exists doc,
       json.Unmarshal_object (msg_Message msg) = inr doc
       /\ schema <> EmptyString
       /\ validation.gojsonschema_Validate schema doc = inl err.

End worker_vocabulary.

(** The groups of a catalog. *)
Definition groupsOf (cs : ConfigurationSettings) : list APIGroupSetting :=
  APIGroupSettings (cs_ValidationSettings cs).

(** The API at position [j] of the group at position [i]. *)
Definition apiAt (cs : ConfigurationSettings) (i j : nat) : option APISetting :=
  groupsOf cs !! i ≫= fun g => APIList g !! j.

(** Identity in a catalog is by name: no two groups of a catalog have the
    same name, no two APIs of a group have the same name. *)
Definition uniqueNames (cs : ConfigurationSettings) : Prop :=
  NoDup (map Group (groupsOf cs))
  /\ Forall (fun g => NoDup (map API (APIList g))) (groupsOf cs).

(** [oldAPI] is the API of the old catalog with the group and the name of
    [newAPI], an API of the group [newSet] of the new catalog. *)
Definition inBoth (old : ConfigurationSettings) (newSet : APIGroupSetting)
    (newAPI oldAPI : APISetting) : Prop :=
  exists oldSet,
    oldSet ∈ groupsOf old /\ Group oldSet = Group newSet
    /\ oldAPI ∈ APIList oldSet /\ API oldAPI = API newAPI.

(** The API is carried forward: the old catalog has it with this version. *)
Definition carriedForward (old : ConfigurationSettings) (newSet : APIGroupSetting)
    (newAPI : APISetting) : Prop :=
  exists oldAPI, inBoth old newSet newAPI oldAPI /\ Version oldAPI = Version newAPI.

(** The file of the endpoints of an API. *)
Definition fileNameOf (newSet : APIGroupSetting) (newAPI : APISetting) : string :=
  apiConfigurationFileName (grp_BasePath newSet) (api_BasePath newAPI) (Version newAPI).

(** The lookups of the update, as a test. *)
Definition needsFetch (old : ConfigurationSettings) (newSet : APIGroupSetting)
    (newAPI : APISetting) : bool :=
  match GetGroupSetting (cs_ValidationSettings old) (Group newSet) with
  | None => true
  | Some oldSet =>
      match GetAPISetting oldSet (API newAPI) with
      | None => true
      | Some oldAPI => negb (String.eqb (Version oldAPI) (Version newAPI))
      end
  end.

(** The files of the APIs of a group, and of a catalog, that are not carried
    forward, in the order of the catalog. *)
Definition fetchesOfGroup (old : ConfigurationSettings) (newSet : APIGroupSetting)
  : list string :=
  concat (map (fun newAPI =>
                 if needsFetch old newSet newAPI then [fileNameOf newSet newAPI] else [])
              (APIList newSet)).

Definition fetchesOf (old new : ConfigurationSettings) : list string :=
  concat (map (fetchesOfGroup old) (groupsOf new)).

(** The requests of a run from [w] lie within [all]: they are a beginning of
    [all], and all of it when the run ends without error. *)
Definition sentWithin {A} (run : (error + A) * Fetch) (w : Fetch) (all : list string) : Prop :=
  exists t, fetched run.2 = (fetched w ++ t)%list /\ t `prefix_of` all
            /\ (forall a, run.1 = inr a -> t = all).

(** The API the loop over a group leaves for [newAPI]: [newAPI] with an
    endpoint list, which is the list of the old API of its name when the
    versions agree. *)
Definition updatedAPI (old : ConfigurationSettings) (newSet : APIGroupSetting)
    (newAPI api' : APISetting) : Prop :=
  (exists epList, api' = set_EndpointList epList newAPI)
  /\ forall oldSet oldAPI,
       GetGroupSetting (cs_ValidationSettings old) (Group newSet) = Some oldSet ->
       GetAPISetting oldSet (API newAPI) = Some oldAPI ->
       Version oldAPI = Version newAPI ->
       api' = set_EndpointList (EndpointList oldAPI) newAPI.

Definition updatedGroup (old : ConfigurationSettings) (newSet g' : APIGroupSetting) : Prop :=
  Forall2 (updatedAPI old newSet) (APIList newSet) (APIList g').

(** The byte occurs in the text. *)
Fixpoint hasByte (c : ascii) (s : string) : bool :=
  match s with
  | EmptyString => false
  | String c' s' => Ascii.eqb c' c || hasByte c s'
  end.

(** The sum of the sizes of the entries of a map. *)
Definition sumOver {A} (size : A -> Z) (m : gmap string A) : Z :=
  map_fold (fun _ x acc => size x + acc) 0 m.

(** The number of results a table holds, all transmitters and servers
    together. *)
Definition countResults (table : gmap string TransmitterResults) : Z :=
  sumOver (fun tx => sumOver (fun l => Z.of_nat (length l))
                             (default ∅ (GroupedResults tx))) table.

(** The transmitter [AppendResult] files a result under. *)
Definition transmitterOfResult (organisationID : string) (res : MessageResult) : string :=
  if String.eqb (mr_TransmitterID res) EmptyString then organisationID
  else mr_TransmitterID res.

Section worker_rounds.
Context `{!GoStrings.Unicode} `{!json.Decoder} `{!strconv.Strconv}
        `{!validation.SchemaEngine}.

(** The loop of [worker] for [rounds] rounds, or until the worker is parked
    on the empty queue or a round ends with a panic. *)
Fixpoint worker_rounds (cm : ConfigurationManager) (rounds : nat) (p : Process)
  : configuration.panic + Process :=
  match rounds with
  | O => inr p
  | S n =>
      match worker_step cm p with
      | None => inr p
      | Some (inl runtimePanic) => inl runtimePanic
      | Some (inr p') => worker_rounds cm n p'
      end
  end.

(** The messages of a list, each handed to [processMessage] in turn, until
    one ends with a panic. *)
Definition processAll (cm : ConfigurationManager) (messages : list Message) (p : Process)
  : configuration.panic + Process :=
  fold_left (fun run msg =>
               match run with
               | inl runtimePanic => inl runtimePanic
               | inr p' => processMessage cm msg p'
               end) messages (inr p).

End worker_rounds.

(** The identifier a result carries: the interaction identifier, with the
    consent in front of it when the message has one. *)
Definition resultIdentifier (msg : Message) : string :=
  if String.eqb (msg_ConsentID msg) EmptyString then msg_XFapiInteractionID msg
  else "[" +:+ msg_ConsentID msg +:+ "] - [" +:+ msg_XFapiInteractionID msg +:+ "]".

(** How often [IncreaseBadEndpointsReceived] has recorded the endpoint with
    the version since the record was last taken. *)
Definition unsupportedCount (m : monitoring.Metrics) (endpoint version : string) : Z :=
  default 0 (monitoring.unsupportedEndpoints m !! endpoint
             ≫= fun byVersion => byVersion !! version).

Section endpoint_vocabulary.
Context `{!GoStrings.Unicode}.
Import GoStrings.

(** The endpoint of the API answers to the name: the name contains the base
    of the API and, trimmed and in lower case, is the base followed by the
    endpoint. *)
Definition answersTo (api : APISetting) (endpoint : APIEndpointSetting)
    (endpointName : string) : bool :=
  Contains (ToLower endpointName) (ToLower (TrimSpace (EndpointBase api)))
  && String.eqb (ToLower (TrimSpace (TrimSpace (EndpointBase api)
                                     +:+ TrimSpace (Endpoint endpoint))))
                (ToLower (TrimSpace endpointName)).

(** The settings [GetEndpointSettingFromAPI] makes of an endpoint of an API
    of a group. *)
Definition settingsOf (setting : APIGroupSetting) (api : APISetting)
    (endpoint : APIEndpointSetting) : APIValidationSettings :=
  {| EndpointSettings := endpoint;
     APIVersion := Version api;
     avs_API := API api;
     APIGroup := Group setting;
     BasePath := api_BasePath api |}.

End endpoint_vocabulary.

(** The occurrences recorded for an error key, zero without entry. *)
Definition recordedCount (recorded : gmap string Z) (errorKey : string) : Z :=
  default 0 (recorded !! errorKey).

(** Every recorded error has between one and [cap] occurrences. *)
Definition withinSamples (cap : Z) (recorded : gmap string Z) : Prop :=
  map_Forall (fun _ count => 1 <= count <= cap) recorded.

(** The key of the summary of an endpoint in the local results. *)
Definition summaryKey (settings : APIValidationSettings) : string :=
  APIGroup settings +:+ "-" +:+ GoStrings.ReplaceAll (BasePath settings) "-" ""
  +:+ "-" +:+ Endpoint (EndpointSettings settings).

(** The summary a first result of the endpoint starts from. *)
Definition newSummary (settings : APIValidationSettings) : localEndpointSummary :=
  {| EndpointName := Endpoint (EndpointSettings settings);
     Requests := 0; RequestsWithErrors := 0; PayloadDetails := [] |}.

Section sample_vocabulary.
Context `{!GoStrings.Unicode} `{!json.Decoder}.

(** The sample [AppendResult] stores for a message: the decoded body (the
    empty document when it does not decode) with the attributes of the
    catalog masked, the identifiers of the message and the errors of the
    result. *)
Definition sampleOf (cm : ConfigurationManager) (message : Message) (res : MessageResult)
  : payloadDetail :=
  {| pd_Payload :=
       findAndScrambleAttribute (cs_SecuritySettings (cm_ConfigurationSettings cm))
         (match GetMappedObject message with
          | inl _ => ∅
          | inr payload => payload
          end);
     pd_ConsentID := msg_ConsentID message;
     pd_XFapiInteractionID := msg_XFapiInteractionID message;
     pd_Errors := mr_Errors res |}.

End sample_vocabulary.

(** The details of a field are well counted: no two of them have the same
    error type, and the count of each is the number of identifiers it
    lists, as a 64-bit integer. *)
Definition wellCounted (details : list FieldDetail) : Prop :=
  NoDup (map fd_ErrorType details)
  /\ Forall (fun fieldDetail =>
               fd_TotalCount fieldDetail
               = wrap64 (Z.of_nat (length (fd_XFapiList fieldDetail)))) details.

(** The results of a list for an endpoint, and those of them that are not
    valid, by their number. *)
Definition requestsOf (endpoint : string) (results : list MessageResult) : Z :=
  Z.of_nat (length (List.filter (fun res => String.eqb (mr_Endpoint res) endpoint) results)).

Definition errorsOf (endpoint : string) (results : list MessageResult) : Z :=
  Z.of_nat (length (List.filter
                      (fun res => String.eqb (mr_Endpoint res) endpoint
                                  && negb (mr_Result res)) results)).

(** The microseconds of a list of durations, added up. *)
Definition totalMicroseconds (durations : list Z) : Z :=
  fold_right (fun d total => monitoring.Microseconds d + total) 0 durations.

(** What the handler and the worker tell the package [monitoring]. *)
Inductive metricEvent :=
| RequestReceived
| BadRequest
| BadEndpoint (endpoint version errorMessage : string)
| ResponseDuration (elapsed : Z)
| ValidationResult (serverID endpointName : string) (valid : bool).

Definition recordEvent (m : monitoring.Metrics) (e : metricEvent) : monitoring.Metrics :=
  match e with
  | RequestReceived => monitoring.IncreaseRequestsReceived m
  | BadRequest => monitoring.IncreaseBadRequestsReceived m
  | BadEndpoint endpoint version errorMessage =>
      monitoring.IncreaseBadEndpointsReceived endpoint version errorMessage m
  | ResponseDuration elapsed => monitoring.RecordResponseDuration elapsed m
  | ValidationResult serverID endpointName valid =>
      monitoring.IncreaseValidationResult serverID endpointName valid m
  end.

Definition isReceived (e : metricEvent) : bool :=
  match e with RequestReceived => true | _ => false end.

Definition isBad (e : metricEvent) : bool :=
  match e with BadRequest | BadEndpoint _ _ _ => true | _ => false end.

Definition countEvents (p : metricEvent -> bool) (events : list metricEvent) : Z :=
  Z.of_nat (length (List.filter p events)).

Fixpoint durationsOf (events : list metricEvent) : list Z :=
  match events with
  | [] => []
  | ResponseDuration elapsed :: rest => elapsed :: durationsOf rest
  | _ :: rest => durationsOf rest
  end.

(** The entry the table has for the transmitter, if it has one, holds a
    map that was made: it is not the entry with the nil map that
    [StartResultsProcessor] stores. *)
Definition resultsMade (a : Aggregator) (transmitter : string) : Prop :=
  forall tx, currentTable a !! transmitter = Some tx -> is_Some (GroupedResults tx).

(** No entry of the table has a nil map. *)
Definition allResultsMade (a : Aggregator) : Prop :=
  forall transmitter, resultsMade a transmitter.

(** The mask the specification gives a string longer than 2: its first
    byte, a star for every byte between, its last byte. *)
Definition firstStarsLast (s : string) : string :=
  String (GoStrings.byteAt s 0)
         (GoStrings.Repeat "*" (String.length s - 2)
          +:+ String (GoStrings.byteAt s (String.length s - 1)) EmptyString).

End vocabulary.

(** * Properties *)

Import models application vocabulary.
Local Open Scope list_scope.

(** Case analysis on every test of the goal. *)
Ltac case_tests :=
  repeat match goal with
  | |- context [if ?b then _ else _] => destruct b
  end.

(** ** The sampling gate ([mustValidate], [getRandomNumber]) *)

(** The number the gate compares lies in 0..100, the error of the random
    source included. *)
Lemma getRandomNumber_range (drawn : rand_Int) :
  rand_Int_below 101 drawn -> 0 <= getRandomNumber drawn <= 100.
Proof. destruct drawn as [num|err]; simpl; lia. Qed.

(** For a known class the gate admits exactly when the number is below the
    rate of the class. *)
Lemma mustValidate_known_class (cm : ConfigurationManager) (es : APIEndpointSetting)
    (drawn : rand_Int) (rate : Z) :
  rateOf (cs_ValidationSettings (cm_ConfigurationSettings cm)) (Throughput es) = Some rate ->
  mustValidate cm es drawn = (getRandomNumber drawn <? rate).
Proof.
  unfold rateOf, mustValidate; cbv zeta.
  repeat (destruct (String.eqb (Throughput es) _); [intros [= <-]; reflexivity|]).
  discriminate.
Qed.

(** With the rate 100, every draw but 100 is admitted. *)
Lemma mustValidate_rate_100 (cm : ConfigurationManager) (es : APIEndpointSetting)
    (drawn : rand_Int) :
  rateOf (cs_ValidationSettings (cm_ConfigurationSettings cm)) (Throughput es) = Some 100 ->
  rand_Int_below 101 drawn ->
  mustValidate cm es drawn = negb (getRandomNumber drawn =? 100).
Proof.
  intros Hrate Hdraw. rewrite (mustValidate_known_class _ _ _ _ Hrate).
  pose proof (getRandomNumber_range _ Hdraw).
  destruct (Z.ltb_spec (getRandomNumber drawn) 100), (Z.eqb_spec (getRandomNumber drawn) 100);
    simpl; auto; lia.
Qed.

(** C2.  An endpoint of a known class whose rate is 100, and a draw of
    100 by [rand.Int(rand.Reader, 101)]: the gate drops the request.  The
    draw ranges over the 101 numbers 0..100 and the gate asks for a number
    strictly below the rate, so the rate 100 does not let every request
    through. *)
Theorem mustValidate_rate_100_draw_100 (cm : ConfigurationManager) (es : APIEndpointSetting) :
  rateOf (cs_ValidationSettings (cm_ConfigurationSettings cm)) (Throughput es) = Some 100 ->
  rand_Int_below 101 (RandNum 100) /\ mustValidate cm es (RandNum 100) = false.
Proof.
  intros Hrate. split; [simpl; lia|].
  rewrite (mustValidate_known_class _ _ _ _ Hrate). reflexivity.
Qed.

(** The catalog gives every class the rate 100 and the endpoint is of class
    HIGH. *)
Lemma mustValidate_rate_100_draw_100_witness :
  rateOf (cs_ValidationSettings (cm_ConfigurationSettings (fixtures.manager 100)))
         (Throughput (fixtures.endpoint "/accounts" HighTroughput)) = Some 100
  /\ mustValidate (fixtures.manager 100) (fixtures.endpoint "/accounts" HighTroughput)
                  (RandNum 100) = false.
Proof.
  split; [reflexivity|].
  exact (proj2 (mustValidate_rate_100_draw_100 (fixtures.manager 100)
                  (fixtures.endpoint "/accounts" HighTroughput) eq_refl)).
Defined.

(** C10.  An endpoint whose throughput is none of the five keywords of the
    code, the spelling EXTREMELY_HIGH among them, is admitted whatever the
    rates and the draw are. *)
Theorem mustValidate_unknown_throughput (cm : ConfigurationManager)
    (es : APIEndpointSetting) (drawn : rand_Int) :
  Throughput es ∉ knownThroughputs \/ Throughput es = "EXTREMELY_HIGH" ->
  mustValidate cm es drawn = true.
Proof.
  intros H.
  assert (Hn : Throughput es ∉ knownThroughputs).
  { destruct H as [H|H]; [exact H|]. rewrite H. unfold knownThroughputs.
    intros Hin. repeat (apply elem_of_cons in Hin as [Hin|Hin]; [discriminate Hin|]).
    by apply elem_of_nil in Hin. }
  unfold mustValidate; cbv zeta.
  repeat match goal with
  | |- context [String.eqb (Throughput es) ?k] =>
      destruct (String.eqb_spec (Throughput es) k) as [He|_];
      [exfalso; apply Hn; rewrite He; unfold knownThroughputs;
       repeat first [apply list_elem_of_here | apply list_elem_of_further]|]
  end.
  reflexivity.
Qed.

Lemma mustValidate_unknown_throughput_witness :
  ("EXTREMELY_HIGH" ∉ knownThroughputs \/ "EXTREMELY_HIGH" = "EXTREMELY_HIGH")
  /\ mustValidate (fixtures.manager 0) (fixtures.endpoint "/accounts" "EXTREMELY_HIGH")
                  (RandNum 100) = true.
Proof.
  split; [right; reflexivity|].
  apply (mustValidate_unknown_throughput (fixtures.manager 0)
           (fixtures.endpoint "/accounts" "EXTREMELY_HIGH") (RandNum 100)).
  right; reflexivity.
Defined.

(** ** The local settings ([validateSettings]) *)

Section validateSettings_facts.
Import configuration.
Context `{!UUID}.
Variable notExist : string -> bool.

(** No check assigns [DaysToStore]. *)
Lemma validateResultSettings_DaysToStore (s : Settings) :
  DaysToStore (s_ResultSettings (validateResultSettings s)) = DaysToStore (s_ResultSettings s).
Proof.
  unfold validateResultSettings; cbv zeta.
  case_tests; reflexivity.
Qed.

(** The branch that tests [DaysToStore] assigns [SamplesPerError]. *)
Lemma validateResultSettings_SamplesPerError (s : Settings) :
  DaysToStore (s_ResultSettings s) < 1 \/ 10 < DaysToStore (s_ResultSettings s) ->
  SamplesPerError (s_ResultSettings (validateResultSettings s)) = 7.
Proof.
  intros Hout. unfold validateResultSettings; cbv zeta.
  match goal with
  | |- context [if (DaysToStore ?r <? 1) || (10 <? DaysToStore ?r) then _ else _] =>
      assert (Hd : DaysToStore r = DaysToStore (s_ResultSettings s))
        by (case_tests; reflexivity);
      rewrite Hd
  end.
  assert (Ht : (DaysToStore (s_ResultSettings s) <? 1)
               || (10 <? DaysToStore (s_ResultSettings s)) = true).
  { apply orb_true_iff. destruct Hout; [left|right]; apply Z.ltb_lt; assumption. }
  rewrite Ht. reflexivity.
Qed.

(** The checks before the result settings leave the result settings. *)
Lemma validateSettings_inr (s s' : Settings) (isValid : bool) :
  validateSettings notExist s = inr (isValid, s') ->
  exists s0, s_ResultSettings s0 = s_ResultSettings s /\ s' = validateResultSettings s0.
Proof.
  unfold validateSettings; cbv zeta.
  match goal with
  | |- context [if EnableHTTPS (s_SecuritySettings ?x) then _ else _] =>
      assert (Hr : s_ResultSettings x = s_ResultSettings s)
        by (case_tests; reflexivity);
      generalize dependent x
  end.
  intros x Hr. destruct (EnableHTTPS (s_SecuritySettings x)).
  - unfold validateHTTPSCertificates; cbv zeta.
    case_tests; try (intros Habs; discriminate Habs);
    (intros [= _ <-]; eexists; split; [|reflexivity]; exact Hr).
  - case_tests; (intros [= _ <-]; eexists; split; [|reflexivity]; exact Hr).
Qed.

(** C3.  When [DaysToStore] is outside 1..10 and [validateSettings]
    returns, [DaysToStore] is what it was, still outside 1..10, and
    [SamplesPerError] is 7: the branch that reports
    RESULT_DAYS_TO_STORE assigns the default of [DaysToStore] to the
    neighbouring field. *)
Theorem validateSettings_DaysToStore_out_of_range (s s' : Settings) (isValid : bool) :
  validateSettings notExist s = inr (isValid, s') ->
  DaysToStore (s_ResultSettings s) < 1 \/ 10 < DaysToStore (s_ResultSettings s) ->
  DaysToStore (s_ResultSettings s') = DaysToStore (s_ResultSettings s)
  /\ SamplesPerError (s_ResultSettings s') = 7.
Proof.
  intros Hrun Hout. destruct (validateSettings_inr _ _ _ Hrun) as (s0 & Hr & ->).
  split.
  - rewrite validateResultSettings_DaysToStore, Hr. reflexivity.
  - apply validateResultSettings_SamplesPerError. rewrite Hr. exact Hout.
Qed.

End validateSettings_facts.

(** A settings file without [DaysToStore] (zero) and with
    [SamplesPerError] 3: the settings come back with [DaysToStore] 0 and
    [SamplesPerError] 7. *)
Lemma validateSettings_DaysToStore_out_of_range_witness :
  let s := fixtures.settings in
  let s' := configuration.set_ResultSettings (configuration.set_SamplesPerError 7) s in
  (@configuration.validateSettings fixtures.canonical_UUID (fun _ => true) s = inr (true, s')
   /\ (configuration.DaysToStore (configuration.s_ResultSettings s) < 1
       \/ 10 < configuration.DaysToStore (configuration.s_ResultSettings s)))
  /\ configuration.DaysToStore (configuration.s_ResultSettings s') = 0
  /\ configuration.SamplesPerError (configuration.s_ResultSettings s') = 7.
Proof.
  cbv zeta.
  assert (Hrun : @configuration.validateSettings fixtures.canonical_UUID (fun _ => true)
                   fixtures.settings
                 = inr (true, configuration.set_ResultSettings
                                (configuration.set_SamplesPerError 7) fixtures.settings))
    by (vm_compute; reflexivity).
  assert (Hout : configuration.DaysToStore (configuration.s_ResultSettings fixtures.settings) < 1
                 \/ 10 < configuration.DaysToStore
                           (configuration.s_ResultSettings fixtures.settings))
    by (left; simpl; lia).
  split; [split; assumption|].
  exact (@validateSettings_DaysToStore_out_of_range fixtures.canonical_UUID (fun _ => true)
           _ _ _ Hrun Hout).
Defined.

(** ** The aggregator ([AppendResult], [getAndClearResults]) *)

Lemma getAndClearResults_fresh (a : Aggregator) :
  tables a !! txGroupedResults (getAndClearResults a).2 = None.
Proof.
  simpl. apply not_elem_of_dom. apply is_fresh.
Qed.

(** [AppendResult] returns: the entry of the transmitter, or the one made
    for it, had a map, and the state is the one with the result at the end
    of the list of its server. *)
Lemma AppendResult_inr (organisationID : string) (res : MessageResult) (a a' : Aggregator) :
  AppendResult organisationID res a = inr a' ->
  let transmitter := transmitterOfResult organisationID res in
  exists name grouped,
    default {| TransmitterID := transmitter; GroupedResults := Some ∅ |}
            (currentTable a !! transmitter)
    = {| TransmitterID := name; GroupedResults := Some grouped |}
    /\ a' = {| tables :=
                 <[txGroupedResults a :=
                     <[transmitter :=
                         {| TransmitterID := name;
                            GroupedResults :=
                              Some (<[mr_ServerID res :=
                                        default [] (grouped !! mr_ServerID res) ++ [res]]>
                                      grouped) |}]> (currentTable a)]> (tables a);
               txGroupedResults := txGroupedResults a;
               totalResults := wrap64 (totalResults a + 1) |}.
Proof.
  cbv zeta. unfold AppendResult, transmitterOfResult; cbv zeta.
  destruct (currentTable a !! _) as [tx|] eqn:Htx; simpl.
  - rewrite Htx; simpl. destruct tx as [name [grouped|]]; simpl; [|discriminate].
    intros [= <-]. by exists name, grouped.
  - rewrite lookup_insert_eq; simpl. intros [= <-].
    eexists _, ∅. split; [reflexivity|]. by rewrite insert_insert_eq.
Qed.

(** [AppendResult] panics: the table has an entry for the transmitter, and
    the entry has the nil map. *)
Lemma AppendResult_inl (organisationID : string) (res : MessageResult) (a : Aggregator)
    (e : configuration.panic) :
  AppendResult organisationID res a = inl e ->
  e = configuration.Panic "assignment to entry in nil map"
  /\ exists tx,
       currentTable a !! transmitterOfResult organisationID res = Some tx
       /\ GroupedResults tx = None.
Proof.
  unfold AppendResult, transmitterOfResult; cbv zeta.
  destruct (currentTable a !! _) as [tx|] eqn:Htx; simpl.
  - rewrite Htx; simpl. destruct (GroupedResults tx) eqn:Hgrouped; [discriminate|].
    intros [= <-]. eauto.
  - rewrite lookup_insert_eq; simpl. discriminate.
Qed.

(** [AppendResult] returns when the entry of the transmitter is none with a
    nil map, and only then. *)
Lemma AppendResult_returns (organisationID : string) (res : MessageResult) (a : Aggregator) :
  resultsMade a (transmitterOfResult organisationID res)
  <-> exists a', AppendResult organisationID res a = inr a'.
Proof.
  split.
  - intros Hmade. destruct (AppendResult organisationID res a) as [e|a'] eqn:Hrun; [|eauto].
    destruct (AppendResult_inl _ _ _ _ Hrun) as (_ & tx & Htx & Hnil).
    destruct (Hmade tx Htx) as [grouped Hgrouped]. congruence.
  - intros [a' Hrun] tx Htx.
    destruct (AppendResult_inr _ _ _ _ Hrun) as (name & grouped & Hentry & _).
    rewrite Htx in Hentry; simpl in Hentry. subst tx. simpl. eauto.
Qed.

Lemma AppendResult_panics (organisationID : string) (res : MessageResult) (a : Aggregator) :
  ~ resultsMade a (transmitterOfResult organisationID res)
  <-> AppendResult organisationID res a
      = inl (configuration.Panic "assignment to entry in nil map").
Proof.
  rewrite AppendResult_returns. split.
  - intros Hnone. destruct (AppendResult organisationID res a) as [e|a'] eqn:Hrun.
    + by destruct (AppendResult_inl _ _ _ _ Hrun) as [-> _].
    + exfalso. eauto.
  - intros Hrun [a' Hrun']. congruence.
Qed.

(** The table the variable refers to, after [AppendResult]. *)
Lemma AppendResult_currentTable (organisationID : string) (res : MessageResult)
    (a a' : Aggregator) :
  AppendResult organisationID res a = inr a' ->
  let transmitter := transmitterOfResult organisationID res in
  exists name grouped,
    default {| TransmitterID := transmitter; GroupedResults := Some ∅ |}
            (currentTable a !! transmitter)
    = {| TransmitterID := name; GroupedResults := Some grouped |}
    /\ currentTable a'
       = <[transmitter :=
             {| TransmitterID := name;
                GroupedResults :=
                  Some (<[mr_ServerID res := default [] (grouped !! mr_ServerID res) ++ [res]]>
                          grouped) |}]> (currentTable a).
Proof.
  intros Hrun; cbv zeta.
  destruct (AppendResult_inr _ _ _ _ Hrun) as (name & grouped & Hentry & ->).
  exists name, grouped. split; [exact Hentry|].
  unfold currentTable at 1; simpl. by rewrite lookup_insert_eq.
Qed.

(** [AppendResult] writes the table the variable refers to and no other. *)
Lemma AppendResult_other_table (organisationID : string) (res : MessageResult)
    (a a' : Aggregator) (l : loc) :
  AppendResult organisationID res a = inr a' ->
  l <> txGroupedResults a ->
  tables a' !! l = tables a !! l.
Proof.
  intros Hrun Hne. destruct (AppendResult_inr _ _ _ _ Hrun) as (name & grouped & _ & ->).
  simpl. by rewrite lookup_insert_ne.
Qed.

Lemma AppendResult_txGroupedResults (organisationID : string) (res : MessageResult)
    (a a' : Aggregator) :
  AppendResult organisationID res a = inr a' ->
  txGroupedResults a' = txGroupedResults a.
Proof.
  intros Hrun. by destruct (AppendResult_inr _ _ _ _ Hrun) as (name & grouped & _ & ->).
Qed.

(** The list of a transmitter and a server after [AppendResult]. *)
Lemma AppendResult_resultsOf_cases (organisationID : string) (res : MessageResult)
    (a a' : Aggregator) (transmitter server : string) :
  AppendResult organisationID res a = inr a' ->
  resultsOf a' transmitter server
  = if String.eqb transmitter (transmitterOfResult organisationID res)
       && String.eqb server (mr_ServerID res)
    then resultsOf a transmitter server ++ [res]
    else resultsOf a transmitter server.
Proof.
  intros Hrun. unfold resultsOf.
  destruct (AppendResult_currentTable _ _ _ _ Hrun) as (name & grouped & Hentry & ->).
  destruct (String.eqb_spec transmitter (transmitterOfResult organisationID res))
    as [->|Htx]; simpl.
  2: { by rewrite lookup_insert_ne. }
  rewrite lookup_insert_eq; simpl.
  destruct (String.eqb_spec server (mr_ServerID res)) as [->|Hsrv].
  - rewrite lookup_insert_eq; simpl.
    destruct (currentTable a !! transmitterOfResult organisationID res) as [tx|];
      simpl in *; [by subst tx|].
    injection Hentry as _ <-. by rewrite lookup_empty.
  - rewrite lookup_insert_ne by congruence.
    destruct (currentTable a !! transmitterOfResult organisationID res) as [tx|];
      simpl in *; [by subst tx|].
    injection Hentry as _ <-. by rewrite lookup_empty.
Qed.

(** The appended result is the last one of its transmitter and server. *)
Lemma AppendResult_resultsOf (organisationID : string) (res : MessageResult)
    (a a' : Aggregator) :
  AppendResult organisationID res a = inr a' ->
  resultsOf a' (transmitterOfResult organisationID res) (mr_ServerID res)
  = resultsOf a (transmitterOfResult organisationID res) (mr_ServerID res) ++ [res].
Proof.
  intros Hrun. rewrite (AppendResult_resultsOf_cases _ _ _ _ _ _ Hrun).
  by rewrite !String.eqb_refl.
Qed.

Lemma AppendResult_totalResults (organisationID : string) (res : MessageResult)
    (a a' : Aggregator) :
  AppendResult organisationID res a = inr a' ->
  totalResults a' = wrap64 (totalResults a + 1).
Proof.
  intros Hrun. by destruct (AppendResult_inr _ _ _ _ Hrun) as (name & grouped & _ & ->).
Qed.

Lemma AppendResult_tableAllocated (organisationID : string) (res : MessageResult)
    (a a' : Aggregator) :
  AppendResult organisationID res a = inr a' -> tableAllocated a'.
Proof.
  intros Hrun. destruct (AppendResult_inr _ _ _ _ Hrun) as (name & grouped & _ & ->).
  unfold tableAllocated; simpl. rewrite lookup_insert_eq. eauto.
Qed.

(** [AppendResult] leaves no entry with a nil map where there was none, and
    the entry of its transmitter with a map. *)
Lemma AppendResult_resultsMade (organisationID : string) (res : MessageResult)
    (a a' : Aggregator) (transmitter : string) :
  AppendResult organisationID res a = inr a' ->
  resultsMade a' transmitter
  <-> transmitter = transmitterOfResult organisationID res \/ resultsMade a transmitter.
Proof.
  intros Hrun.
  destruct (AppendResult_currentTable _ _ _ _ Hrun) as (name & grouped & Hentry & Htable).
  unfold resultsMade. rewrite Htable.
  destruct (decide (transmitter = transmitterOfResult organisationID res)) as [->|Hne].
  - rewrite lookup_insert_eq. split; [by left|]. intros _ tx [= <-]. simpl. eauto.
  - rewrite lookup_insert_ne by congruence. split; [by right|]. by intros [?|?].
Qed.

Lemma AppendResult_allResultsMade (organisationID : string) (res : MessageResult)
    (a a' : Aggregator) :
  AppendResult organisationID res a = inr a' -> allResultsMade a -> allResultsMade a'.
Proof.
  intros Hrun Hall transmitter. apply (AppendResult_resultsMade _ _ _ _ _ Hrun). by right.
Qed.

(** The table [getAndClearResults] makes has no entry. *)
Lemma getAndClearResults_allResultsMade (a : Aggregator) :
  allResultsMade (getAndClearResults a).2.
Proof.
  intros transmitter tx. unfold currentTable; simpl.
  rewrite lookup_insert_eq; simpl. by rewrite lookup_empty.
Qed.

(** The entry [StartResultsProcessor] stores is the one [AppendResult]
    panics on: until [getAndClearResults] has replaced the table, a result
    of the organisation ends the process. *)
Lemma StartResultsProcessor_entry (organisationID : string) (a : Aggregator) :
  currentTable (StartResultsProcessor organisationID a) !! organisationID
  = Some {| TransmitterID := organisationID; GroupedResults := None |}.
Proof.
  unfold currentTable at 1, StartResultsProcessor; simpl.
  rewrite lookup_insert_eq; simpl. by rewrite lookup_insert_eq.
Qed.

Lemma StartResultsProcessor_not_made (organisationID : string) (a : Aggregator) :
  ~ resultsMade (StartResultsProcessor organisationID a) organisationID.
Proof.
  intros Hmade. destruct (Hmade _ (StartResultsProcessor_entry organisationID a)) as [? ?].
  discriminate.
Qed.

Lemma StartResultsProcessor_then_AppendResult (organisationID : string) (res : MessageResult)
    (a : Aggregator) :
  transmitterOfResult organisationID res = organisationID ->
  AppendResult organisationID res (StartResultsProcessor organisationID a)
  = inl (configuration.Panic "assignment to entry in nil map").
Proof.
  intros Htx. apply AppendResult_panics. rewrite Htx. apply StartResultsProcessor_not_made.
Qed.

(** The aggregator as it is made has no entry. *)
Lemma new_aggregator_allResultsMade : allResultsMade fixtures.new_aggregator.
Proof. intros transmitter tx. vm_compute. discriminate. Qed.

Lemma AppendResult_new_aggregator :
  AppendResult fixtures.organisation fixtures.valid_result fixtures.new_aggregator
  = inr fixtures.one_result_aggregator.
Proof. vm_compute. reflexivity. Qed.

Lemma getAndClearResults_tableAllocated (a : Aggregator) :
  tableAllocated (getAndClearResults a).2.
Proof. unfold tableAllocated; simpl. rewrite lookup_insert_eq. eauto. Qed.

(** The map made for the variable is not the map it referred to. *)
Lemma getAndClearResults_new_table (a : Aggregator) :
  tableAllocated a ->
  txGroupedResults (getAndClearResults a).2 <> txGroupedResults a.
Proof.
  intros [table Htable] Heq. pose proof (getAndClearResults_fresh a) as Hfresh.
  rewrite Heq in Hfresh. congruence.
Qed.

(** The returned table is out of reach of the results appended later. *)
Lemma getAndClearResults_then_AppendResult (organisationID : string) (res : MessageResult)
    (a a' : Aggregator) :
  tableAllocated a ->
  AppendResult organisationID res (getAndClearResults a).2 = inr a' ->
  tables a' !! (getAndClearResults a).1 = Some (currentTable a).
Proof.
  intros Ha Hrun. pose proof (getAndClearResults_new_table a Ha) as Hne.
  rewrite (AppendResult_other_table _ _ _ _ _ Hrun)
    by (intros Heq; apply Hne; by rewrite <- Heq).
  destruct Ha as [table Htable]. simpl in *.
  rewrite lookup_insert_ne by exact Hne. unfold currentTable. by rewrite Htable.
Qed.

(** C7.  When [getAndClearResults] has returned: [totalResults] is 0, the
    variable [txGroupedResults] refers to an empty map, and the returned
    reference is the map the variable referred to before, with the entries
    it had: the variable got a new map, the old one was not emptied. *)
Theorem getAndClearResults_swap (a : Aggregator) :
  tableAllocated a ->
  let returned := (getAndClearResults a).1 in
  let a' := (getAndClearResults a).2 in
  totalResults a' = 0
  /\ tables a' !! txGroupedResults a' = Some ∅
  /\ currentTable a' = ∅
  /\ returned = txGroupedResults a
  /\ tables a' !! returned = Some (currentTable a)
  /\ txGroupedResults a' <> returned.
Proof.
  intros Ha; cbv zeta.
  pose proof (getAndClearResults_new_table a Ha) as Hne.
  destruct Ha as [table Htable].
  simpl in *. repeat split.
  - apply lookup_insert_eq.
  - unfold currentTable; simpl. by rewrite lookup_insert_eq.
  - rewrite lookup_insert_ne by exact Hne. unfold currentTable. by rewrite Htable.
  - exact Hne.
Qed.

(** An aggregator that holds one result is flushed. *)
Lemma getAndClearResults_swap_witness :
  let a := fixtures.one_result_aggregator in
  tableAllocated a
  /\ totalResults (getAndClearResults a).2 = 0
  /\ currentTable (getAndClearResults a).2 = ∅
  /\ tables (getAndClearResults a).2 !! (getAndClearResults a).1 = Some (currentTable a)
  /\ resultsOf a fixtures.organisation "11111111-1111-1111-1111-111111111111"
     = [fixtures.valid_result].
Proof.
  cbv zeta.
  pose proof (AppendResult_tableAllocated _ _ _ _ AppendResult_new_aggregator) as Ha.
  destruct (getAndClearResults_swap _ Ha) as (Htotal & _ & Hempty & _ & Hold & _).
  split; [exact Ha|]. split; [exact Htotal|]. split; [exact Hempty|]. split; [exact Hold|].
  exact (AppendResult_resultsOf _ _ _ _ AppendResult_new_aggregator).
Defined.

(** ** The REST client ([executeGet]) *)

Section executeGet_facts.
Import services.
Variable net : Network.
Variable url : string.

(** The recursion of the source, on the [int] it counts down. *)
Lemma executeGet_unfold (retryTimes : Z) (sent : nat) :
  executeGet net url retryTimes sent =
  let again :=
    let '(r, evs) := executeGet net url (retryTimes - 1) (S sent) in
    (r, Get url :: Sleep (1 * Second) :: evs) in
  match net sent with
  | TransportError err => if 0 <? retryTimes then again else (inl err, [Get url])
  | Response code Body =>
      if code =? StatusForbidden then (inl "forbidden status code", [Get url])
      else if negb (code =? StatusOK) then
        if 0 <? retryTimes then again
        else (inl ("invalid status code: " +:+ strconv.Itoa code), [Get url])
      else match Body with
           | inl err => (inl err, [Get url])
           | inr body =>
               if GoStrings.Contains body "NoSuchKey"
               then (inl ("configuration file not found: " +:+ url), [Get url])
               else (inr body, [Get url])
           end
  end.
Proof.
  unfold executeGet. cbv zeta.
  destruct (Z.ltb_spec 0 retryTimes) as [Hpos|Hneg].
  - replace (Z.to_nat retryTimes) with (S (Z.to_nat (retryTimes - 1))) by lia.
    reflexivity.
  - replace (Z.to_nat retryTimes) with O by lia.
    simpl. destruct (net sent) as [err|code Body]; [reflexivity|].
    destruct (code =? StatusForbidden); [reflexivity|].
    destruct (code =? StatusOK); reflexivity.
Qed.

(** After [k] outcomes that call for a retry, with [k] retries at hand, the
    call goes on as a call with [k] retries less. *)
Lemma executeGet_from_rounds (k retries sent : nat) :
  (forall i, (i < k)%nat -> retryable (net (sent + i)%nat) = true) ->
  executeGet_from net url (k + retries)%nat sent =
  ((executeGet_from net url retries (sent + k)%nat).1,
   retryRounds url k ++ (executeGet_from net url retries (sent + k)%nat).2).
Proof.
  revert sent. induction k as [|k IH]; intros sent Hk.
  - rewrite Nat.add_0_r. simpl. by destruct (executeGet_from net url retries sent).
  - pose proof (Hk O ltac:(lia)) as H0. rewrite Nat.add_0_r in H0.
    assert (Hrec : executeGet_from net url (k + retries)%nat (S sent) =
                   ((executeGet_from net url retries (sent + S k)%nat).1,
                    retryRounds url k ++ (executeGet_from net url retries (sent + S k)%nat).2)).
    { rewrite IH.
      - replace (S sent + k)%nat with (sent + S k)%nat by lia. reflexivity.
      - intros i Hi. replace (S sent + i)%nat with (sent + S i)%nat by lia.
        apply Hk. lia. }
    change (S k + retries)%nat with (S (k + retries)).
    simpl executeGet_from at 1. unfold retryable in H0.
    destruct (net sent) as [err|code Body].
    + rewrite Hrec. reflexivity.
    + apply andb_true_iff in H0 as [Hf Hok].
      apply negb_true_iff in Hf. rewrite Hf. rewrite Hok.
      rewrite Hrec. reflexivity.
Qed.

(** C9, as the code has it.  Let the first [k] outcomes of a call call for a
    retry (an error of the transport, or a status other than 200 and 403),
    with [k] not above [retryTimes].  Then the call has sent [k] requests
    with a sleep of one second after each, and at request [k+1]:
    - with no retry left and one more such outcome it returns the error;
    - a status 403 is returned as an error at once, retries left or not;
    - a status 200 whose body contains NoSuchKey is returned as an error
      at once;
    - any other body of a status 200 is the result. *)
Theorem executeGet_retries (retryTimes : Z) (sent k : nat) :
  (k <= Z.to_nat retryTimes)%nat ->
  (forall i, (i < k)%nat -> retryable (net (sent + i)%nat) = true) ->
  (k = Z.to_nat retryTimes -> retryable (net (sent + k)%nat) = true ->
   executeGet net url retryTimes sent
   = (inl (retryError (net (sent + k)%nat)), retryEvents url k))
  /\ (forall Body, net (sent + k)%nat = Response StatusForbidden Body ->
      executeGet net url retryTimes sent
      = (inl "forbidden status code", retryEvents url k))
  /\ (forall body, net (sent + k)%nat = Response StatusOK (inr body) ->
      GoStrings.Contains body "NoSuchKey" = true ->
      executeGet net url retryTimes sent
      = (inl ("configuration file not found: " +:+ url), retryEvents url k))
  /\ (forall body, net (sent + k)%nat = Response StatusOK (inr body) ->
      GoStrings.Contains body "NoSuchKey" = false ->
      executeGet net url retryTimes sent = (inr body, retryEvents url k)).
Proof.
  intros Hk Hretry. unfold executeGet, retryEvents.
  destruct (Nat.le_exists_sub _ _ Hk) as (d & Hd & _).
  rewrite Hd, (Nat.add_comm d k), (executeGet_from_rounds _ _ _ Hretry).
  repeat split.
  - intros Hlast Hr. assert (d = O) as -> by lia.
    simpl. unfold retryable, retryError in *.
    destruct (net (sent + k)%nat) as [err|code Body]; [reflexivity|].
    apply andb_true_iff in Hr as [Hf Hok]. apply negb_true_iff in Hf.
    rewrite Hf, Hok. reflexivity.
  - intros Body Hnet. destruct d; simpl; rewrite Hnet; reflexivity.
  - intros body Hnet Hkey.
    destruct d; simpl; rewrite Hnet; simpl; rewrite Hkey; reflexivity.
  - intros body Hnet Hkey.
    destruct d; simpl; rewrite Hnet; simpl; rewrite Hkey; reflexivity.
Qed.

End executeGet_facts.

(** A server that answers 500 to every request: the call of
    [LoadAPIConfigurationFile], with its three retries, sends four requests,
    sleeps three times and returns the error of the status. *)
Lemma executeGet_retries_witness :
  let net : services.Network := fun _ => services.Response 500 (inr "oops") in
  let url := "http://mqd/settings/accounts/2.0.0/response/endpoints.json" in
  ((3 <= Z.to_nat 3)%nat
   /\ (forall i, (i < 3)%nat -> retryable (net (0 + i)%nat) = true)
   /\ retryable (net (0 + 3)%nat) = true)
  /\ services.LoadAPIConfigurationFile net "http://mqd" "accounts/2.0.0/response/endpoints.json" 0
     = (inl "invalid status code: 500",
        [services.Get url; services.Sleep 1000000000;
         services.Get url; services.Sleep 1000000000;
         services.Get url; services.Sleep 1000000000;
         services.Get url]).
Proof.
  cbv zeta.
  assert (H1 : (3 <= Z.to_nat 3)%nat) by (simpl; lia).
  assert (H2 : forall i, (i < 3)%nat ->
               retryable ((fun _ : nat => services.Response 500 (inr "oops")) (0 + i)%nat) = true)
    by (intros i _; reflexivity).
  split; [split; [exact H1|split; [exact H2|reflexivity]]|].
  exact (proj1 (executeGet_retries (fun _ => services.Response 500 (inr "oops"))
                  "http://mqd/settings/accounts/2.0.0/response/endpoints.json" 3 0 3 H1 H2)
               eq_refl eq_refl).
Defined.

(** C9, as the claim has it, fails on the status 403: it is not a 2xx
    status, three retries are at hand, and the call returns the error after
    its first request, without a sleep. *)
Lemma executeGet_forbidden_not_retried :
  ~ (200 <= services.StatusForbidden < 300)
  /\ services.executeGet (fun _ => services.Response 403 (inr "Forbidden"))
       "http://mqd/settings/configurationSettings.json" 3 0
     = (inl "forbidden status code",
        [services.Get "http://mqd/settings/configurationSettings.json"]).
Proof. split; [unfold services.StatusForbidden; lia|reflexivity]. Qed.

(** ** The queue and the handler ([EnqueueMessage]) *)

Lemma EnqueueMessage_room (msg : Message) (q : list Message) :
  (length q < capacity)%nat -> EnqueueMessage msg q = Some (q ++ [msg]).
Proof.
  intros Hlen. unfold EnqueueMessage, chan_send.
  destruct (Nat.ltb_spec (length q) capacity); [reflexivity|lia].
Qed.

Lemma EnqueueMessage_full (msg : Message) (q : list Message) :
  (capacity <= length q)%nat -> EnqueueMessage msg q = None.
Proof.
  intros Hlen. unfold EnqueueMessage, chan_send.
  destruct (Nat.ltb_spec (length q) capacity); [lia|reflexivity].
Qed.

(** The queue never holds more than its capacity. *)
Lemma EnqueueMessage_capacity (msg : Message) (q q' : list Message) :
  (length q <= capacity)%nat -> EnqueueMessage msg q = Some q' -> (length q' <= capacity)%nat.
Proof.
  unfold EnqueueMessage, chan_send. intros Hq.
  destruct (Nat.ltb_spec (length q) capacity); [|discriminate].
  intros [= <-]. rewrite length_app; simpl. lia.
Qed.

Section handler_facts.
Context `{!GoStrings.Unicode} `{!json.Decoder} `{!configuration.UUID}.

Lemma loadMessageHeaderValues_messageQueue (r : Request) (p p' : Process)
    (res : GenericError + Message) :
  loadMessageHeaderValues r p = (res, p') -> messageQueue p' = messageQueue p.
Proof.
  unfold loadMessageHeaderValues; cbv zeta.
  case_tests; intros [= _ <-]; reflexivity.
Qed.

(** The handler touches the queue at [EnqueueMessage] only. *)
Lemma admission_messageQueue (cm : ConfigurationManager) (r : Request) (drawn : rand_Int)
    (p p' : Process) (adm : Admission) :
  admission cm r drawn p = (adm, p') -> messageQueue p' = messageQueue p.
Proof.
  unfold admission; cbv zeta.
  destruct (loadMessageHeaderValues r _) as [[loadError|msg] p1] eqn:Hload;
    apply loadMessageHeaderValues_messageQueue in Hload; simpl in Hload.
  - intros [= _ <-]. exact Hload.
  - destruct (Body r) as [err|body]; [intros [= _ <-]; exact Hload|].
    destruct (negb (json.Valid body)); [intros [= _ <-]; exact Hload|].
    destruct (GetEndpointSettingFromAPI cm (msg_Endpoint msg)) as [vs|];
      [|intros [= _ <-]; exact Hload].
    destruct (_ && _); [intros [= _ <-]; exact Hload|].
    destruct (mustValidate _ _ _); intros [= _ <-]; exact Hload.
Qed.

(** C1, as the code has it.  Let the handler have a message [msg] ready for
    [EnqueueMessage].  With room in the queue the message is put last and the
    handler answers 200.  On a full queue the handler is parked at the
    send: it has answered nothing, the queue and the message are as they
    were and no counter but that of the received requests has moved; once
    the worker has taken the oldest message the send completes, [msg] is
    last in the queue and the handler answers 200. *)
Theorem EnqueueMessage_blocks_on_full_queue (cm : ConfigurationManager) (r : Request)
    (drawn : rand_Int) (elapsed : Z) (p p1 : Process) (msg : Message) :
  admission cm r drawn p = (Sampled msg, p1) ->
  ((length (messageQueue p) < capacity)%nat ->
   handleValidateResponseMessage cm r drawn elapsed p
   = (Responded {| StatusCode := 200; body := TextBody "Message enqueued for processing!" |},
      set_metrics (monitoring.RecordResponseDuration elapsed)
        (set_messageQueue (messageQueue p ++ [msg]) p1)))
  /\ (length (messageQueue p) = capacity ->
      handleValidateResponseMessage cm r drawn elapsed p = (Parked msg, p1)
      /\ messageQueue p1 = messageQueue p
      /\ metrics p1 = monitoring.IncreaseRequestsReceived (metrics p)
      /\ forall first rest elapsed',
           chan_receive (messageQueue p1) = Some (first, rest) ->
           resumeParked msg elapsed' (set_messageQueue rest p1)
           = (Responded {| StatusCode := 200;
                           body := TextBody "Message enqueued for processing!" |},
              set_metrics (monitoring.RecordResponseDuration elapsed')
                (set_messageQueue (rest ++ [msg]) p1))).
Proof.
  intros Hadm. pose proof (admission_messageQueue _ _ _ _ _ _ Hadm) as Hq.
  unfold handleValidateResponseMessage. rewrite Hadm, Hq. split.
  - intros Hroom. rewrite (EnqueueMessage_room _ _ Hroom). reflexivity.
  - intros Hfull. rewrite (EnqueueMessage_full msg (messageQueue p)) by lia.
    split; [reflexivity|]. split; [reflexivity|]. split.
    + revert Hadm. unfold admission; cbv zeta.
      destruct (loadMessageHeaderValues r _) as [[loadError|msg0] p0] eqn:Hload;
        [discriminate|].
      assert (Hm : metrics p0 = monitoring.IncreaseRequestsReceived (metrics p)).
      { revert Hload. unfold loadMessageHeaderValues; cbv zeta.
        case_tests; intros [= _ <-]; reflexivity. }
      destruct (Body r) as [err|body]; [discriminate|].
      destruct (negb (json.Valid body)); [discriminate|].
      destruct (GetEndpointSettingFromAPI cm (msg_Endpoint msg0)) as [vs|]; [|discriminate].
      destruct (_ && _); [discriminate|].
      destruct (mustValidate _ _ _); [|discriminate].
      intros [= _ <-]. exact Hm.
    + intros first rest elapsed' Hrecv. unfold resumeParked; simpl.
      unfold chan_receive in Hrecv.
      destruct (messageQueue p) as [|m q'] eqn:Hmq; [discriminate|].
      injection Hrecv as _ <-. simpl in Hfull.
      rewrite (EnqueueMessage_room msg q') by lia. reflexivity.
Qed.

End handler_facts.

(** The request of scenario S1 is sampled on a full queue: the handler is
    parked; the worker's receive lets it finish. *)
Lemma EnqueueMessage_blocks_on_full_queue_witness :
  let handler :=
    @handleValidateResponseMessage fixtures.ascii_Unicode fixtures.two_documents
      fixtures.canonical_UUID in
  let p := fixtures.process fixtures.full_queue in
  let p1 := set_metrics monitoring.IncreaseRequestsReceived p in
  (@admission fixtures.ascii_Unicode fixtures.two_documents fixtures.canonical_UUID
     (fixtures.manager 100) (fixtures.request "{}") (RandNum 0) p
   = (Sampled (fixtures.message "{}"), p1)
   /\ length (messageQueue p) = capacity)
  /\ handler (fixtures.manager 100) (fixtures.request "{}") (RandNum 0) 1500 p
     = (Parked (fixtures.message "{}"), p1).
Proof.
  cbv zeta.
  assert (Hadm : @admission fixtures.ascii_Unicode fixtures.two_documents
                   fixtures.canonical_UUID (fixtures.manager 100) (fixtures.request "{}")
                   (RandNum 0) (fixtures.process fixtures.full_queue)
                 = (Sampled (fixtures.message "{}"),
                    set_metrics monitoring.IncreaseRequestsReceived
                      (fixtures.process fixtures.full_queue)))
    by (vm_compute; reflexivity).
  assert (Hfull : length (messageQueue (fixtures.process fixtures.full_queue)) = capacity)
    by (vm_compute; reflexivity).
  split; [split; assumption|].
  exact (proj1 (proj2 (@EnqueueMessage_blocks_on_full_queue fixtures.ascii_Unicode
                         fixtures.two_documents fixtures.canonical_UUID
                         (fixtures.manager 100) (fixtures.request "{}") (RandNum 0) 1500
                         _ _ _ Hadm) Hfull)).
Defined.

(** C1, as the claim has it, fails: on a full queue the handler of a
    sampled request does not answer 200, it is parked at the send; the
    message is not dropped (the parked send still holds it) and no counter
    records the full queue (the received requests are counted, as for every
    request). *)
Lemma EnqueueMessage_full_queue_parks :
  EnqueueMessage (fixtures.message "{}") fixtures.full_queue = None
  /\ (@handleValidateResponseMessage fixtures.ascii_Unicode fixtures.two_documents
        fixtures.canonical_UUID (fixtures.manager 100) (fixtures.request "{}") (RandNum 0)
        1500 (fixtures.process fixtures.full_queue)).1
     = Parked (fixtures.message "{}").
Proof. split; vm_compute; reflexivity. Qed.

(** ** The schema validator ([cleanString], [cleanErrors]) *)

Lemma string_app_empty (a b : string) : a +:+ b = EmptyString -> a = EmptyString.
Proof. destruct a; [reflexivity|discriminate]. Qed.

Section cleanErrors_facts.
Import validation.
Context `{!strconv.Strconv}.

(** The loop of [cleanString], once its result is not empty, stays so. *)
Lemma cleanString_step_nonempty (result v : string) :
  result <> EmptyString -> cleanString_step result v <> EmptyString.
Proof.
  intros Hne. unfold cleanString_step.
  destruct (negb (isNumeric v)); [|exact Hne].
  destruct (String.eqb_spec result EmptyString) as [He|_]; [contradiction|].
  intros Habs. apply string_app_empty in Habs. contradiction.
Qed.

(** From a result that is not empty, the loop appends a dot and the piece
    for every piece that is no number. *)
Lemma cleanString_loop_nonempty (pieces : list string) (result : string) :
  result <> EmptyString ->
  fold_left cleanString_step pieces result
  = fold_left (fun acc piece => acc +:+ "." +:+ piece)
              (List.filter (fun piece => negb (isNumeric piece)) pieces) result.
Proof.
  revert result. induction pieces as [|v pieces IH]; intros result Hne; [reflexivity|].
  simpl. rewrite IH by (apply cleanString_step_nonempty; exact Hne).
  unfold cleanString_step.
  destruct (negb (isNumeric v)); [|reflexivity].
  destruct (String.eqb_spec result EmptyString) as [He|_]; [contradiction|]. reflexivity.
Qed.

(** From the empty result, the loop passes over the numbers and the empty
    pieces, and joins the rest. *)
Lemma cleanString_loop (pieces : list string) :
  fold_left cleanString_step pieces EmptyString
  = joinDots (dropLeadingEmpty (List.filter (fun piece => negb (isNumeric piece)) pieces)).
Proof.
  induction pieces as [|v pieces IH]; [reflexivity|].
  simpl. unfold cleanString_step at 2.
  destruct (negb (isNumeric v)) eqn:Hv; simpl.
  - destruct (String.eqb_spec v EmptyString) as [->|Hne]; [exact IH|].
    apply cleanString_loop_nonempty. exact Hne.
  - exact IH.
Qed.

(** What the loop of [cleanErrors] leaves under a field, from any map. *)
Lemma cleanErrors_loop (errors : list ResultError) (acc : gmap string (list string))
    (field : string) :
  fold_left cleanErrors_step errors acc !! field
  = match descriptionsFor errors field with
    | [] => acc !! field
    | ds => Some (default [] (acc !! field) ++ ds)
    end.
Proof.
  revert acc. induction errors as [|desc errors IH]; intros acc; [reflexivity|].
  simpl. rewrite IH. unfold descriptionsFor; simpl. unfold kept at 2, cleanErrors_step.
  destruct (GoStrings.Contains (String_ desc) quoted_if); simpl; [reflexivity|].
  destruct (String.eqb_spec (cleanString (Field desc)) field) as [<-|Hne]; simpl.
  - rewrite lookup_insert_eq; simpl.
    destruct (map _ (List.filter _ errors)) as [|d ds]; [reflexivity|].
    by rewrite <- app_assoc.
  - by rewrite lookup_insert_ne.
Qed.

(** An error of the "if" construct leaves no trace, wherever it stands. *)
Lemma cleanErrors_suppressed (before after : list ResultError) (desc : ResultError) :
  kept desc = false ->
  cleanErrors (before ++ desc :: after) = cleanErrors (before ++ after).
Proof.
  intros Hk. apply map_eq; intros field. unfold cleanErrors.
  rewrite !cleanErrors_loop. unfold descriptionsFor.
  rewrite !List.filter_app; simpl. rewrite Hk; simpl. reflexivity.
Qed.

(** C4, as the code has it.  Under a field, [cleanErrors] holds the cleaned
    descriptions of the errors that are kept (those whose text does not
    mention the "if" construct) and whose cleaned field it is, in their
    order, and no entry where there is none.  Fields and descriptions are
    cleaned alike by [cleanString]: a text without [data] in it is left as
    it is, numeric pieces included; of a text with [data] in it the
    dot-separated pieces that parse as a number are dropped (and empty
    pieces before the first kept one), the others are joined again: the
    [data] token stays. *)
Theorem cleanErrors_spec (errors : list ResultError) :
  (forall field,
     cleanErrors errors !! field
     = match descriptionsFor errors field with
       | [] => None
       | ds => Some ds
       end)
  /\ (forall value,
        cleanString value
        = if GoStrings.Contains value "data"
          then joinDots (dropLeadingEmpty (wordPieces value))
          else value).
Proof.
  split.
  - intros field. unfold cleanErrors. rewrite cleanErrors_loop, lookup_empty. reflexivity.
  - intros value. unfold cleanString, wordPieces.
    destruct (GoStrings.Contains value "data"); simpl; [apply cleanString_loop|reflexivity].
Qed.

End cleanErrors_facts.

(** C4, as the claim has it, fails twice.  The error of the field
    [data.0.name] is filed under [data.name], the [data] token kept, where
    the claim expects [name]; and the field [links.0.href], without [data]
    in it, keeps its index, where the claim expects [links.href]. *)
Lemma cleanErrors_keeps_data_token :
  let errors :=
    [ {| validation.Field := "data.0.name";
         validation.Description := "Invalid type. Expected: string, given: integer";
         validation.String_ := "data.0.name: Invalid type. Expected: string, given: integer" |};
      {| validation.Field := "links.0.href";
         validation.Description := "Does not match format 'uri'";
         validation.String_ := "links.0.href: Does not match format 'uri'" |} ] in
  let cleaned := @validation.cleanErrors fixtures.digits_Strconv errors in
  cleaned !! "data.name" = Some ["Invalid type. Expected: string, given: integer"]
  /\ cleaned !! "name" = None
  /\ @cleanPath_spec fixtures.digits_Strconv "data.0.name" = "name"
  /\ cleaned !! "links.0.href" = Some ["Does not match format 'uri'"]
  /\ cleaned !! "links.href" = None
  /\ @cleanPath_spec fixtures.digits_Strconv "links.0.href" = "links.href".
Proof. cbv zeta. repeat split; vm_compute; reflexivity. Qed.

(** ** The masking of samples ([findAndScrambleAttribute], [scrambleValue]) *)

Lemma get_app (v : json.value) (p1 p2 : list step) :
  get v (p1 ++ p2) = get v p1 ≫= fun v' => get v' p2.
Proof.
  revert v. induction p1 as [|s p1 IH]; intros v; [reflexivity|].
  destruct s as [k|i]; simpl.
  - destruct v; try reflexivity. destruct (m !! k); simpl; [apply IH|reflexivity].
  - destruct v; try reflexivity. destruct (l !! i); simpl; [apply IH|reflexivity].
Qed.

Lemma lookup_map {A B} (f : A -> B) (l : list A) (i : nat) :
  map f l !! i = f <$> l !! i.
Proof.
  revert i. induction l as [|x l IH]; intros [|i]; simpl; try reflexivity. apply IH.
Qed.

(** A mask is no object and no array: there is nothing below it. *)
Lemma get_scrambleValue_below (v : json.value) (s : step) (rest : list step) :
  get (scrambleValue v) (s :: rest) = None.
Proof.
  destruct v as [| | | |str| |]; simpl;
    try (destruct s; reflexivity).
  destruct (2 <? String.length str)%nat; destruct s; reflexivity.
Qed.

Lemma string_app_cons (c : ascii) (s t : string) : String c s +:+ t = String c (s +:+ t).
Proof. reflexivity. Qed.

Lemma length_string_app (s t : string) :
  String.length (s +:+ t) = (String.length s + String.length t)%nat.
Proof.
  induction s as [|c s IH]; [reflexivity|].
  rewrite string_app_cons. simpl. f_equal. exact IH.
Qed.

Lemma Repeat_length (n : nat) : String.length (GoStrings.Repeat "*" n) = n.
Proof.
  induction n as [|n IH]; [reflexivity|].
  simpl. rewrite length_string_app, IH. reflexivity.
Qed.

(** A byte below 128 converts to itself. *)
Lemma string_of_byte_ascii (b : ascii) :
  (N_of_ascii b < 128)%N -> GoStrings.string_of_byte b = String b EmptyString.
Proof.
  intros Hb. unfold GoStrings.string_of_byte; cbv zeta.
  destruct (N.ltb_spec (N_of_ascii b) 128); [reflexivity|lia].
Qed.

Lemma get_string_app (s t : string) (c : ascii) :
  String.get (String.length s) (s +:+ String c t) = Some c.
Proof.
  induction s as [|x s IH]; [reflexivity|].
  rewrite string_app_cons. simpl. exact IH.
Qed.

(** The conversion of a byte has one byte below 128 and two from 128 on. *)
Lemma string_of_byte_length (b : ascii) :
  String.length (GoStrings.string_of_byte b)
  = if (N_of_ascii b <? 128)%N then 1%nat else 2%nat.
Proof.
  unfold GoStrings.string_of_byte; cbv zeta.
  destruct (N_of_ascii b <? 128)%N; reflexivity.
Qed.

(** The mask of a string of more than two bytes that begins and ends with
    an ASCII byte: the first byte, a star for every byte between, the last
    byte. *)
Lemma scrambleValue_ascii_ends (a z : ascii) (mid : string) :
  (N_of_ascii a < 128)%N -> (N_of_ascii z < 128)%N -> mid <> EmptyString ->
  scrambleValue (json.Str (String a (mid +:+ String z EmptyString)))
  = json.Str (String a (GoStrings.Repeat "*" (String.length mid) +:+ String z EmptyString)).
Proof.
  intros Ha Hz Hmid. unfold scrambleValue.
  assert (Hlen : String.length (String a (mid +:+ String z EmptyString))
                 = S (S (String.length mid))).
  { simpl. rewrite length_string_app. simpl. lia. }
  rewrite Hlen.
  assert (Hpos : (0 < String.length mid)%nat) by (destruct mid; [contradiction|simpl; lia]).
  destruct (Nat.ltb_spec 2 (S (S (String.length mid)))); [|lia].
  replace (S (S (String.length mid)) - 2)%nat with (String.length mid) by lia.
  replace (S (S (String.length mid)) - 1)%nat with (S (String.length mid)) by lia.
  unfold GoStrings.byteAt. simpl String.get. rewrite get_string_app. simpl default.
  rewrite !string_of_byte_ascii by assumption. reflexivity.
Qed.

Section masking_facts.
Context `{!GoStrings.Unicode}.
Variable ss : SecuritySettings.

Lemma scrambleNested_Map (m : gmap string json.value) :
  scrambleNested ss (json.Map m) = json.Map (findAndScrambleAttribute ss m).
Proof. reflexivity. Qed.

(** The entry of a key after the walk over its object. *)
Lemma findAndScrambleAttribute_lookup (payload : gmap string json.value) (k : string) :
  findAndScrambleAttribute ss payload !! k
  = (fun v => if HaveToMask ss k then scrambleValue v else scrambleNested ss v)
      <$> payload !! k.
Proof.
  unfold findAndScrambleAttribute. rewrite map_lookup_imap.
  destruct (payload !! k); reflexivity.
Qed.

(** The walk keeps the keys of an object. *)
Lemma findAndScrambleAttribute_dom (payload : gmap string json.value) :
  dom (findAndScrambleAttribute ss payload) = dom payload.
Proof.
  apply set_eq; intros k. rewrite !elem_of_dom, findAndScrambleAttribute_lookup.
  destruct (payload !! k); simpl; split; intros [? ?]; eauto; discriminate.
Qed.

(** Below a key that is not masked the walk goes on: what lies under a key
    of the object that one segment leads to is what the walk over that
    object leaves there. *)
Lemma get_findAndScrambleAttribute_segment (payload : gmap string json.value)
    (sg : segment) (k : string) (rest : list step) :
  HaveToMask ss sg.1 = false ->
  get (json.Map (findAndScrambleAttribute ss payload)) (stepsOf sg ++ Key k :: rest)
  = get (json.Map payload) (stepsOf sg) ≫= fun v =>
      match v with
      | json.Map m => get (json.Map (findAndScrambleAttribute ss m)) (Key k :: rest)
      | _ => None
      end.
Proof.
  intros Hsg. destruct sg as [k0 [i|]]; unfold stepsOf; simpl in *.
  - rewrite findAndScrambleAttribute_lookup, Hsg.
    destruct (payload !! k0) as [v0|]; simpl; [|reflexivity].
    destruct v0 as [| | | | |l|m0]; simpl; try reflexivity.
    rewrite lookup_map. destruct (l !! i) as [item|]; simpl; [|reflexivity].
    destruct item; reflexivity.
  - rewrite findAndScrambleAttribute_lookup, Hsg.
    destruct (payload !! k0) as [v0|]; simpl; [|reflexivity].
    destruct v0; reflexivity.
Qed.

Lemma get_findAndScrambleAttribute_walk (segs : list segment)
    (payload : gmap string json.value) (k : string) (rest : list step) :
  unmasked ss segs ->
  get (json.Map (findAndScrambleAttribute ss payload)) (steps segs ++ Key k :: rest)
  = get (json.Map payload) (steps segs) ≫= fun v =>
      match v with
      | json.Map m => get (json.Map (findAndScrambleAttribute ss m)) (Key k :: rest)
      | _ => None
      end.
Proof.
  revert payload. induction segs as [|sg segs IH]; intros payload Hun; [reflexivity|].
  apply Forall_cons in Hun as [Hsg Hun].
  unfold steps; simpl; fold (steps segs). rewrite <- app_assoc.
  assert (Hnext : exists k' rest', steps segs ++ Key k :: rest = Key k' :: rest').
  { destruct segs as [|[k1 [i1|]] segs']; simpl; eauto. }
  destruct Hnext as (k' & rest' & Hnext). rewrite Hnext.
  rewrite get_findAndScrambleAttribute_segment by exact Hsg.
  rewrite <- Hnext. rewrite (get_app _ (stepsOf sg) (steps segs)).
  destruct (get (json.Map payload) (stepsOf sg)) as [v|]; [|reflexivity].
  destruct v as [| | | | | |m];
    try (destruct segs as [|[k1 [i1|]] segs']; reflexivity).
  exact (IH m Hun).
Qed.

(** Take a way down the payload through nested objects and arrays of
    objects on which no key is masked, and a key [k] of the object it leads
    to.  If [k] is to be masked, the returned payload holds under [k] the
    mask of the value the payload had there, and nothing below it.  If [k]
    is not to be masked and holds an array, an item of the array that is no
    object is as it was.  The mask of a string longer than 2 that begins
    and ends with an ASCII byte is its first byte, a star for every byte
    between and its last byte; of a string of 2 bytes or less, a star per
    byte; of a number 0; of a boolean false; of anything else ten stars. *)
Lemma findAndScrambleAttribute_masks (payload : gmap string json.value)
    (segs : list segment) (k : string) :
  unmasked ss segs ->
  (HaveToMask ss k = true ->
   get (json.Map (findAndScrambleAttribute ss payload)) (steps segs ++ [Key k])
   = scrambleValue <$> get (json.Map payload) (steps segs ++ [Key k])
   /\ forall s rest,
        get (json.Map (findAndScrambleAttribute ss payload)) (steps segs ++ Key k :: s :: rest)
        = None)
  /\ (HaveToMask ss k = false ->
      forall i v,
        get (json.Map payload) (steps segs ++ [Key k; Index i]) = Some v ->
        (forall m, v <> json.Map m) ->
        get (json.Map (findAndScrambleAttribute ss payload)) (steps segs ++ [Key k; Index i])
        = Some v)
  /\ (forall a z mid,
        (N_of_ascii a < 128)%N -> (N_of_ascii z < 128)%N -> mid <> EmptyString ->
        scrambleValue (json.Str (String a (mid +:+ String z EmptyString)))
        = json.Str (String a (GoStrings.Repeat "*" (String.length mid)
                              +:+ String z EmptyString)))
  /\ (forall s, (String.length s <= 2)%nat ->
        scrambleValue (json.Str s) = json.Str (GoStrings.Repeat "*" (String.length s)))
  /\ (forall bits, scrambleValue (json.Float64 bits) = json.Int 0)
  /\ (forall n, scrambleValue (json.Int n) = json.Int 0)
  /\ (forall b, scrambleValue (json.Bool b) = json.Bool false)
  /\ scrambleValue json.Nil = json.Str "**********"
  /\ (forall l, scrambleValue (json.Slice l) = json.Str "**********")
  /\ (forall m, scrambleValue (json.Map m) = json.Str "**********").
Proof.
  intros Hun. split; [|split].
  - intros Hk. split.
    + rewrite (get_findAndScrambleAttribute_walk _ _ _ _ Hun), get_app.
      destruct (get (json.Map payload) (steps segs)) as [v|]; simpl; [|reflexivity].
      destruct v as [| | | | | |m]; simpl; try reflexivity.
      rewrite findAndScrambleAttribute_lookup, Hk.
      destruct (m !! k); reflexivity.
    + intros s rest. rewrite (get_findAndScrambleAttribute_walk _ _ _ _ Hun).
      destruct (get (json.Map payload) (steps segs)) as [v|]; simpl; [|reflexivity].
      destruct v as [| | | | | |m]; simpl; try reflexivity.
      rewrite findAndScrambleAttribute_lookup, Hk.
      destruct (m !! k) as [v|]; simpl; [|reflexivity].
      apply get_scrambleValue_below.
  - intros Hk i v Hin Hnot.
    rewrite (get_findAndScrambleAttribute_walk _ _ _ _ Hun).
    rewrite get_app in Hin.
    destruct (get (json.Map payload) (steps segs)) as [v0|]; simpl in *; [|discriminate].
    destruct v0 as [| | | | | |m]; simpl in *; try discriminate.
    rewrite findAndScrambleAttribute_lookup, Hk.
    destruct (m !! k) as [v1|]; simpl in *; [|discriminate].
    destruct v1 as [| | | | |l|m1]; simpl in *; try discriminate.
    rewrite lookup_map. destruct (l !! i) as [item|]; simpl in *; [|discriminate].
    injection Hin as ->. destruct v; try reflexivity. exfalso. by eapply Hnot.
  - split; [exact scrambleValue_ascii_ends|].
    repeat split; try reflexivity.
    intros s Hlen. simpl.
    destruct (Nat.ltb_spec 2 (String.length s)); [lia|reflexivity].
Qed.

(** C5.  Below a key to mask, at the end of a way on which no key is
    masked, the payload holds a string of more than two bytes whose first
    or last byte is 128 or more: a byte of a character outside ASCII.  The
    mask the walk leaves there is not the first byte, a star for every byte
    between and the last byte: the conversion of a byte from 128 on is the
    two bytes of the character of that number, so the mask is one byte
    longer than the string for each such end, and ends (or begins) with a
    character the string does not have. *)
Theorem findAndScrambleAttribute_non_ascii_end (payload : gmap string json.value)
    (segs : list segment) (k : string) (s : string) :
  unmasked ss segs ->
  HaveToMask ss k = true ->
  get (json.Map payload) (steps segs ++ [Key k]) = Some (json.Str s) ->
  (2 < String.length s)%nat ->
  (128 <= N_of_ascii (GoStrings.byteAt s 0)
   \/ 128 <= N_of_ascii (GoStrings.byteAt s (String.length s - 1)))%N ->
  exists mask,
    get (json.Map (findAndScrambleAttribute ss payload)) (steps segs ++ [Key k])
    = Some (json.Str mask)
    /\ mask = (GoStrings.string_of_byte (GoStrings.byteAt s 0)
               +:+ GoStrings.Repeat "*" (String.length s - 2)
               +:+ GoStrings.string_of_byte (GoStrings.byteAt s (String.length s - 1)))
    /\ mask <> firstStarsLast s
    /\ String.length (firstStarsLast s) = String.length s
    /\ String.length mask
       = (String.length s
          + (if (N_of_ascii (GoStrings.byteAt s 0) <? 128)%N then 0 else 1)
          + (if (N_of_ascii (GoStrings.byteAt s (String.length s - 1)) <? 128)%N
             then 0 else 1))%nat.
Proof.
  intros Hun Hk Hget Hlen Hend.
  destruct (findAndScrambleAttribute_masks payload segs k Hun) as [Hmasked _].
  destruct (Hmasked Hk) as [Hwalked _]. rewrite Hget in Hwalked. simpl in Hwalked.
  destruct (Nat.ltb_spec 2 (String.length s)) as [_|]; [|lia].
  eexists. split; [exact Hwalked|]. split; [reflexivity|].
  assert (Hspec : String.length (firstStarsLast s) = String.length s).
  { unfold firstStarsLast. simpl. rewrite length_string_app, Repeat_length. simpl. lia. }
  assert (Hcode : String.length
                    (GoStrings.string_of_byte (GoStrings.byteAt s 0)
                     +:+ GoStrings.Repeat "*" (String.length s - 2)
                     +:+ GoStrings.string_of_byte (GoStrings.byteAt s (String.length s - 1)))
                  = (String.length s
                     + (if (N_of_ascii (GoStrings.byteAt s 0) <? 128)%N then 0 else 1)
                     + (if (N_of_ascii (GoStrings.byteAt s (String.length s - 1)) <? 128)%N
                        then 0 else 1))%nat).
  { rewrite !length_string_app, Repeat_length. rewrite !string_of_byte_length.
    destruct (N_of_ascii (GoStrings.byteAt s 0) <? 128)%N;
      destruct (N_of_ascii (GoStrings.byteAt s (String.length s - 1)) <? 128)%N; lia. }
  split; [|split; [exact Hspec|exact Hcode]].
  intros Heq. rewrite Heq, Hspec in Hcode.
  destruct (N.ltb_spec (N_of_ascii (GoStrings.byteAt s 0)) 128);
    destruct (N.ltb_spec (N_of_ascii (GoStrings.byteAt s (String.length s - 1))) 128);
    lia.
Qed.

End masking_facts.

(** The catalog masks [cpf]; the payload has an object with a [cpf] in the
    array under [data]: after the walk the [cpf] of that object is masked,
    its tags are as they were. *)
Lemma findAndScrambleAttribute_masks_cpf :
  let ss := {| AttributesToMask := ["cpf"; "companyCnpj"] |} in
  let walked := @findAndScrambleAttribute fixtures.ascii_Unicode ss fixtures.accounts_payload in
  (@unmasked fixtures.ascii_Unicode ss [("data", Some O)]
   /\ @HaveToMask fixtures.ascii_Unicode ss "cpf" = true)
  /\ get (json.Map fixtures.accounts_payload) [Key "data"; Index 0; Key "cpf"]
     = Some (json.Str "12345678901")
  /\ get (json.Map walked) [Key "data"; Index 0; Key "cpf"] = Some (json.Str "1*********1")
  /\ get (json.Map walked) [Key "data"; Index 0; Key "tags"; Index 0] = Some (json.Str "vip").
Proof.
  cbv zeta.
  assert (Hun : @unmasked fixtures.ascii_Unicode {| AttributesToMask := ["cpf"; "companyCnpj"] |}
                  [("data", Some O)])
    by (repeat constructor).
  assert (Hk : @HaveToMask fixtures.ascii_Unicode {| AttributesToMask := ["cpf"; "companyCnpj"] |}
                 "cpf" = true) by reflexivity.
  split; [split; [exact Hun|exact Hk]|].
  pose proof (proj1 (proj1 (@findAndScrambleAttribute_masks fixtures.ascii_Unicode
                              {| AttributesToMask := ["cpf"; "companyCnpj"] |}
                              fixtures.accounts_payload [("data", Some O)] "cpf" Hun) Hk))
    as Hmasked.
  split; [vm_compute; reflexivity|].
  split; [refine (eq_trans Hmasked _); vm_compute; reflexivity|].
  vm_compute; reflexivity.
Qed.

(** The catalog masks [name]; the name in the payload ends with the two
    bytes 195 and 169 of its accented letter.  The mask has the letter J,
    three stars, and the two bytes 194 and 169 of the copyright sign: six
    bytes for the five of the name, and none of them the last two. *)
Lemma findAndScrambleAttribute_non_ascii_end_witness :
  let ss := {| AttributesToMask := ["name"] |} in
  let walked := @findAndScrambleAttribute fixtures.ascii_Unicode ss fixtures.accented_payload in
  (@unmasked fixtures.ascii_Unicode ss [("data", Some O)]
   /\ @HaveToMask fixtures.ascii_Unicode ss "name" = true
   /\ get (json.Map fixtures.accented_payload) [Key "data"; Index 0; Key "name"]
      = Some (json.Str fixtures.accented_name)
   /\ (2 < String.length fixtures.accented_name)%nat
   /\ (128 <= N_of_ascii (GoStrings.byteAt fixtures.accented_name
                            (String.length fixtures.accented_name - 1)))%N)
  /\ get (json.Map walked) [Key "data"; Index 0; Key "name"]
     = Some (json.Str ("J***" +:+ String "194"%char (String "169"%char EmptyString)))
  /\ firstStarsLast fixtures.accented_name = "J***" +:+ String "169"%char EmptyString.
Proof.
  cbv zeta.
  assert (Hun : @unmasked fixtures.ascii_Unicode {| AttributesToMask := ["name"] |}
                  [("data", Some O)])
    by (repeat constructor).
  assert (Hk : @HaveToMask fixtures.ascii_Unicode {| AttributesToMask := ["name"] |}
                 "name" = true) by reflexivity.
  assert (Hget : get (json.Map fixtures.accented_payload) [Key "data"; Index 0; Key "name"]
                 = Some (json.Str fixtures.accented_name)) by (vm_compute; reflexivity).
  assert (Hlen : (2 < String.length fixtures.accented_name)%nat) by (vm_compute; lia).
  assert (Hend : (128 <= N_of_ascii (GoStrings.byteAt fixtures.accented_name
                                       (String.length fixtures.accented_name - 1)))%N)
    by (vm_compute; discriminate).
  split; [repeat split; assumption|].
  destruct (@findAndScrambleAttribute_non_ascii_end fixtures.ascii_Unicode
              {| AttributesToMask := ["name"] |} fixtures.accented_payload
              [("data", Some O)] "name" fixtures.accented_name Hun Hk Hget Hlen
              (or_intror Hend))
    as (mask & Hwalked & Hmask & _).
  split; [|vm_compute; reflexivity].
  refine (eq_trans Hwalked _). rewrite Hmask. vm_compute. reflexivity.
Defined.

(** ** The worker ([processMessage]) *)

Section worker_facts.
Context `{!GoStrings.Unicode} `{!json.Decoder} `{!strconv.Strconv} `{!validation.SchemaEngine}.

(** An error of the decoder or of the engine is the error of
    [validateMessage]. *)
Lemma validateMessage_error (msg : Message) (settings : APIEndpointSetting) (err : error) :
  engineError msg (JSONBodySchema settings) err ->
  exists vr, validateMessage msg settings = (vr, Some err).
Proof.
  unfold validateMessage, validateContentWithSchema; cbv zeta.
  intros [Hdec|(doc & Hdec & Hschema & Heng)]; rewrite Hdec; [eauto|].
  unfold validation.Validate.
  destruct (String.eqb_spec (JSONBodySchema settings) EmptyString) as [He|_];
    [contradiction|].
  rewrite Heng. eauto.
Qed.

(** The result [processMessage] makes for a message whose endpoint
    resolves, and what it does with it. *)
Lemma processMessage_resolved (cm : ConfigurationManager) (msg : Message) (p : Process)
    (vs : APIValidationSettings) :
  GetEndpointSettingFromAPI cm (msg_Endpoint msg) = Some vs ->
  let vr := validateMessage msg (EndpointSettings vs) in
  let mr :=
    {| mr_TransmitterID := msg_TransmitterID msg;
       mr_Endpoint := msg_Endpoint msg;
       mr_HTTPMethod := msg_HTTPMethod msg;
       mr_Result := match vr.2 with Some _ => false | None => validation.Valid vr.1 end;
       mr_ServerID := msg_ServerID msg;
       mr_Errors := match vr.2 with
                    | Some err => {[ "(error)" := [err] ]}
                    | None => validation.Errors vr.1
                    end;
       mr_XFapiInteractionID := resultIdentifier msg |} in
  processMessage cm msg p
  = match AppendResult
            (configuration.OrganisationID
               (configuration.s_ApplicationSettings (cm_settings cm))) mr (aggregator p) with
    | inl runtimePanic => inl runtimePanic
    | inr appended =>
        inr (set_validatedValues (increment (msg_Endpoint msg) (validatedValues p))
               (set_localResults (lrm_AppendResult cm msg mr vs)
                  (set_aggregator (fun _ => appended)
                     (set_metrics (monitoring.IncreaseValidationResult (msg_ServerID msg)
                                     (msg_Endpoint msg) (mr_Result mr))
                        (set_receivedValues
                           (increment (msg_Endpoint msg) (receivedValues p)) p)))))
    end.
Proof.
  intros Hres. cbv zeta. unfold processMessage; cbv zeta. rewrite Hres.
  unfold resultIdentifier.
  destruct (validateMessage msg (EndpointSettings vs)) as [vr [err|]]; simpl;
    destruct (String.eqb (msg_ConsentID msg) EmptyString); reflexivity.
Qed.

(** The queue is nothing to [processMessage]. *)
Lemma processMessage_set_messageQueue (cm : ConfigurationManager) (msg : Message)
    (q : list Message) (p : Process) :
  processMessage cm msg (set_messageQueue q p)
  = match processMessage cm msg p with
    | inl runtimePanic => inl runtimePanic
    | inr p' => inr (set_messageQueue q p')
    end.
Proof.
  unfold processMessage; cbv zeta.
  destruct (GetEndpointSettingFromAPI cm (msg_Endpoint msg)); [|reflexivity].
  destruct (validateMessage msg _) as [vr [err|]]; simpl;
    match goal with
    | |- context [AppendResult ?o ?r ?a] => destruct (AppendResult o r a)
    end; reflexivity.
Qed.

Lemma processMessage_messageQueue (cm : ConfigurationManager) (msg : Message)
    (p p' : Process) :
  processMessage cm msg p = inr p' -> messageQueue p' = messageQueue p.
Proof.
  unfold processMessage; cbv zeta.
  destruct (GetEndpointSettingFromAPI cm (msg_Endpoint msg)); [|by intros [= <-]].
  destruct (validateMessage msg _) as [vr [err|]]; simpl;
    match goal with
    | |- context [AppendResult ?o ?r ?a] => destruct (AppendResult o r a)
    end; try discriminate; by intros [= <-].
Qed.

(** [processMessage] returns when the entry of the transmitter of the
    message is none with a nil map; a message whose endpoint resolves ends
    it with the panic of [AppendResult] otherwise. *)
Lemma processMessage_returns (cm : ConfigurationManager) (msg : Message) (p : Process) :
  resultsMade (aggregator p) (transmitterOf cm msg) ->
  exists p', processMessage cm msg p = inr p'.
Proof.
  intros Hmade.
  destruct (GetEndpointSettingFromAPI cm (msg_Endpoint msg)) as [vs|] eqn:Hres.
  - rewrite (processMessage_resolved cm msg p vs Hres); cbv zeta.
    match goal with
    | |- context [AppendResult ?o ?r ?a] =>
        destruct (proj1 (AppendResult_returns o r a) Hmade) as [a' ->]
    end. eauto.
  - unfold processMessage; cbv zeta. rewrite Hres. eauto.
Qed.

Lemma processMessage_panics (cm : ConfigurationManager) (msg : Message) (p : Process)
    (vs : APIValidationSettings) :
  GetEndpointSettingFromAPI cm (msg_Endpoint msg) = Some vs ->
  ~ resultsMade (aggregator p) (transmitterOf cm msg) ->
  processMessage cm msg p = inl (configuration.Panic "assignment to entry in nil map").
Proof.
  intros Hres Hnone. rewrite (processMessage_resolved cm msg p vs Hres); cbv zeta.
  match goal with
  | |- context [AppendResult ?o ?r ?a] =>
      rewrite (proj1 (AppendResult_panics o r a) Hnone)
  end. reflexivity.
Qed.

(** [processMessage] leaves no entry with a nil map where there was none. *)
Lemma processMessage_allResultsMade (cm : ConfigurationManager) (msg : Message)
    (p p' : Process) :
  processMessage cm msg p = inr p' ->
  allResultsMade (aggregator p) -> allResultsMade (aggregator p').
Proof.
  intros Hrun Hall.
  destruct (GetEndpointSettingFromAPI cm (msg_Endpoint msg)) as [vs|] eqn:Hres.
  - rewrite (processMessage_resolved cm msg p vs Hres) in Hrun; cbv zeta in Hrun.
    match type of Hrun with
    | context [AppendResult ?o ?r ?a] => destruct (AppendResult o r a) as [e|a'] eqn:Happ
    end; [discriminate|].
    injection Hrun as <-. simpl. exact (AppendResult_allResultsMade _ _ _ _ Happ Hall).
  - unfold processMessage in Hrun; cbv zeta in Hrun. rewrite Hres in Hrun.
    by injection Hrun as <-.
Qed.


End worker_facts.



(** ** The configuration manager ([updateValidationSettings]) *)

Lemma findGroup_Some (l : list APIGroupSetting) (name : string) (g : APIGroupSetting) :
  findGroup l name = Some g -> g ∈ l /\ Group g = name.
Proof.
  induction l as [|x l IH]; simpl; [discriminate|].
  destruct (String.eqb_spec (Group x) name) as [He|Hne].
  - intros [= <-]. split; [apply list_elem_of_here|exact He].
  - intros H. destruct (IH H) as [Hin Hg]. split; [by apply list_elem_of_further|exact Hg].
Qed.

Lemma findGroup_unique (l : list APIGroupSetting) (g : APIGroupSetting) :
  NoDup (map Group l) -> g ∈ l -> findGroup l (Group g) = Some g.
Proof.
  induction l as [|x l IH]; simpl; intros Hnd Hin; [by apply elem_of_nil in Hin|].
  apply NoDup_cons in Hnd as [Hx Hnd].
  apply elem_of_cons in Hin as [->|Hin].
  - by rewrite String.eqb_refl.
  - destruct (String.eqb_spec (Group x) (Group g)) as [He|_]; [|by apply IH].
    exfalso. apply Hx. rewrite He. apply list_elem_of_In, in_map, list_elem_of_In, Hin.
Qed.

Lemma findAPI_Some (l : list APISetting) (name : string) (a : APISetting) :
  findAPI l name = Some a -> a ∈ l /\ API a = name.
Proof.
  induction l as [|x l IH]; simpl; [discriminate|].
  destruct (String.eqb_spec (API x) name) as [He|Hne].
  - intros [= <-]. split; [apply list_elem_of_here|exact He].
  - intros H. destruct (IH H) as [Hin Hg]. split; [by apply list_elem_of_further|exact Hg].
Qed.

Lemma findAPI_unique (l : list APISetting) (a : APISetting) :
  NoDup (map API l) -> a ∈ l -> findAPI l (API a) = Some a.
Proof.
  induction l as [|x l IH]; simpl; intros Hnd Hin; [by apply elem_of_nil in Hin|].
  apply NoDup_cons in Hnd as [Hx Hnd].
  apply elem_of_cons in Hin as [->|Hin].
  - by rewrite String.eqb_refl.
  - destruct (String.eqb_spec (API x) (API a)) as [He|_]; [|by apply IH].
    exfalso. apply Hx. rewrite He. apply list_elem_of_In, in_map, list_elem_of_In, Hin.
Qed.

(** With names that identify, the lookups of the update find the API of
    both catalogs, and the test of the update is the test of the claim. *)
Lemma needsFetch_carriedForward (old : ConfigurationSettings) (newSet : APIGroupSetting)
    (newAPI : APISetting) :
  uniqueNames old ->
  needsFetch old newSet newAPI = false <-> carriedForward old newSet newAPI.
Proof.
  intros [Hgroups Hapis]. unfold needsFetch, GetGroupSetting, GetAPISetting. split.
  - destruct (findGroup _ _) as [oldSet|] eqn:Hg; [|discriminate].
    destruct (findAPI _ _) as [oldAPI|] eqn:Ha; [|discriminate].
    intros Hv. apply negb_false_iff, String.eqb_eq in Hv.
    apply findGroup_Some in Hg as [Hgin Hgname]. apply findAPI_Some in Ha as [Hain Haname].
    exists oldAPI. split; [|exact Hv]. exists oldSet. auto.
  - intros (oldAPI & (oldSet & Hgin & Hgname & Hain & Haname) & Hv).
    fold (groupsOf old). rewrite <- Hgname, (findGroup_unique _ _ Hgroups Hgin).
    rewrite <- Haname, findAPI_unique; [|by eapply Forall_forall in Hapis|exact Hain].
    apply negb_false_iff, String.eqb_eq. exact Hv.
Qed.

Section update_facts.
Context `{!ReportServer} `{!json.Decoder}.

(** A fetch asks for one file, whatever comes of it. *)
Lemma getAPIConfigurationFile_fetched (basePath apiPath apiVersion : string) (w : Fetch) :
  fetched (getAPIConfigurationFile basePath apiPath apiVersion w).2
  = fetched w ++ [apiConfigurationFileName basePath apiPath apiVersion].
Proof.
  unfold getAPIConfigurationFile; cbv zeta.
  destruct (LoadAPIConfigurationFile _ _) as [err|file]; [reflexivity|].
  destruct (json.Unmarshal_endpoints file) as [err|[result|]]; reflexivity.
Qed.

Lemma loadAPI_spec (newSet : APIGroupSetting) (newAPI : APISetting) (w : Fetch) :
  fetched (loadAPI newSet newAPI w).2 = fetched w ++ [fileNameOf newSet newAPI]
  /\ forall api', (loadAPI newSet newAPI w).1 = inr api' ->
       exists epList, api' = set_EndpointList epList newAPI.
Proof.
  unfold loadAPI, bind, ret.
  pose proof (getAPIConfigurationFile_fetched (grp_BasePath newSet) (api_BasePath newAPI)
                (Version newAPI) w) as Hf.
  destruct (getAPIConfigurationFile _ _ _ w) as [[err|epList] w']; simpl in *.
  - split; [exact Hf|discriminate].
  - split; [exact Hf|]. intros api' [= <-]. eauto.
Qed.

(** One round of the loop over the APIs of a group that the old catalog
    has: the requests it adds, and the API it leaves. *)
Lemma updateAPI_spec (old : ConfigurationSettings) (oldSet newSet : APIGroupSetting)
    (newAPI : APISetting) (w : Fetch) :
  GetGroupSetting (cs_ValidationSettings old) (Group newSet) = Some oldSet ->
  fetched (updateAPI oldSet newSet newAPI w).2
  = fetched w ++ (if needsFetch old newSet newAPI then [fileNameOf newSet newAPI] else [])
  /\ forall api', (updateAPI oldSet newSet newAPI w).1 = inr api' ->
       (exists epList, api' = set_EndpointList epList newAPI)
       /\ forall oldAPI, GetAPISetting oldSet (API newAPI) = Some oldAPI ->
            Version oldAPI = Version newAPI ->
            api' = set_EndpointList (EndpointList oldAPI) newAPI.
Proof.
  intros Hg. unfold updateAPI, needsFetch. rewrite Hg.
  destruct (GetAPISetting oldSet (API newAPI)) as [oldAPI|].
  - destruct (String.eqb_spec (Version oldAPI) (Version newAPI)) as [Hv|Hv]; simpl.
    + rewrite app_nil_r. split; [reflexivity|].
      intros api' [= <-]. split; [eauto|]. intros oldAPI' [= <-] _. reflexivity.
    + destruct (loadAPI_spec newSet newAPI w) as [Hf Hr]. split; [exact Hf|].
      intros api' Hrun. split; [by apply Hr|]. intros oldAPI' [= <-] Hv'. contradiction.
  - destruct (loadAPI_spec newSet newAPI w) as [Hf Hr]. split; [exact Hf|].
    intros api' Hrun. split; [by apply Hr|]. discriminate.
Qed.

(** A range loop that ends without error has run every round: round by
    round, the requests add up and each element has its result. *)
Lemma forEach_spec {A B} (f : A -> M B) (tr : A -> list string) (P : A -> B -> Prop)
    (l : list A) :
  (forall a w b w1, a ∈ l -> f a w = (inr b, w1) ->
     fetched w1 = fetched w ++ tr a /\ P a b) ->
  forall w bs w',
    forEach f l w = (inr bs, w') ->
    fetched w' = fetched w ++ concat (map tr l) /\ Forall2 P l bs.
Proof.
  induction l as [|a l IH]; intros Hf w bs w'; simpl.
  - unfold ret. intros [= <- <-]. rewrite app_nil_r. split; [reflexivity|constructor].
  - unfold bind at 1.
    destruct (f a w) as [[err|b] w1] eqn:Hfa; [discriminate|].
    destruct (Hf a w b w1 ltac:(apply list_elem_of_here) Hfa) as [Htr HP].
    unfold bind at 1.
    destruct (forEach f l w1) as [[err|bs'] w2] eqn:Hrest; [discriminate|].
    unfold ret. intros [= <- <-].
    destruct (IH (fun a' w0 b' w0' Hin => Hf a' w0 b' w0' ltac:(by apply list_elem_of_further))
                _ _ _ Hrest) as [Htr' HP'].
    split.
    + rewrite Htr', Htr, <- app_assoc. reflexivity.
    + constructor; [exact HP|exact HP'].
Qed.

(** A range loop, however it ends, has sent requests of its rounds only, in
    their order: all of a round that ends without error, and of the round
    that ends with an error its requests so far. *)
Lemma forEach_prefix {A B} (f : A -> M B) (tr : A -> list string) (l : list A) :
  (forall a w, a ∈ l -> sentWithin (f a w) w (tr a)) ->
  forall w, sentWithin (forEach f l w) w (concat (map tr l)).
Proof.
  induction l as [|a l IH]; intros Hf w.
  - exists []. simpl. rewrite app_nil_r.
    split; [reflexivity|]. split; [apply prefix_nil|reflexivity].
  - destruct (Hf a w ltac:(apply list_elem_of_here)) as (t & Ht & Hpre & Hall).
    simpl. unfold bind at 1.
    destruct (f a w) as [[err|b] w1] eqn:Hfa; simpl in *.
    + exists t. simpl. split; [exact Ht|]. split; [by apply prefix_app_r|].
      intros bs Hbs. discriminate Hbs.
    + rewrite (Hall b eq_refl) in Ht.
      destruct (IH (fun a' w0 Hin => Hf a' w0 ltac:(by apply list_elem_of_further)) w1)
        as (t' & Ht' & Hpre' & Hall').
      unfold bind at 1.
      destruct (forEach f l w1) as [[err|bs'] w2] eqn:Hrest; simpl in *.
      * exists (tr a ++ t'). simpl. rewrite Ht', Ht, <- app_assoc.
        split; [reflexivity|]. split; [by apply prefix_app|].
        intros bs Hbs. discriminate Hbs.
      * exists (tr a ++ t'). simpl. rewrite Ht', Ht, <- app_assoc.
        split; [reflexivity|]. split; [by apply prefix_app|].
        intros bs _. by rewrite (Hall' bs' eq_refl).
Qed.

Lemma needsFetch_no_group (old : ConfigurationSettings) (newSet : APIGroupSetting)
    (newAPI : APISetting) :
  GetGroupSetting (cs_ValidationSettings old) (Group newSet) = None ->
  needsFetch old newSet newAPI = true.
Proof. intros Hg. unfold needsFetch. by rewrite Hg. Qed.

Lemma updateGroup_spec (old : ConfigurationSettings) (newSet g' : APIGroupSetting)
    (w w' : Fetch) :
  updateGroup (Some old) newSet w = (inr g', w') ->
  fetched w' = fetched w ++ fetchesOfGroup old newSet /\ updatedGroup old newSet g'.
Proof.
  unfold updateGroup, fetchesOfGroup, updatedGroup.
  destruct (GetGroupSetting (cs_ValidationSettings old) (Group newSet)) as [oldSet|] eqn:Hg.
  - unfold bind at 1.
    destruct (forEach (updateAPI oldSet newSet) (APIList newSet) w) as [[err|apis] w1] eqn:Hrun;
      [discriminate|].
    unfold ret. intros [= <- <-]. simpl.
    eapply (forEach_spec _ _ (updatedAPI old newSet)); [|exact Hrun].
    intros a w0 b w0' _ Hb. destruct (updateAPI_spec old oldSet newSet a w0 Hg) as [Hf Hr].
    rewrite Hb in Hf, Hr. split; [exact Hf|]. destruct (Hr b eq_refl) as [Hex Hold].
    split; [exact Hex|]. intros oldSet' oldAPI Hg' Ha Hv.
    rewrite Hg in Hg'. injection Hg' as <-. by apply Hold.
  - unfold bind at 1.
    destruct (forEach (loadAPI newSet) (APIList newSet) w) as [[err|apis] w1] eqn:Hrun;
      [discriminate|].
    unfold ret. intros [= <- <-]. simpl.
    eapply (forEach_spec _ _ (updatedAPI old newSet)); [|exact Hrun].
    intros a w0 b w0' _ Hb. destruct (loadAPI_spec newSet a w0) as [Hf Hr].
    rewrite Hb in Hf, Hr. rewrite (needsFetch_no_group _ _ _ Hg). split; [exact Hf|].
    split; [by apply Hr|]. intros oldSet' oldAPI Hg'. congruence.
Qed.


(** However the update ends, the files it has requested are files of APIs
    that are not carried forward, in the order of the catalog. *)
Lemma updateValidationSettings_fetches (old newSettings : ConfigurationSettings) (w : Fetch) :
  sentWithin (updateValidationSettings (Some old) newSettings w) w (fetchesOf old newSettings).
Proof.
  assert (Hapi : forall newSet oldSet,
            GetGroupSetting (cs_ValidationSettings old) (Group newSet) = Some oldSet ->
            forall a w0, a ∈ APIList newSet ->
            sentWithin (updateAPI oldSet newSet a w0) w0
              (if needsFetch old newSet a then [fileNameOf newSet a] else [])).
  { intros newSet oldSet Hg a w0 _. eexists. split; [by apply updateAPI_spec|]. auto. }
  assert (Hload : forall newSet,
            GetGroupSetting (cs_ValidationSettings old) (Group newSet) = None ->
            forall a w0, a ∈ APIList newSet ->
            sentWithin (loadAPI newSet a w0) w0
              (if needsFetch old newSet a then [fileNameOf newSet a] else [])).
  { intros newSet Hg a w0 _. rewrite (needsFetch_no_group _ _ _ Hg).
    eexists. split; [by apply loadAPI_spec|]. auto. }
  assert (Hgroup : forall newSet w0, newSet ∈ groupsOf newSettings ->
            sentWithin (updateGroup (Some old) newSet w0) w0 (fetchesOfGroup old newSet)).
  { intros newSet w0 _. unfold updateGroup, fetchesOfGroup.
    destruct (GetGroupSetting (cs_ValidationSettings old) (Group newSet)) as [oldSet|] eqn:Hg.
    - destruct (forEach_prefix _ _ _ (Hapi newSet oldSet Hg) w0) as (t & Ht & Hpre & Hall).
      exists t. unfold bind at 1 2.
      destruct (forEach _ _ w0) as [[err|apis] w1]; simpl in *.
      + split; [exact Ht|]. split; [exact Hpre|]. intros b Hb. discriminate Hb.
      + split; [exact Ht|]. split; [exact Hpre|]. intros _ _. by eapply Hall.
    - destruct (forEach_prefix _ _ _ (Hload newSet Hg) w0) as (t & Ht & Hpre & Hall).
      exists t. unfold bind at 1 2.
      destruct (forEach _ _ w0) as [[err|apis] w1]; simpl in *.
      + split; [exact Ht|]. split; [exact Hpre|]. intros b Hb. discriminate Hb.
      + split; [exact Ht|]. split; [exact Hpre|]. intros _ _. by eapply Hall. }
  destruct (forEach_prefix _ _ _ Hgroup w) as (t & Ht & Hpre & Hall).
  exists t. unfold updateValidationSettings, bind at 1 2.
  fold (groupsOf newSettings).
  destruct (forEach _ _ w) as [[err|groups] w1]; simpl in *.
  - split; [exact Ht|]. split; [exact Hpre|]. intros b Hb. discriminate Hb.
  - split; [exact Ht|]. split; [exact Hpre|]. intros _ _. by eapply Hall.
Qed.

End update_facts.


(** ** The sampling gate: the rates at their ends *)

(** X1.  For an endpoint of a known class, the gate admits a request
    exactly when the number drawn is below the rate of the class: a rate
    of zero or less admits no request, a rate above 100 admits every
    request.  When the random source fails, [getRandomNumber] answers 100
    and the gate drops the request unless the rate is above 100. *)
Theorem mustValidate_rate_extremes (cm : ConfigurationManager) (es : APIEndpointSetting)
    (drawn : rand_Int) (rate : Z) :
  rateOf (cs_ValidationSettings (cm_ConfigurationSettings cm)) (Throughput es) = Some rate ->
  rand_Int_below 101 drawn ->
  (mustValidate cm es drawn = true <-> getRandomNumber drawn < rate)
  /\ (rate <= 0 -> mustValidate cm es drawn = false)
  /\ (100 < rate -> mustValidate cm es drawn = true)
  /\ (forall err, mustValidate cm es (RandErr err) = (100 <? rate)).
Proof.
  intros Hrate Hdraw. rewrite !(mustValidate_known_class _ _ _ _ Hrate).
  pose proof (getRandomNumber_range _ Hdraw) as Hrange.
  split; [apply Z.ltb_lt|].
  split; [intros Hr; apply Z.ltb_ge; lia|].
  split; [intros Hr; apply Z.ltb_lt; lia|].
  intros err. rewrite (mustValidate_known_class _ _ _ _ Hrate). reflexivity.
Qed.

Lemma mustValidate_rate_extremes_witness :
  (rateOf (cs_ValidationSettings (cm_ConfigurationSettings (fixtures.manager 0)))
          (Throughput (fixtures.endpoint "/accounts" HighTroughput)) = Some 0
   /\ rand_Int_below 101 (RandNum 0))
  /\ mustValidate (fixtures.manager 0) (fixtures.endpoint "/accounts" HighTroughput)
                  (RandNum 0) = false.
Proof.
  assert (Hdraw : rand_Int_below 101 (RandNum 0)) by (simpl; lia).
  split; [split; [reflexivity|exact Hdraw]|].
  apply (proj1 (proj2 (mustValidate_rate_extremes (fixtures.manager 0)
                         (fixtures.endpoint "/accounts" HighTroughput) (RandNum 0) 0
                         eq_refl Hdraw))).
  lia.
Defined.

(** ** The catalog: lookups by name *)

Lemma findGroup_first_match (l : list APIGroupSetting) (groupName : string) :
  match findGroup l groupName with
  | Some g =>
      exists before after,
        l = before ++ g :: after /\ Group g = groupName
        /\ Forall (fun x => Group x <> groupName) before
  | None => Forall (fun x => Group x <> groupName) l
  end.
Proof.
  induction l as [|x l IH]; simpl; [constructor|].
  destruct (String.eqb_spec (Group x) groupName) as [He|Hne].
  - exists [], l. repeat split; [exact He|constructor].
  - destruct (findGroup l groupName) as [g|].
    + destruct IH as (before & after & -> & Hg & Hbefore).
      exists (x :: before), after. repeat split; [exact Hg|by constructor].
    + by constructor.
Qed.

Lemma findAPI_first_match (l : list APISetting) (apiName : string) :
  match findAPI l apiName with
  | Some a =>
      exists before after,
        l = before ++ a :: after /\ API a = apiName
        /\ Forall (fun x => API x <> apiName) before
  | None => Forall (fun x => API x <> apiName) l
  end.
Proof.
  induction l as [|x l IH]; simpl; [constructor|].
  destruct (String.eqb_spec (API x) apiName) as [He|Hne].
  - exists [], l. repeat split; [exact He|constructor].
  - destruct (findAPI l apiName) as [a|].
    + destruct IH as (before & after & -> & Ha & Hbefore).
      exists (x :: before), after. repeat split; [exact Ha|by constructor].
    + by constructor.
Qed.

(** X2.  [GetGroupSetting] returns the first group of the catalog with the
    name asked for, and nil exactly when no group has that name;
    [GetAPISetting] does the same for the APIs of a group.  Names are
    compared byte by byte. *)
Theorem GetGroupSetting_GetAPISetting_first_match (vs : ValidationSettings)
    (gs : APIGroupSetting) (name : string) :
  match GetGroupSetting vs name with
  | Some g =>
      exists before after,
        APIGroupSettings vs = before ++ g :: after /\ Group g = name
        /\ Forall (fun x => Group x <> name) before
  | None => Forall (fun x => Group x <> name) (APIGroupSettings vs)
  end
  /\ match GetAPISetting gs name with
     | Some a =>
         exists before after,
           APIList gs = before ++ a :: after /\ API a = name
           /\ Forall (fun x => API x <> name) before
     | None => Forall (fun x => API x <> name) (APIList gs)
     end.
Proof. split; [apply findGroup_first_match|apply findAPI_first_match]. Qed.

(** ** The attributes to mask *)

Section HaveToMask_facts.
Context `{!GoStrings.Unicode}.

Lemma anyEqualFold_spec (l : list string) (k : string) :
  anyEqualFold l k = true <-> exists v, In v l /\ GoStrings.EqualFold v k = true.
Proof.
  induction l as [|x l IH]; simpl.
  - split; [discriminate|intros (v & [] & _)].
  - destruct (GoStrings.EqualFold x k) eqn:Hx.
    + split; [intros _; exists x; auto|reflexivity].
    + rewrite IH. split.
      * intros (v & Hin & Hv). exists v; auto.
      * intros (v & [<-|Hin] & Hv); [congruence|exists v; auto].
Qed.

Lemma anyEqualFold_app (l l' : list string) (k : string) :
  anyEqualFold (l ++ l') k = anyEqualFold l k || anyEqualFold l' k.
Proof.
  induction l as [|x l IH]; simpl; [reflexivity|].
  destruct (GoStrings.EqualFold x k); [reflexivity|exact IH].
Qed.

(** X3.  [HaveToMask] holds of a key exactly when one of the attributes to
    mask equals it under [strings.EqualFold]; appending an attribute to the
    list, as the update of the configuration does with [companyCnpj],
    masks the keys that attribute folds to and unmasks none. *)
Theorem HaveToMask_spec (ss : SecuritySettings) (attributeName added : string) :
  (HaveToMask ss attributeName = true
   <-> exists value, In value (AttributesToMask ss)
                     /\ GoStrings.EqualFold value attributeName = true)
  /\ HaveToMask {| AttributesToMask := AttributesToMask ss ++ [added] |} attributeName
     = HaveToMask ss attributeName || GoStrings.EqualFold added attributeName.
Proof.
  split; [apply anyEqualFold_spec|].
  unfold HaveToMask; simpl. rewrite anyEqualFold_app. simpl.
  by destruct (GoStrings.EqualFold added attributeName).
Qed.

End HaveToMask_facts.

(** ** The schema validator: what the clean-up leaves *)

Section Validate_facts.
Import validation.
Context `{!strconv.Strconv} `{!SchemaEngine}.

Lemma descriptionsFor_suppressed (errors : list ResultError) (field : string) :
  Forall (fun desc => kept desc = false) errors -> descriptionsFor errors field = [].
Proof.
  intros Hall. unfold descriptionsFor.
  induction Hall as [|desc errors Hdesc _ IH]; [reflexivity|].
  simpl. rewrite Hdesc. simpl. exact IH.
Qed.

Lemma descriptionsFor_kept (errors : list ResultError) (desc : ResultError) :
  In desc errors -> kept desc = true ->
  descriptionsFor errors (cleanString (Field desc)) <> [].
Proof.
  intros Hin Hkept Hnil.
  assert (Hd : In (cleanString (Description desc))
                  (descriptionsFor errors (cleanString (Field desc)))).
  { unfold descriptionsFor.
    apply (in_map (fun desc0 => cleanString (Description desc0))). apply filter_In. split; [exact Hin|].
    rewrite Hkept. simpl. apply String.eqb_refl. }
  rewrite Hnil in Hd. destruct Hd.
Qed.

(** The map of [cleanErrors] is empty exactly when every error is one of
    the "if" construct. *)
Lemma cleanErrors_empty (errors : list ResultError) :
  cleanErrors errors = ∅ <-> Forall (fun desc => kept desc = false) errors.
Proof.
  split.
  - intros Hempty. apply List.Forall_forall. intros desc Hin.
    destruct (kept desc) eqn:Hkept; [exfalso|reflexivity].
    pose proof (descriptionsFor_kept errors desc Hin Hkept) as Hne.
    assert (Hlook : cleanErrors errors !! cleanString (Field desc) = None)
      by (rewrite Hempty; apply lookup_empty).
    unfold cleanErrors in Hlook. rewrite cleanErrors_loop in Hlook.
    destruct (descriptionsFor errors (cleanString (Field desc))); [by apply Hne|discriminate].
  - intros Hall. apply map_eq. intros field. rewrite lookup_empty.
    unfold cleanErrors. rewrite cleanErrors_loop, lookup_empty.
    by rewrite descriptionsFor_suppressed.
Qed.

(** X4.  When the schema engine finds the document invalid, [Validate]
    answers invalid with the cleaned errors, and that map of errors is
    empty exactly when every error of the engine mentions the "if"
    construct: an invalid result can carry no error at all. *)
Theorem Validate_invalid_without_errors (schema : string) (data : DynamicStruct)
    (result : EngineResult) :
  schema <> EmptyString ->
  gojsonschema_Validate schema data = inr result ->
  engine_Valid result = false ->
  Validate schema data
  = inr {| Valid := false; Errors := cleanErrors (engine_Errors result) |}
  /\ (cleanErrors (engine_Errors result) = ∅
      <-> Forall (fun desc => kept desc = false) (engine_Errors result)).
Proof.
  intros Hschema Hengine Hinvalid. split; [|apply cleanErrors_empty].
  unfold Validate.
  destruct (String.eqb_spec schema EmptyString) as [He|_]; [contradiction|].
  rewrite Hengine, Hinvalid. reflexivity.
Qed.

End Validate_facts.

(** The engine reports one error, of the conditional: the result is invalid
    and its map of errors is empty. *)
Lemma Validate_invalid_without_errors_witness :
  let engine_result :=
    {| validation.engine_Valid := false;
       validation.engine_Errors :=
         [{| validation.Field := "(root)";
             validation.Description := "Must validate all the schemas (allOf)";
             validation.String_ :=
               "(root): Must validate then as " +:+ validation.quoted_if +:+ " was valid" |}] |} in
  ("{}" <> EmptyString
   /\ @validation.gojsonschema_Validate fixtures.conditional_engine "{}" ∅ = inr engine_result
   /\ validation.engine_Valid engine_result = false)
  /\ @validation.Validate fixtures.digits_Strconv fixtures.conditional_engine "{}" ∅
     = inr {| validation.Valid := false; validation.Errors := ∅ |}.
Proof.
  cbv zeta. split; [repeat split; discriminate|].
  refine (eq_trans
            (proj1 (@Validate_invalid_without_errors fixtures.digits_Strconv
                      fixtures.conditional_engine "{}" ∅ _ _ eq_refl eq_refl)) _).
  - discriminate.
  - vm_compute. reflexivity.
Defined.

(** ** [cleanString]: the pieces of the result *)

Lemma string_app_assoc (a b c : string) : (a +:+ b) +:+ c = a +:+ (b +:+ c).
Proof.
  induction a as [|x a IH]; [reflexivity|].
  rewrite !string_app_cons. f_equal. exact IH.
Qed.

Lemma Split_sep_free (s : string) (sep : ascii) :
  Forall (fun piece => hasByte sep piece = false) (GoStrings.Split s sep).
Proof.
  induction s as [|c s IH]; simpl; [by repeat constructor|].
  destruct (Ascii.eqb c sep) eqn:Hc; [by constructor|].
  destruct (GoStrings.Split s sep) as [|piece pieces].
  - repeat constructor. simpl. by rewrite Hc.
  - inversion IH as [|? ? Hpiece Hpieces]; subst.
    constructor; [|exact Hpieces]. simpl. by rewrite Hc.
Qed.

Lemma Split_one_piece (s : string) (sep : ascii) :
  hasByte sep s = false -> GoStrings.Split s sep = [s].
Proof.
  induction s as [|c s IH]; simpl; [reflexivity|].
  intros Hfree. apply orb_false_iff in Hfree as [Hc Hs].
  rewrite Hc, (IH Hs). reflexivity.
Qed.

Lemma Split_app_sep (a s : string) (sep : ascii) :
  hasByte sep a = false ->
  GoStrings.Split (a +:+ String sep s) sep = a :: GoStrings.Split s sep.
Proof.
  induction a as [|c a IH]; intros Hfree.
  - change (EmptyString +:+ String sep s) with (String sep s). simpl.
    by rewrite Ascii.eqb_refl.
  - simpl in Hfree. apply orb_false_iff in Hfree as [Hc Ha].
    rewrite string_app_cons. simpl. rewrite Hc, (IH Ha). reflexivity.
Qed.

Lemma joinDots_fold (rest : list string) (a first : string) :
  fold_left (fun acc piece => acc +:+ "." +:+ piece) rest (a +:+ first)
  = a +:+ fold_left (fun acc piece => acc +:+ "." +:+ piece) rest first.
Proof.
  revert first. induction rest as [|piece rest IH]; intros first; [reflexivity|].
  simpl. rewrite string_app_assoc. apply IH.
Qed.

Lemma joinDots_cons (a b : string) (l : list string) :
  joinDots (a :: b :: l) = a +:+ String "." (joinDots (b :: l)).
Proof.
  unfold joinDots. simpl.
  change (a +:+ "." +:+ b) with (a +:+ String "." b).
  rewrite joinDots_fold. f_equal.
  change (String "." b) with (String "." EmptyString +:+ b).
  apply joinDots_fold.
Qed.

(** Splitting at the dots undoes the join of pieces without dot. *)
Lemma Split_joinDots (l : list string) :
  l <> [] -> Forall (fun piece => hasByte "." piece = false) l ->
  GoStrings.Split (joinDots l) "." = l.
Proof.
  intros Hne Hfree. induction Hfree as [|a l Ha Hl IH]; [contradiction|].
  destruct l as [|b l].
  - simpl. by apply Split_one_piece.
  - rewrite joinDots_cons, Split_app_sep by exact Ha. f_equal. by apply IH.
Qed.

Lemma dropLeadingEmpty_Forall (P : string -> Prop) (l : list string) :
  Forall P l -> Forall P (dropLeadingEmpty l).
Proof.
  intros Hall. induction Hall as [|x l Hx Hl IH]; simpl; [constructor|].
  destruct (String.eqb x EmptyString); [exact IH|by constructor].
Qed.

Lemma dropLeadingEmpty_fixed (l : list string) :
  dropLeadingEmpty (dropLeadingEmpty l) = dropLeadingEmpty l.
Proof.
  induction l as [|x l IH]; simpl; [reflexivity|].
  destruct (String.eqb x EmptyString) eqn:Hx; [exact IH|]. simpl. by rewrite Hx.
Qed.

Lemma filter_all (f : string -> bool) (l : list string) :
  Forall (fun x => f x = true) l -> List.filter f l = l.
Proof.
  intros Hall. induction Hall as [|x l Hx Hl IH]; simpl; [reflexivity|].
  rewrite Hx. by f_equal.
Qed.

Lemma filter_Forall (f : string -> bool) (l : list string) :
  Forall (fun x => f x = true) (List.filter f l).
Proof.
  apply List.Forall_forall. intros x Hin. by apply filter_In in Hin as [_ Hx].
Qed.

Lemma filter_keeps_Forall (P : string -> Prop) (f : string -> bool) (l : list string) :
  Forall P l -> Forall P (List.filter f l).
Proof.
  intros Hall. induction Hall as [|x l Hx Hl IH]; simpl; [constructor|].
  destruct (f x); [by constructor|exact IH].
Qed.

Section cleanString_facts.
Import validation.
Context `{!strconv.Strconv}.

Lemma cleanString_data (value : string) :
  GoStrings.Contains value "data" = true -> cleanString value = joinDots (keptPieces value).
Proof.
  intros Hdata. unfold cleanString. rewrite Hdata. simpl. apply cleanString_loop.
Qed.

Lemma keptPieces_split (value : string) :
  keptPieces value <> [] ->
  GoStrings.Split (joinDots (keptPieces value)) "." = keptPieces value.
Proof.
  intros Hne. apply Split_joinDots; [exact Hne|].
  apply dropLeadingEmpty_Forall, filter_keeps_Forall, Split_sep_free.
Qed.

Lemma keptPieces_words (value : string) :
  Forall (fun piece => negb (isNumeric piece) = true) (keptPieces value).
Proof. apply dropLeadingEmpty_Forall, filter_Forall. Qed.

(** X5.  In the result of [cleanString] on a text that contains "data", no
    piece between two dots parses as a number: every array index is gone
    from a cleaned path. *)
Theorem cleanString_no_numeric_piece (value : string) :
  GoStrings.Contains value "data" = true ->
  cleanString value <> EmptyString ->
  Forall (fun piece => isNumeric piece = false)
         (GoStrings.Split (cleanString value) ".").
Proof.
  intros Hdata Hne. rewrite (cleanString_data _ Hdata) in *.
  assert (Hpieces : keptPieces value <> []).
  { intros Hnil. apply Hne. rewrite Hnil. reflexivity. }
  rewrite (keptPieces_split _ Hpieces).
  eapply Forall_impl; [apply keptPieces_words|].
  intros piece Hpiece. simpl in Hpiece. by apply negb_true_iff.
Qed.

(** X6.  [cleanString] is idempotent: cleaning a cleaned text changes
    nothing. *)
Theorem cleanString_idempotent (value : string) :
  cleanString (cleanString value) = cleanString value.
Proof.
  destruct (GoStrings.Contains value "data") eqn:Hdata.
  2: { unfold cleanString at 2. rewrite Hdata. simpl.
       unfold cleanString. rewrite Hdata. reflexivity. }
  rewrite (cleanString_data _ Hdata).
  destruct (GoStrings.Contains (joinDots (keptPieces value)) "data") eqn:Hagain.
  2: { unfold cleanString. rewrite Hagain. reflexivity. }
  rewrite (cleanString_data _ Hagain).
  assert (Hpieces : keptPieces value <> []).
  { intros Hnil. rewrite Hnil in Hagain. discriminate Hagain. }
  unfold keptPieces at 1, wordPieces. rewrite (keptPieces_split _ Hpieces).
  rewrite filter_all by apply keptPieces_words.
  unfold keptPieces. by rewrite dropLeadingEmpty_fixed.
Qed.

End cleanString_facts.

(** The path of an item of an array under [data]. *)
Lemma cleanString_no_numeric_piece_witness :
  (GoStrings.Contains "data.0.name" "data" = true
   /\ @validation.cleanString fixtures.digits_Strconv "data.0.name" <> EmptyString)
  /\ Forall (fun piece => @validation.isNumeric fixtures.digits_Strconv piece = false)
            (GoStrings.Split (@validation.cleanString fixtures.digits_Strconv "data.0.name")
                             ".").
Proof.
  assert (Hne : @validation.cleanString fixtures.digits_Strconv "data.0.name" <> EmptyString)
    by (vm_compute; discriminate).
  split; [split; [reflexivity|exact Hne]|].
  exact (@cleanString_no_numeric_piece fixtures.digits_Strconv "data.0.name" eq_refl Hne).
Defined.

(** ** The aggregator: what an append touches, and the counter *)

Lemma wrap64_add_l (a b : Z) : wrap64 (wrap64 a + b) = wrap64 (a + b).
Proof.
  unfold wrap64.
  replace ((a + 2 ^ 63) mod 2 ^ 64 - 2 ^ 63 + b + 2 ^ 63)
    with ((a + 2 ^ 63) mod 2 ^ 64 + b) by lia.
  rewrite Zplus_mod_idemp_l. do 2 f_equal. lia.
Qed.

Lemma sumOver_empty {A} (size : A -> Z) : sumOver size ∅ = 0.
Proof. unfold sumOver. apply map_fold_empty. Qed.

(** Writing an entry changes the sum by the size of the new entry less the
    size of the one it replaces. *)
Lemma sumOver_insert {A} (size : A -> Z) (m : gmap string A) (k : string) (v : A) :
  sumOver size (<[k := v]> m) = sumOver size m - from_option size 0 (m !! k) + size v.
Proof.
  unfold sumOver. destruct (m !! k) as [v0|] eqn:Hk; simpl.
  - rewrite <- (insert_delete_eq m k v).
    rewrite map_fold_insert_L; [|intros; lia|apply lookup_delete_eq].
    rewrite (map_fold_delete_L _ _ k v0 m); [lia|intros; lia|exact Hk].
  - rewrite map_fold_insert_L; [lia|intros; lia|exact Hk].
Qed.

(** X7.  When the entry the table has for the transmitter of the result
    (the organisation when the result names none) is none with a nil map,
    [AppendResult] returns, with the result at the end of the list of its
    transmitter and server and the list of every other transmitter and
    server as it was: the results of one server of one transmitter stay in
    the order of their arrival.  On an entry with a nil map it panics at
    the assignment, and no result is filed. *)
Theorem AppendResult_frame (organisationID : string) (res : MessageResult) (a : Aggregator) :
  let transmitter := transmitterOfResult organisationID res in
  (resultsMade a transmitter ->
   exists a',
     AppendResult organisationID res a = inr a'
     /\ resultsOf a' transmitter (mr_ServerID res)
        = resultsOf a transmitter (mr_ServerID res) ++ [res]
     /\ (forall other server,
           other <> transmitter \/ server <> mr_ServerID res ->
           resultsOf a' other server = resultsOf a other server)
     /\ forall other, resultsMade a' other <-> other = transmitter \/ resultsMade a other)
  /\ (~ resultsMade a transmitter ->
      AppendResult organisationID res a
      = inl (configuration.Panic "assignment to entry in nil map")).
Proof.
  cbv zeta. split; [|apply AppendResult_panics].
  intros Hmade. destruct (proj1 (AppendResult_returns _ _ _) Hmade) as [a' Hrun].
  exists a'. split; [exact Hrun|]. split; [|split].
  - exact (AppendResult_resultsOf _ _ _ _ Hrun).
  - intros other server Hother. rewrite (AppendResult_resultsOf_cases _ _ _ _ _ _ Hrun).
    destruct (String.eqb_spec other (transmitterOfResult organisationID res))
      as [Htx|_]; [|reflexivity].
    destruct (String.eqb_spec server (mr_ServerID res)) as [Hsrv|_]; [|reflexivity].
    destruct Hother; contradiction.
  - intros other. exact (AppendResult_resultsMade _ _ _ _ other Hrun).
Qed.

Lemma AppendResult_countResults (organisationID : string) (res : MessageResult)
    (a a' : Aggregator) :
  AppendResult organisationID res a = inr a' ->
  countResults (currentTable a') = countResults (currentTable a) + 1.
Proof.
  intros Hrun.
  destruct (AppendResult_currentTable _ _ _ _ Hrun) as (name & grouped & Hentry & ->).
  unfold countResults.
  rewrite sumOver_insert. simpl. rewrite sumOver_insert.
  destruct (currentTable a !! transmitterOfResult organisationID res) as [tx|];
    simpl in *.
  - subst tx. simpl.
    destruct (grouped !! mr_ServerID res) as [l|]; simpl;
      rewrite ?length_app; simpl; lia.
  - injection Hentry as _ <-. rewrite lookup_empty, sumOver_empty. simpl. lia.
Qed.

(** X8.  [totalResults] counts the results of the table the variable
    refers to: when it does (as a 64-bit integer), it still does after
    [AppendResult] has returned (it returns unless the entry of the
    transmitter has a nil map), and after [getAndClearResults], which
    leaves a table without results and the counter at zero. *)
Theorem totalResults_counts_results (organisationID : string) (res : MessageResult)
    (a : Aggregator) :
  totalResults a = wrap64 (countResults (currentTable a)) ->
  (forall a',
     AppendResult organisationID res a = inr a' ->
     totalResults a' = wrap64 (countResults (currentTable a')))
  /\ (resultsMade a (transmitterOfResult organisationID res) ->
      exists a', AppendResult organisationID res a = inr a')
  /\ totalResults (getAndClearResults a).2
     = wrap64 (countResults (currentTable (getAndClearResults a).2))
  /\ countResults (currentTable (getAndClearResults a).2) = 0.
Proof.
  intros Hcount. split; [|split].
  - intros a' Hrun.
    rewrite (AppendResult_totalResults _ _ _ _ Hrun),
      (AppendResult_countResults _ _ _ _ Hrun), Hcount.
    apply wrap64_add_l.
  - apply AppendResult_returns.
  - assert (Hflushed : currentTable (getAndClearResults a).2 = ∅).
    { unfold currentTable; simpl. by rewrite lookup_insert_eq. }
    rewrite Hflushed. unfold countResults. rewrite sumOver_empty. split; reflexivity.
Qed.

(** The aggregator as it is made, and a first result. *)
Lemma totalResults_counts_results_witness :
  totalResults fixtures.new_aggregator
  = wrap64 (countResults (currentTable fixtures.new_aggregator))
  /\ AppendResult fixtures.organisation fixtures.valid_result fixtures.new_aggregator
     = inr fixtures.one_result_aggregator
  /\ totalResults fixtures.one_result_aggregator
     = wrap64 (countResults (currentTable fixtures.one_result_aggregator)).
Proof.
  assert (H0 : totalResults fixtures.new_aggregator
               = wrap64 (countResults (currentTable fixtures.new_aggregator)))
    by (vm_compute; reflexivity).
  split; [exact H0|]. split; [exact AppendResult_new_aggregator|].
  exact (proj1 (totalResults_counts_results fixtures.organisation fixtures.valid_result
                  fixtures.new_aggregator H0) _ AppendResult_new_aggregator).
Defined.

(** ** The worker: one result for each message it resolves *)

Section worker_results.
Context `{!GoStrings.Unicode} `{!json.Decoder} `{!strconv.Strconv} `{!validation.SchemaEngine}.

(** X9.  For a message whose endpoint resolves, [processMessage] hands
    exactly one result over to the aggregator, whatever the validation
    gives: the result has the endpoint, method, server and transmitter of
    the message and the identifier made of its consent and interaction
    identifiers.  When [processMessage] returns, the result is the last of
    the list of its transmitter and server, every other list is as it was,
    and the counter has gone up by one.  It returns when the entry the
    table has for the transmitter is none with a nil map; on an entry with
    a nil map it ends with the panic of [AppendResult]. *)
Theorem processMessage_one_result (cm : ConfigurationManager) (msg : Message) (p : Process)
    (vs : APIValidationSettings) :
  GetEndpointSettingFromAPI cm (msg_Endpoint msg) = Some vs ->
  exists mr,
    (mr_Endpoint mr = msg_Endpoint msg /\ mr_HTTPMethod mr = msg_HTTPMethod msg
     /\ mr_ServerID mr = msg_ServerID msg /\ mr_TransmitterID mr = msg_TransmitterID msg
     /\ mr_XFapiInteractionID mr = resultIdentifier msg)
    /\ (forall p',
          processMessage cm msg p = inr p' ->
          AppendResult
            (configuration.OrganisationID
               (configuration.s_ApplicationSettings (cm_settings cm))) mr (aggregator p)
          = inr (aggregator p')
          /\ totalResults (aggregator p') = wrap64 (totalResults (aggregator p) + 1)
          /\ forall transmitter server,
               resultsOf (aggregator p') transmitter server
               = if String.eqb transmitter (transmitterOf cm msg)
                    && String.eqb server (msg_ServerID msg)
                 then resultsOf (aggregator p) transmitter server ++ [mr]
                 else resultsOf (aggregator p) transmitter server)
    /\ (resultsMade (aggregator p) (transmitterOf cm msg) ->
        exists p', processMessage cm msg p = inr p')
    /\ (~ resultsMade (aggregator p) (transmitterOf cm msg) ->
        processMessage cm msg p
        = inl (configuration.Panic "assignment to entry in nil map")).
Proof.
  intros Hres. pose proof (processMessage_resolved cm msg p vs Hres) as Hrun.
  cbv zeta in Hrun.
  match type of Hrun with
  | context [AppendResult ?o ?r ?a] => exists r
  end.
  split; [simpl; auto|]. split; [|split].
  - intros p' Hp'. rewrite Hrun in Hp'.
    match type of Hp' with
    | context [AppendResult ?o ?r ?a] => destruct (AppendResult o r a) as [e|a'] eqn:Happ
    end; [discriminate|].
    injection Hp' as <-. simpl. split; [reflexivity|].
    split; [exact (AppendResult_totalResults _ _ _ _ Happ)|].
    intros transmitter server.
    exact (AppendResult_resultsOf_cases _ _ _ _ transmitter server Happ).
  - apply processMessage_returns.
  - apply (processMessage_panics cm msg p vs Hres).
Qed.

(** X10.  A message whose endpoint the catalog does not resolve is
    ignored: [processMessage] counts it as received and leaves the
    aggregator, the local results, the counters of the validations and the
    queue as they were; the worker goes on with the rest of the queue. *)
Theorem processMessage_unresolved_endpoint (cm : ConfigurationManager) (msg : Message)
    (rest : list Message) (p : Process) :
  GetEndpointSettingFromAPI cm (msg_Endpoint msg) = None ->
  worker_step cm (set_messageQueue (msg :: rest) p)
  = Some (inr (set_receivedValues (increment (msg_Endpoint msg) (receivedValues p))
                 (set_messageQueue rest p))).
Proof.
  intros Hres. unfold worker_step, processMessage; cbv zeta. simpl. rewrite Hres. reflexivity.
Qed.

Lemma Validate_valid_no_errors (schema : string) (doc : validation.DynamicStruct)
    (res : validation.Result) :
  validation.Validate schema doc = inr res ->
  validation.Valid res = true -> validation.Errors res = ∅.
Proof.
  unfold validation.Validate.
  destruct (String.eqb schema EmptyString); [by intros [= <-]|].
  destruct (validation.gojsonschema_Validate schema doc) as [err|result]; [discriminate|].
  destruct (validation.engine_Valid result); simpl; intros [= <-]; [reflexivity|discriminate].
Qed.

(** X11.  When the body of the message decodes and the validator returns
    no error, the result handed over to the aggregator and to the local
    result manager has the verdict and the errors of the validator; a valid
    result has no errors, and an endpoint without body schema makes every
    decoded body valid.  [processMessage] returns with the result filed
    when the entry of the transmitter is none with a nil map, and ends with
    the panic of [AppendResult] on that result otherwise. *)
Theorem processMessage_verdict (cm : ConfigurationManager) (msg : Message) (p : Process)
    (vs : APIValidationSettings) (doc : validation.DynamicStruct) (res : validation.Result) :
  GetEndpointSettingFromAPI cm (msg_Endpoint msg) = Some vs ->
  json.Unmarshal_object (msg_Message msg) = inr doc ->
  validation.Validate (JSONBodySchema (EndpointSettings vs)) doc = inr res ->
  exists mr,
    (forall p',
       processMessage cm msg p = inr p' ->
       resultsOf (aggregator p') (transmitterOf cm msg) (msg_ServerID msg)
       = resultsOf (aggregator p) (transmitterOf cm msg) (msg_ServerID msg) ++ [mr]
       /\ localResults p' = lrm_AppendResult cm msg mr vs (localResults p))
    /\ (resultsMade (aggregator p) (transmitterOf cm msg) ->
        exists p', processMessage cm msg p = inr p')
    /\ (forall e,
          processMessage cm msg p = inl e ->
          AppendResult
            (configuration.OrganisationID
               (configuration.s_ApplicationSettings (cm_settings cm))) mr (aggregator p)
          = inl e)
    /\ mr_Result mr = validation.Valid res
    /\ mr_Errors mr = validation.Errors res
    /\ (mr_Result mr = true -> mr_Errors mr = ∅)
    /\ (JSONBodySchema (EndpointSettings vs) = EmptyString -> mr_Result mr = true).
Proof.
  intros Hres Hdoc Hval.
  pose proof (processMessage_resolved cm msg p vs Hres) as Hrun; cbv zeta in Hrun.
  assert (Hvr : validateMessage msg (EndpointSettings vs)
                = ({| validation.Valid := validation.Valid res;
                      validation.Errors := validation.Errors res |}, None)).
  { unfold validateMessage, validateContentWithSchema; cbv zeta. rewrite Hdoc, Hval.
    destruct (validation.Valid res) eqn:Hvalid; simpl.
    - by rewrite (Validate_valid_no_errors _ _ _ Hval Hvalid).
    - by rewrite (right_id_L ∅ (∪)). }
  rewrite Hvr in Hrun. simpl in Hrun.
  match type of Hrun with
  | context [AppendResult ?o ?r ?a] =>
      exists r; destruct (AppendResult o r a) as [e|a'] eqn:Happ
  end.
  - split; [intros p' Hp'; congruence|].
    split; [apply processMessage_returns|].
    split; [intros e' He'; congruence|].
    simpl. split; [reflexivity|]. split; [reflexivity|]. split.
    + apply (Validate_valid_no_errors _ _ _ Hval).
    + intros Hschema. unfold validation.Validate in Hval. rewrite Hschema in Hval.
      simpl in Hval. by injection Hval as <-.
  - split.
    { intros p' Hp'. rewrite Hrun in Hp'. injection Hp' as <-. simpl.
      split; [|reflexivity]. exact (AppendResult_resultsOf _ _ _ _ Happ). }
    split; [apply processMessage_returns|].
    split; [intros e' He'; congruence|].
    simpl. split; [reflexivity|]. split; [reflexivity|]. split.
    + apply (Validate_valid_no_errors _ _ _ Hval).
    + intros Hschema. unfold validation.Validate in Hval. rewrite Hschema in Hval.
      simpl in Hval. by injection Hval as <-.
Qed.

Lemma processAll_cons (cm : ConfigurationManager) (msg : Message) (rest : list Message)
    (p : Process) :
  processAll cm (msg :: rest) p
  = match processMessage cm msg p with
    | inl runtimePanic => inl runtimePanic
    | inr p' => processAll cm rest p'
    end.
Proof.
  unfold processAll; simpl. destruct (processMessage cm msg p) as [e|p']; [|reflexivity].
  induction rest as [|next rest IH]; [reflexivity|exact IH].
Qed.

Lemma worker_rounds_processAll (cm : ConfigurationManager) (q : list Message) (p : Process) :
  messageQueue p = q ->
  worker_rounds cm (length q) p = processAll cm q (set_messageQueue [] p).
Proof.
  revert p. induction q as [|msg rest IH]; intros p Hq.
  - simpl. destruct p; simpl in *; subst; reflexivity.
  - rewrite processAll_cons. simpl. unfold worker_step. rewrite Hq. simpl.
    rewrite !processMessage_set_messageQueue.
    destruct (processMessage cm msg p) as [e|p1]; [reflexivity|].
    rewrite IH by reflexivity. by destruct p1.
Qed.

Lemma processAll_messageQueue (cm : ConfigurationManager) (q : list Message)
    (p p' : Process) :
  processAll cm q p = inr p' -> messageQueue p' = messageQueue p.
Proof.
  revert p. induction q as [|msg rest IH]; intros p; [by intros [= <-]|].
  rewrite processAll_cons.
  destruct (processMessage cm msg p) as [e|p1] eqn:Hrun; [discriminate|].
  intros Hrest. rewrite (IH _ Hrest). exact (processMessage_messageQueue cm msg p p1 Hrun).
Qed.

(** With no nil map in the table, no message of the list ends the worker. *)
Lemma processAll_returns (cm : ConfigurationManager) (q : list Message) (p : Process) :
  allResultsMade (aggregator p) ->
  exists p', processAll cm q p = inr p' /\ allResultsMade (aggregator p').
Proof.
  revert p. induction q as [|msg rest IH]; intros p Hall; [by exists p|].
  rewrite processAll_cons.
  destruct (processMessage_returns cm msg p (Hall _)) as [p1 Hrun]. rewrite Hrun.
  apply IH. exact (processMessage_allResultsMade cm msg p p1 Hrun Hall).
Qed.

(** X12.  The worker takes the queued messages oldest first: as many
    rounds as the queue holds messages are [processMessage] run on each
    message in the order of the queue, up to the first that ends with a
    panic; when none does, the queue is empty and the worker is parked on
    it.  With no nil map in the table of results none does, and there is
    none after. *)
Theorem worker_drains_queue_in_order (cm : ConfigurationManager) (p : Process) :
  let run := worker_rounds cm (length (messageQueue p)) p in
  run = processAll cm (messageQueue p) (set_messageQueue [] p)
  /\ (forall p', run = inr p' -> messageQueue p' = [] /\ worker_step cm p' = None)
  /\ (allResultsMade (aggregator p) ->
      exists p', run = inr p' /\ allResultsMade (aggregator p')).
Proof.
  cbv zeta. rewrite (worker_rounds_processAll cm (messageQueue p) p eq_refl).
  split; [reflexivity|]. split.
  - intros p' Hrun. pose proof (processAll_messageQueue cm _ _ _ Hrun) as Hq.
    simpl in Hq. split; [exact Hq|]. unfold worker_step. by rewrite Hq.
  - intros Hall. apply processAll_returns. exact Hall.
Qed.

End worker_results.

Lemma processMessage_one_result_witness :
  let cm := fixtures.manager 100 in
  let msg := fixtures.message "{}" in
  @GetEndpointSettingFromAPI fixtures.ascii_Unicode cm (msg_Endpoint msg)
  = Some {| EndpointSettings := fixtures.endpoint "/accounts" HighTroughput;
            APIGroup := "open-data"; avs_API := "accounts"; APIVersion := "2.0.0";
            BasePath := "accounts" |}
  /\ exists p',
       @processMessage fixtures.ascii_Unicode fixtures.two_documents
         fixtures.digits_Strconv fixtures.lenient_engine cm msg (fixtures.process [])
       = inr p'
       /\ totalResults (aggregator p')
          = wrap64 (totalResults (aggregator (fixtures.process [])) + 1).
Proof.
  cbv zeta.
  assert (Hres : @GetEndpointSettingFromAPI fixtures.ascii_Unicode (fixtures.manager 100)
                   (msg_Endpoint (fixtures.message "{}"))
                 = Some {| EndpointSettings := fixtures.endpoint "/accounts" HighTroughput;
                           APIGroup := "open-data"; avs_API := "accounts";
                           APIVersion := "2.0.0"; BasePath := "accounts" |})
    by (vm_compute; reflexivity).
  split; [exact Hres|].
  destruct (@processMessage_one_result fixtures.ascii_Unicode fixtures.two_documents
              fixtures.digits_Strconv fixtures.lenient_engine (fixtures.manager 100)
              (fixtures.message "{}") (fixtures.process []) _ Hres)
    as (mr & _ & Hfiled & Hreturns & _).
  assert (Hmade : resultsMade (aggregator (fixtures.process []))
                    (transmitterOf (fixtures.manager 100) (fixtures.message "{}")))
    by (intros tx; vm_compute; discriminate).
  destruct (Hreturns Hmade) as [p' Hrun].
  exists p'. split; [exact Hrun|]. exact (proj1 (proj2 (Hfiled p' Hrun))).
Defined.

(** A message for an endpoint the catalog does not have. *)
Lemma processMessage_unresolved_endpoint_witness :
  let cm := fixtures.manager 100 in
  let msg := fixtures.message "{}" in
  @GetEndpointSettingFromAPI fixtures.ascii_Unicode cm (msg_Endpoint fixtures.stray_message)
  = None
  /\ @worker_step fixtures.ascii_Unicode fixtures.two_documents fixtures.digits_Strconv
       fixtures.lenient_engine cm
       (set_messageQueue [fixtures.stray_message; msg] (fixtures.process []))
     = Some (inr (set_receivedValues
                    (increment "/loans/v1/contracts" (receivedValues (fixtures.process [])))
                    (set_messageQueue [msg] (fixtures.process [])))).
Proof.
  cbv zeta.
  assert (Hres : @GetEndpointSettingFromAPI fixtures.ascii_Unicode (fixtures.manager 100)
                   (msg_Endpoint fixtures.stray_message) = None)
    by (vm_compute; reflexivity).
  split; [exact Hres|].
  exact (@processMessage_unresolved_endpoint fixtures.ascii_Unicode fixtures.two_documents
           fixtures.digits_Strconv fixtures.lenient_engine (fixtures.manager 100)
           fixtures.stray_message [fixtures.message "{}"] (fixtures.process []) Hres).
Defined.

(** The empty object for an endpoint without body schema. *)
Lemma processMessage_verdict_witness :
  let cm := fixtures.manager 100 in
  let msg := fixtures.message "{}" in
  (@GetEndpointSettingFromAPI fixtures.ascii_Unicode cm (msg_Endpoint msg)
   = Some {| EndpointSettings := fixtures.endpoint "/accounts" HighTroughput;
             APIGroup := "open-data"; avs_API := "accounts"; APIVersion := "2.0.0";
             BasePath := "accounts" |}
   /\ @json.Unmarshal_object fixtures.two_documents (msg_Message msg) = inr ∅
   /\ @validation.Validate fixtures.digits_Strconv fixtures.lenient_engine EmptyString ∅
      = inr {| validation.Valid := true; validation.Errors := ∅ |})
  /\ exists mr p',
       @processMessage fixtures.ascii_Unicode fixtures.two_documents
         fixtures.digits_Strconv fixtures.lenient_engine cm msg (fixtures.process [])
       = inr p'
       /\ resultsOf (aggregator p') fixtures.organisation (msg_ServerID msg) = [mr]
       /\ mr_Result mr = true.
Proof.
  cbv zeta.
  assert (Hres : @GetEndpointSettingFromAPI fixtures.ascii_Unicode (fixtures.manager 100)
                   (msg_Endpoint (fixtures.message "{}"))
                 = Some {| EndpointSettings := fixtures.endpoint "/accounts" HighTroughput;
                           APIGroup := "open-data"; avs_API := "accounts";
                           APIVersion := "2.0.0"; BasePath := "accounts" |})
    by (vm_compute; reflexivity).
  split; [split; [exact Hres|split; reflexivity]|].
  destruct (@processMessage_verdict fixtures.ascii_Unicode fixtures.two_documents
              fixtures.digits_Strconv fixtures.lenient_engine (fixtures.manager 100)
              (fixtures.message "{}") (fixtures.process []) _ ∅
              {| validation.Valid := true; validation.Errors := ∅ |} Hres eq_refl eq_refl)
    as (mr & Hfiled & Hreturns & _ & Hvalid & _).
  assert (Hmade : resultsMade (aggregator (fixtures.process []))
                    (transmitterOf (fixtures.manager 100) (fixtures.message "{}")))
    by (intros tx; vm_compute; discriminate).
  destruct (Hreturns Hmade) as [p' Hrun].
  exists mr, p'. split; [exact Hrun|]. split; [exact (proj1 (Hfiled p' Hrun))|exact Hvalid].
Defined.

(** ** The handler: what a request leaves behind *)

Section handler_accounting.
Context `{!GoStrings.Unicode} `{!json.Decoder} `{!configuration.UUID}.

(** X13.  Whatever the request, [handleValidateResponseMessage] counts it
    as received and leaves the aggregator and the local results alone; it
    either is parked at the send on a full queue, or answers 200, 400 or
    500.  With 200 the body is the text of the enqueued message, the
    duration is recorded, and the queue is as it was or has one more
    message, with the body of the request, at its end.  With 400 or 500 the
    queue is as it was and no duration is recorded; 400 counts a bad
    request and 500, the body that cannot be read, does not. *)
Theorem handleValidateResponseMessage_accounting (cm : ConfigurationManager) (r : Request)
    (drawn : rand_Int) (elapsed : Z) (p : Process) :
  let '(out, p') := handleValidateResponseMessage cm r drawn elapsed p in
  monitoring.requestsReceived (metrics p')
  = wrap64 (monitoring.requestsReceived (metrics p) + 1)
  /\ aggregator p' = aggregator p
  /\ localResults p' = localResults p
  /\ match out with
     | Parked msg =>
         (capacity <= length (messageQueue p))%nat /\ messageQueue p' = messageQueue p
     | Responded w =>
         (StatusCode w = 200
          /\ body w = TextBody "Message enqueued for processing!"
          /\ monitoring.responseTime (metrics p')
             = monitoring.responseTime (metrics p) ++ [elapsed]
          /\ monitoring.badRequestsReceived (metrics p')
             = monitoring.badRequestsReceived (metrics p)
          /\ (messageQueue p' = messageQueue p
              \/ exists msg, messageQueue p' = messageQueue p ++ [msg]
                             /\ Body r = inr (msg_Message msg)))
         \/ (StatusCode w = 400
             /\ messageQueue p' = messageQueue p
             /\ monitoring.responseTime (metrics p') = monitoring.responseTime (metrics p)
             /\ monitoring.badRequestsReceived (metrics p')
                = wrap64 (monitoring.badRequestsReceived (metrics p) + 1))
         \/ (StatusCode w = 500
             /\ messageQueue p' = messageQueue p
             /\ monitoring.responseTime (metrics p') = monitoring.responseTime (metrics p)
             /\ monitoring.badRequestsReceived (metrics p')
                = monitoring.badRequestsReceived (metrics p)
             /\ exists err, Body r = inl err)
     end.
Proof.
  unfold handleValidateResponseMessage, admission, loadMessageHeaderValues, respondEnqueued,
    EnqueueMessage, chan_send, updateResponseError; cbv zeta.
  repeat match goal with
  | |- context [if ?b then _ else _] => destruct b eqn:?; simpl
  | |- context [match Body r with _ => _ end] => destruct (Body r) eqn:?; simpl
  | |- context [match GetEndpointSettingFromAPI ?a ?b with _ => _ end] =>
      destruct (GetEndpointSettingFromAPI a b) eqn:?; simpl
  end;
  (split; [reflexivity|]; split; [reflexivity|]; split; [reflexivity|]);
  first
    [ solve [right; left; repeat split; reflexivity]
    | solve [right; right; repeat split; try reflexivity; eexists; reflexivity]
    | solve [left; repeat split; try reflexivity; left; reflexivity]
    | solve [left; repeat split; try reflexivity; right; eexists; split; reflexivity]
    | idtac ].
  all: split; [|reflexivity].
  all: match goal with
       | Hfull : (_ <? _)%nat = false |- _ => apply Nat.ltb_ge in Hfull; exact Hfull
       end.
Qed.

End handler_accounting.

(** ** The handler: the answer, the unsupported endpoints, the queued message *)

Section handler_answers.
Context `{!GoStrings.Unicode} `{!json.Decoder} `{!configuration.UUID}.

(** X14.  With room in the queue, the answer to a request does not depend
    on the draw of the gate: a request that is passed over is answered as
    one that is enqueued. *)
Theorem handleValidateResponseMessage_answer_hides_sampling (cm : ConfigurationManager)
    (r : Request) (drawn drawn' : rand_Int) (elapsed : Z) (p : Process) :
  (length (messageQueue p) < capacity)%nat ->
  (handleValidateResponseMessage cm r drawn elapsed p).1
  = (handleValidateResponseMessage cm r drawn' elapsed p).1.
Proof.
  intros Hroom. apply Nat.ltb_lt in Hroom.
  unfold handleValidateResponseMessage, admission, loadMessageHeaderValues, respondEnqueued,
    EnqueueMessage, chan_send, updateResponseError; cbv zeta.
  repeat match goal with
  | |- context [if negb ?b then _ else _] => destruct b; simpl
  | |- context [if negb ?b && negb ?c then _ else _] => destruct (negb b && negb c); simpl
  | |- context [match Body r with _ => _ end] => destruct (Body r); simpl
  | |- context [match GetEndpointSettingFromAPI ?a ?b with _ => _ end] =>
      destruct (GetEndpointSettingFromAPI a b); simpl
  end; try reflexivity.
  all: rewrite ?Hroom; destruct (mustValidate _ _ drawn), (mustValidate _ _ drawn'); simpl;
    rewrite ?Hroom; reflexivity.
Qed.

(** X16.  A request with well-formed identifiers and a body that is valid
    JSON.  When the catalog does not resolve its endpoint, the answer is 400
    and the endpoint is recorded as unsupported under the version "N.A.".
    When the endpoint resolves and the request names a version that is not
    the version of the API, the answer is 400 and the endpoint is recorded
    under the version named.  In both cases nothing is enqueued.  A request
    that names no version, or the version of the API, is not answered 400. *)
Theorem handleValidateResponseMessage_unsupported_endpoint (cm : ConfigurationManager)
    (r : Request) (drawn : rand_Int) (elapsed : Z) (p : Process) (content : string) :
  configuration.uuid_Parse_ok (Header_Get r srvOrgID) = true ->
  configuration.uuid_Parse_ok (Header_Get r xFAPIInteractionID) = true ->
  (Header_Get r transmitterID = EmptyString
   \/ configuration.uuid_Parse_ok (Header_Get r transmitterID) = true) ->
  Body r = inr content ->
  json.Valid content = true ->
  let endpoint := Header_Get r "endpointName" in
  let version := Header_Get r "version" in
  let '(out, p') := handleValidateResponseMessage cm r drawn elapsed p in
  match GetEndpointSettingFromAPI cm endpoint with
  | None =>
      out = Responded {| StatusCode := 400;
                         body := JSONBody {| ge_Message :=
                                   "endpointName: Not found or bad format." |} |}
      /\ unsupportedCount (metrics p') endpoint "N.A."
         = wrap64 (unsupportedCount (metrics p) endpoint "N.A." + 1)
      /\ messageQueue p' = messageQueue p
  | Some vs =>
      if negb (String.eqb version EmptyString) && negb (String.eqb version (APIVersion vs))
      then out = Responded {| StatusCode := 400;
                              body := JSONBody {| ge_Message :=
                                        "version: not supported for as endpoint: "
                                        +:+ endpoint |} |}
           /\ unsupportedCount (metrics p') endpoint version
              = wrap64 (unsupportedCount (metrics p) endpoint version + 1)
           /\ messageQueue p' = messageQueue p
      else forall w, out = Responded w -> StatusCode w = 200
  end.
Proof.
  intros Hsrv Hfapi Htx Hbody Hvalid. cbv zeta.
  unfold handleValidateResponseMessage, admission, loadMessageHeaderValues; cbv zeta.
  rewrite Hsrv, Hfapi. simpl.
  assert (Htx' : negb (String.eqb (Header_Get r transmitterID) EmptyString)
                 && negb (configuration.uuid_Parse_ok (Header_Get r transmitterID)) = false).
  { destruct Htx as [->| ->]; [reflexivity|apply andb_false_r]. }
  rewrite Htx', Hbody, Hvalid. simpl. clear Htx'.
  destruct (GetEndpointSettingFromAPI cm (Header_Get r "endpointName")) as [vs|].
  - destruct (negb (String.eqb (Header_Get r "version") EmptyString)
              && negb (String.eqb (Header_Get r "version") (APIVersion vs))); simpl.
    + split; [reflexivity|]. split; [|reflexivity].
      unfold unsupportedCount; simpl. rewrite lookup_insert_eq; simpl.
      rewrite lookup_insert_eq; simpl.
      by destruct (monitoring.unsupportedEndpoints (metrics p) !! _).
    + destruct (mustValidate _ _ _); simpl.
      * unfold EnqueueMessage, chan_send. destruct (_ <? _)%nat; simpl.
        -- intros w [= <-]. reflexivity.
        -- intros w Hw. discriminate Hw.
      * intros w [= <-]. reflexivity.
  - simpl. split; [reflexivity|]. split; [|reflexivity].
    unfold unsupportedCount; simpl. rewrite lookup_insert_eq; simpl.
    rewrite lookup_insert_eq; simpl.
    by destruct (monitoring.unsupportedEndpoints (metrics p) !! _).
Qed.

(** X17.  A message the handler has ready for the queue has a server and an
    interaction identifier that parse as UUID, a transmitter that is empty
    or parses, the body of the request, which is valid JSON, the method of
    the request, and an endpoint that the catalog resolves to an API whose
    version the request names or leaves out; the gate has admitted it. *)
Theorem admission_sampled_message (cm : ConfigurationManager) (r : Request)
    (drawn : rand_Int) (p p1 : Process) (msg : Message) :
  admission cm r drawn p = (Sampled msg, p1) ->
  configuration.uuid_Parse_ok (msg_ServerID msg) = true
  /\ configuration.uuid_Parse_ok (msg_XFapiInteractionID msg) = true
  /\ (msg_TransmitterID msg = EmptyString
      \/ configuration.uuid_Parse_ok (msg_TransmitterID msg) = true)
  /\ Body r = inr (msg_Message msg)
  /\ json.Valid (msg_Message msg) = true
  /\ msg_HTTPMethod msg = Method r
  /\ exists vs,
       GetEndpointSettingFromAPI cm (msg_Endpoint msg) = Some vs
       /\ (msg_APIVersion msg = EmptyString \/ msg_APIVersion msg = APIVersion vs)
       /\ mustValidate cm (EndpointSettings vs) drawn = true.
Proof.
  unfold admission, loadMessageHeaderValues; cbv zeta.
  destruct (configuration.uuid_Parse_ok (Header_Get r srvOrgID)) eqn:Hsrv; simpl;
    [|discriminate].
  destruct (configuration.uuid_Parse_ok (Header_Get r xFAPIInteractionID)) eqn:Hfapi; simpl;
    [|discriminate].
  destruct (negb (String.eqb (Header_Get r transmitterID) EmptyString)
            && negb (configuration.uuid_Parse_ok (Header_Get r transmitterID))) eqn:Htx;
    simpl; [discriminate|].
  destruct (Body r) as [err|content] eqn:Hbody; [discriminate|].
  destruct (json.Valid content) eqn:Hvalid; simpl; [|discriminate].
  destruct (GetEndpointSettingFromAPI cm (Header_Get r "endpointName")) as [vs|] eqn:Hres;
    [|discriminate].
  destruct (negb (String.eqb (Header_Get r "version") EmptyString)
            && negb (String.eqb (Header_Get r "version") (APIVersion vs))) eqn:Hversion;
    [discriminate|].
  destruct (mustValidate cm (EndpointSettings vs) drawn) eqn:Hgate; [|discriminate].
  intros [= <- _]. simpl.
  split; [exact Hsrv|]. split; [exact Hfapi|]. split.
  { destruct (String.eqb_spec (Header_Get r transmitterID) EmptyString) as [He|_];
      [left; exact He|right].
    simpl in Htx. by apply negb_false_iff in Htx. }
  split; [reflexivity|]. split; [exact Hvalid|]. split; [reflexivity|].
  exists vs. split; [exact Hres|]. split; [|exact Hgate].
  destruct (String.eqb_spec (Header_Get r "version") EmptyString) as [He|_];
    [left; exact He|right].
  simpl in Hversion. apply negb_false_iff in Hversion. by apply String.eqb_eq.
Qed.

End handler_answers.

(** ** The record of the unsupported endpoints *)

(** X15.  [IncreaseBadEndpointsReceived] adds one to the count of the
    endpoint and version it is called with and to the bad requests, and
    leaves the count of every other endpoint and version, and the requests
    received, as they were.  [GetAndCleanUnsupportedEndpoints] returns the
    record with these counts and leaves every count at zero. *)
Theorem IncreaseBadEndpointsReceived_count (endpoint version errorMessage : string)
    (m : monitoring.Metrics) (e v : string) :
  let m' := monitoring.IncreaseBadEndpointsReceived endpoint version errorMessage m in
  unsupportedCount m' e v
  = (if String.eqb e endpoint && String.eqb v version
     then wrap64 (unsupportedCount m endpoint version + 1)
     else unsupportedCount m e v)
  /\ monitoring.badRequestsReceived m' = wrap64 (monitoring.badRequestsReceived m + 1)
  /\ monitoring.requestsReceived m' = monitoring.requestsReceived m
  /\ (monitoring.GetAndCleanUnsupportedEndpoints m').1 = monitoring.unsupportedEndpoints m'
  /\ unsupportedCount (monitoring.GetAndCleanUnsupportedEndpoints m').2 e v = 0.
Proof.
  cbv zeta. split; [|by repeat split].
  unfold unsupportedCount; simpl.
  destruct (String.eqb_spec e endpoint) as [->|He]; simpl.
  - rewrite lookup_insert_eq; simpl.
    destruct (String.eqb_spec v version) as [->|Hv].
    + rewrite lookup_insert_eq; simpl.
      by destruct (monitoring.unsupportedEndpoints m !! endpoint).
    + rewrite lookup_insert_ne by congruence.
      destruct (monitoring.unsupportedEndpoints m !! endpoint); simpl;
        [reflexivity|by rewrite lookup_empty].
  - by rewrite lookup_insert_ne by congruence.
Qed.

(** A draw below the rate and a draw above it, on an empty queue. *)
Lemma handleValidateResponseMessage_answer_hides_sampling_witness :
  let handler :=
    @handleValidateResponseMessage fixtures.ascii_Unicode fixtures.two_documents
      fixtures.canonical_UUID (fixtures.manager 50) (fixtures.request "{}") in
  (length (messageQueue (fixtures.process [])) < capacity)%nat
  /\ (handler (RandNum 0) 1500 (fixtures.process [])).1
     = (handler (RandNum 99) 1500 (fixtures.process [])).1
  /\ messageQueue (handler (RandNum 0) 1500 (fixtures.process [])).2 = [fixtures.message "{}"]
  /\ messageQueue (handler (RandNum 99) 1500 (fixtures.process [])).2 = [].
Proof.
  cbv zeta.
  assert (Hroom : (length (messageQueue (fixtures.process [])) < capacity)%nat)
    by (vm_compute; lia).
  split; [exact Hroom|]. split; [|split; vm_compute; reflexivity].
  exact (@handleValidateResponseMessage_answer_hides_sampling fixtures.ascii_Unicode
           fixtures.two_documents fixtures.canonical_UUID (fixtures.manager 50)
           (fixtures.request "{}") (RandNum 0) (RandNum 99) 1500 (fixtures.process []) Hroom).
Defined.

(** The request of scenario S3: the catalog has the API at version 2.0.0
    and the request names 1.0.0. *)
Lemma handleValidateResponseMessage_unsupported_endpoint_witness :
  let r := fixtures.request_version "1.0.0" "{}" in
  let run :=
    @handleValidateResponseMessage fixtures.ascii_Unicode fixtures.two_documents
      fixtures.canonical_UUID (fixtures.manager 100) r (RandNum 0) 1500 (fixtures.process []) in
  (@configuration.uuid_Parse_ok fixtures.canonical_UUID (Header_Get r srvOrgID) = true
   /\ @configuration.uuid_Parse_ok fixtures.canonical_UUID (Header_Get r xFAPIInteractionID)
      = true
   /\ Header_Get r transmitterID = EmptyString
   /\ Body r = inr "{}"
   /\ @json.Valid fixtures.two_documents "{}" = true)
  /\ run.1 = Responded {| StatusCode := 400;
                          body := JSONBody {| ge_Message :=
                            "version: not supported for as endpoint: /accounts/v2/accounts" |} |}
  /\ unsupportedCount (metrics run.2) "/accounts/v2/accounts" "1.0.0" = 1.
Proof.
  cbv zeta. split; [repeat split; vm_compute; reflexivity|].
  pose proof (@handleValidateResponseMessage_unsupported_endpoint fixtures.ascii_Unicode
                fixtures.two_documents fixtures.canonical_UUID (fixtures.manager 100)
                (fixtures.request_version "1.0.0" "{}") (RandNum 0) 1500 (fixtures.process [])
                "{}" eq_refl eq_refl (or_introl eq_refl) eq_refl eq_refl) as Hrun.
  cbv zeta in Hrun.
  destruct (@handleValidateResponseMessage fixtures.ascii_Unicode fixtures.two_documents
              fixtures.canonical_UUID (fixtures.manager 100)
              (fixtures.request_version "1.0.0" "{}") (RandNum 0) 1500 (fixtures.process []))
    as [out p'] eqn:Hout.
  assert (Hres : @GetEndpointSettingFromAPI fixtures.ascii_Unicode (fixtures.manager 100)
                   (Header_Get (fixtures.request_version "1.0.0" "{}") "endpointName")
                 = Some {| EndpointSettings := fixtures.endpoint "/accounts" HighTroughput;
                           APIGroup := "open-data"; avs_API := "accounts";
                           APIVersion := "2.0.0"; BasePath := "accounts" |})
    by (vm_compute; reflexivity).
  rewrite Hres in Hrun. simpl in Hrun. destruct Hrun as (Hanswer & Hcount & _).
  simpl. split; [exact Hanswer|]. rewrite Hcount. vm_compute. reflexivity.
Defined.

(** The request of scenario S1, admitted. *)
Lemma admission_sampled_message_witness :
  let p := fixtures.process [] in
  @admission fixtures.ascii_Unicode fixtures.two_documents fixtures.canonical_UUID
    (fixtures.manager 100) (fixtures.request "{}") (RandNum 0) p
  = (Sampled (fixtures.message "{}"), set_metrics monitoring.IncreaseRequestsReceived p)
  /\ @json.Valid fixtures.two_documents (msg_Message (fixtures.message "{}")) = true
  /\ exists vs,
       @GetEndpointSettingFromAPI fixtures.ascii_Unicode (fixtures.manager 100)
         (msg_Endpoint (fixtures.message "{}")) = Some vs.
Proof.
  cbv zeta.
  assert (Hadm : @admission fixtures.ascii_Unicode fixtures.two_documents
                   fixtures.canonical_UUID (fixtures.manager 100) (fixtures.request "{}")
                   (RandNum 0) (fixtures.process [])
                 = (Sampled (fixtures.message "{}"),
                    set_metrics monitoring.IncreaseRequestsReceived (fixtures.process [])))
    by (vm_compute; reflexivity).
  split; [exact Hadm|].
  destruct (@admission_sampled_message fixtures.ascii_Unicode fixtures.two_documents
              fixtures.canonical_UUID _ _ _ _ _ _ Hadm)
    as (_ & _ & _ & _ & Hvalid & _ & vs & Hres & _).
  split; [exact Hvalid|]. exists vs. exact Hres.
Defined.

(** ** The catalog: resolving an endpoint *)

Section GetEndpointSettingFromAPI_facts.
Context `{!GoStrings.Unicode}.

Lemma findEndpoint_spec (endpointName : string) (setting : APIGroupSetting) (api : APISetting)
    (l : list APIEndpointSetting) :
  match findEndpoint endpointName setting api l with
  | Some vs =>
      exists before endpoint after,
        l = before ++ endpoint :: after /\ vs = settingsOf setting api endpoint
        /\ String.eqb (GoStrings.ToLower
                         (GoStrings.TrimSpace
                            (GoStrings.TrimSpace (EndpointBase api)
                             +:+ GoStrings.TrimSpace (Endpoint endpoint))))
                      (GoStrings.ToLower (GoStrings.TrimSpace endpointName)) = true
  | None =>
      Forall (fun endpoint =>
                String.eqb (GoStrings.ToLower
                              (GoStrings.TrimSpace
                                 (GoStrings.TrimSpace (EndpointBase api)
                                  +:+ GoStrings.TrimSpace (Endpoint endpoint))))
                           (GoStrings.ToLower (GoStrings.TrimSpace endpointName)) = false) l
  end.
Proof.
  induction l as [|endpoint l IH]; simpl; [constructor|].
  destruct (String.eqb _ _) eqn:Hname.
  - exists [], endpoint, l. repeat split. exact Hname.
  - destruct (findEndpoint endpointName setting api l) as [vs|].
    + destruct IH as (before & ep & after & -> & Hvs & Hep).
      exists (endpoint :: before), ep, after. repeat split; assumption.
    + by constructor.
Qed.

Lemma findInAPIs_spec (endpointName : string) (setting : APIGroupSetting)
    (l : list APISetting) :
  match findInAPIs endpointName setting l with
  | Some vs =>
      exists api endpoint,
        In api l /\ In endpoint (elems (EndpointList api))
        /\ answersTo api endpoint endpointName = true
        /\ vs = settingsOf setting api endpoint
  | None =>
      forall api endpoint,
        In api l -> In endpoint (elems (EndpointList api)) ->
        answersTo api endpoint endpointName = false
  end.
Proof.
  induction l as [|api l IH]; simpl; [intros ? ? []|].
  pose proof (findEndpoint_spec endpointName setting api (elems (EndpointList api))) as Hep.
  destruct (GoStrings.Contains _ _) eqn:Hbase.
  - destruct (findEndpoint endpointName setting api (elems (EndpointList api))) as [vs|].
    + destruct Hep as (before & endpoint & after & Hl & -> & Hname).
      exists api, endpoint. repeat split; [by left| |].
      * rewrite Hl. apply in_or_app. right. by left.
      * unfold answersTo. by rewrite Hbase, Hname.
    + destruct (findInAPIs endpointName setting l) as [vs|].
      * destruct IH as (api' & endpoint & Hin & Hrest). exists api', endpoint.
        split; [by right|exact Hrest].
      * intros api' endpoint [<-|Hin] Hendpoint; [|by apply IH].
        unfold answersTo. rewrite Hbase. simpl.
        exact (proj1 (List.Forall_forall _ _) Hep endpoint Hendpoint).
  - destruct (findInAPIs endpointName setting l) as [vs|].
    + destruct IH as (api' & endpoint & Hin & Hrest). exists api', endpoint.
      split; [by right|exact Hrest].
    + intros api' endpoint [<-|Hin] Hendpoint; [|by apply IH].
      unfold answersTo. by rewrite Hbase.
Qed.

Lemma findInGroups_spec (endpointName : string) (l : list APIGroupSetting) :
  match findInGroups endpointName l with
  | Some vs =>
      exists setting api endpoint,
        In setting l /\ In api (APIList setting) /\ In endpoint (elems (EndpointList api))
        /\ answersTo api endpoint endpointName = true
        /\ vs = settingsOf setting api endpoint
  | None =>
      forall setting api endpoint,
        In setting l -> In api (APIList setting) -> In endpoint (elems (EndpointList api)) ->
        answersTo api endpoint endpointName = false
  end.
Proof.
  induction l as [|setting l IH]; simpl; [intros ? ? ? []|].
  pose proof (findInAPIs_spec endpointName setting (APIList setting)) as Hapis.
  destruct (findInAPIs endpointName setting (APIList setting)) as [vs|].
  - destruct Hapis as (api & endpoint & Hrest). exists setting, api, endpoint.
    split; [by left|exact Hrest].
  - destruct (findInGroups endpointName l) as [vs|].
    + destruct IH as (setting' & api & endpoint & Hin & Hrest).
      exists setting', api, endpoint. split; [by right|exact Hrest].
    + intros setting' api endpoint [<-|Hin]; [apply Hapis|by apply IH].
Qed.

(** X18.  [GetEndpointSettingFromAPI] resolves a name exactly when some
    endpoint of some API of some group of the catalog answers to it: the
    name contains the base of the API and, trimmed and in lower case, is the
    base followed by the endpoint.  The settings it returns are those of
    such an endpoint, with the group, name, version and base path of its
    API. *)
Theorem GetEndpointSettingFromAPI_spec (cm : ConfigurationManager) (endpointName : string) :
  match GetEndpointSettingFromAPI cm endpointName with
  | Some vs =>
      exists setting api endpoint,
        In setting (getAPIGroupSettings cm) /\ In api (APIList setting)
        /\ In endpoint (elems (EndpointList api))
        /\ answersTo api endpoint endpointName = true
        /\ vs = settingsOf setting api endpoint
  | None =>
      forall setting api endpoint,
        In setting (getAPIGroupSettings cm) -> In api (APIList setting) ->
        In endpoint (elems (EndpointList api)) ->
        answersTo api endpoint endpointName = false
  end.
Proof. apply findInGroups_spec. Qed.

End GetEndpointSettingFromAPI_facts.

(** ** The REST client: the requests of a call *)

Section executeGet_bound.
Import services.
Variable net : Network.
Variable url : string.

Lemma executeGet_from_events (retries sent : nat) :
  exists k,
    (k <= retries)%nat
    /\ (executeGet_from net url retries sent).2 = retryEvents url k
    /\ (forall i, (i < k)%nat -> retryable (net (sent + i)%nat) = true)
    /\ ((k < retries)%nat -> retryable (net (sent + k)%nat) = false).
Proof.
  revert sent. induction retries as [|retries IH]; intros sent.
  - exists O. split; [lia|]. split; [|split; intros; lia]. simpl.
    destruct (net sent) as [err|code Body]; [reflexivity|].
    destruct (code =? StatusForbidden); [reflexivity|].
    destruct (negb (code =? StatusOK)); [reflexivity|].
    destruct Body as [err|content]; [reflexivity|].
    by destruct (GoStrings.Contains content "NoSuchKey").
  - destruct (retryable (net sent)) eqn:Hretry.
    + destruct (IH (S sent)) as (k & Hk & Hevents & Hbefore & Hstop).
      exists (S k). split; [lia|]. split; [|split].
      * simpl. unfold retryable in Hretry.
        destruct (net sent) as [err|code Body].
        -- destruct (executeGet_from net url retries (S sent)) as [res evs].
           simpl in *. by rewrite Hevents.
        -- apply andb_true_iff in Hretry as [Hforbidden Hok].
           apply negb_true_iff in Hforbidden. rewrite Hforbidden, Hok.
           destruct (executeGet_from net url retries (S sent)) as [res evs].
           simpl in *. by rewrite Hevents.
      * intros [|i] Hi; [by rewrite Nat.add_0_r|].
        replace (sent + S i)%nat with (S sent + i)%nat by lia. apply Hbefore. lia.
      * intros Hlt. replace (sent + S k)%nat with (S sent + k)%nat by lia.
        apply Hstop. lia.
    + exists O. split; [lia|]. split; [|split; [intros; lia|]].
      * simpl. unfold retryable in Hretry.
        destruct (net sent) as [err|code Body]; [discriminate|].
        destruct (code =? StatusForbidden) eqn:Hforbidden; [reflexivity|].
        simpl in Hretry. rewrite Hretry.
        destruct Body as [err|content]; [reflexivity|].
        by destruct (GoStrings.Contains content "NoSuchKey").
      * intros _. by rewrite Nat.add_0_r.
Qed.

(** X19.  Whatever the network answers, a call of [executeGet] sends at
    most [retryTimes] + 1 requests (one when [retryTimes] is zero or
    negative), all to the same address, and sleeps one second between two
    requests and at no other time.  Every request but the last met an error
    of the transport or a status other than 200 and 403, and the call stops
    before its retries are used up only on another outcome. *)
Theorem executeGet_requests (retryTimes : Z) (sent : nat) :
  exists k,
    (k <= Z.to_nat retryTimes)%nat
    /\ (executeGet net url retryTimes sent).2 = retryEvents url k
    /\ (forall i, (i < k)%nat -> retryable (net (sent + i)%nat) = true)
    /\ ((k < Z.to_nat retryTimes)%nat -> retryable (net (sent + k)%nat) = false)
    /\ (retryTimes <= 0 -> k = O).
Proof.
  destruct (executeGet_from_events (Z.to_nat retryTimes) sent)
    as (k & Hk & Hevents & Hbefore & Hstop).
  exists k. split; [exact Hk|]. split; [exact Hevents|]. split; [exact Hbefore|].
  split; [exact Hstop|]. intros Hneg. lia.
Qed.

End executeGet_bound.

(** ** The local settings after [validateSettings] *)

(** The tests of the goal, innermost first. *)
Ltac destruct_tests :=
  repeat match goal with
  | |- context [if ?b then _ else _] =>
      lazymatch b with
      | context [if _ then _ else _] => fail
      | _ => destruct b eqn:?; simpl
      end
  end.

(** What the outcome of a test says, as a proposition. *)
Ltac bool_facts :=
  repeat match goal with
  | H : orb _ _ = true |- _ => apply orb_true_iff in H
  | H : orb _ _ = false |- _ => apply orb_false_iff in H; destruct H
  | H : andb _ _ = true |- _ => apply andb_true_iff in H; destruct H
  | H : andb _ _ = false |- _ => apply andb_false_iff in H
  | H : negb _ = true |- _ => apply negb_true_iff in H
  | H : negb _ = false |- _ => apply negb_false_iff in H
  | H : Z.ltb _ _ = true |- _ => apply Z.ltb_lt in H
  | H : Z.ltb _ _ = false |- _ => apply Z.ltb_ge in H
  | H : Z.leb _ _ = true |- _ => apply Z.leb_le in H
  | H : Z.leb _ _ = false |- _ => apply Z.leb_gt in H
  | H : Z.eqb _ _ = true |- _ => apply Z.eqb_eq in H
  | H : Z.eqb _ _ = false |- _ => apply Z.eqb_neq in H
  end.

Section validateSettings_ranges.
Import configuration.
Context `{!UUID}.
Variable notExist : string -> bool.

Lemma validateResultSettings_ranges (s : Settings) :
  1 <= FilesPerDay (s_ResultSettings (validateResultSettings s)) <= 24
  /\ 1 <= SamplesPerError (s_ResultSettings (validateResultSettings s)) <= 10
  /\ Enabled (s_ResultSettings (validateResultSettings s)) = Enabled (s_ResultSettings s)
  /\ s_ReportSettings (validateResultSettings s) = s_ReportSettings s
  /\ s_ApplicationSettings (validateResultSettings s) = s_ApplicationSettings s.
Proof.
  unfold validateResultSettings, set_ResultSettings, set_FilesPerDay, set_SamplesPerError;
    cbv zeta.
  destruct_tests; simpl; bool_facts; repeat split; try reflexivity; lia.
Qed.

Lemma validateSettings_checks (s s' : Settings) (isValid : bool) :
  validateSettings notExist s = inr (isValid, s') ->
  exists s0,
    s' = validateResultSettings s0
    /\ s_ApplicationSettings s0 = s_ApplicationSettings s
    /\ s_ResultSettings s0 = s_ResultSettings s
    /\ ExecutionWindow (s_ReportSettings s0)
       = (if (0 <=? ExecutionWindow (s_ReportSettings s))
             && (ExecutionWindow (s_ReportSettings s) <=? 60)
          then ExecutionWindow (s_ReportSettings s) else 0)
    /\ ExecutionNumber (s_ReportSettings s0)
       = (if (10000 <=? ExecutionNumber (s_ReportSettings s))
             && (ExecutionNumber (s_ReportSettings s) <=? 200000)
          then ExecutionNumber (s_ReportSettings s) else 0)
    /\ isValid
       = (String.eqb (Mode (s_ApplicationSettings s)) transmitterMode
          || String.eqb (Mode (s_ApplicationSettings s)) receiverMode)
         && uuid_Parse_ok (OrganisationID (s_ApplicationSettings s)).
Proof.
  unfold validateSettings, validateHTTPSCertificates, set_ReportSettings, set_SecuritySettings,
    set_ExecutionWindow, set_ExecutionNumber, set_KeyFilePath, set_CertFilePath; cbv zeta.
  destruct (String.eqb (Mode (s_ApplicationSettings s)) transmitterMode),
    (String.eqb (Mode (s_ApplicationSettings s)) receiverMode),
    (uuid_Parse_ok (OrganisationID (s_ApplicationSettings s))); simpl;
  destruct_tests; try discriminate; intros [= <- <-];
  (eexists; split; [reflexivity|]); simpl;
  (split; [reflexivity|]); (split; [reflexivity|]);
  bool_facts;
  repeat match goal with
  | |- context [Z.leb ?a ?b] => destruct (Z.leb_spec a b); simpl
  end;
  repeat split; try reflexivity; lia.
Qed.

(** X20.  When [validateSettings] returns, the settings it leaves have
    [FilesPerDay] in 1..24, [SamplesPerError] in 1..10, a report window in
    0..60 and a report number that is 0 or in 10000..200000, whatever the
    file and the environment gave; the application settings are untouched,
    and the returned flag holds exactly when the mode is TRANSMITTER or
    RECEIVER and the organisation parses as UUID. *)
Theorem validateSettings_ranges (s s' : Settings) (isValid : bool) :
  validateSettings notExist s = inr (isValid, s') ->
  (1 <= FilesPerDay (s_ResultSettings s') <= 24
   /\ 1 <= SamplesPerError (s_ResultSettings s') <= 10
   /\ 0 <= ExecutionWindow (s_ReportSettings s') <= 60
   /\ (ExecutionNumber (s_ReportSettings s') = 0
       \/ 10000 <= ExecutionNumber (s_ReportSettings s') <= 200000))
  /\ s_ApplicationSettings s' = s_ApplicationSettings s
  /\ (isValid = true
      <-> (Mode (s_ApplicationSettings s) = "TRANSMITTER"
           \/ Mode (s_ApplicationSettings s) = "RECEIVER")
          /\ uuid_Parse_ok (OrganisationID (s_ApplicationSettings s)) = true).
Proof.
  intros Hrun.
  destruct (validateSettings_checks _ _ _ Hrun)
    as (s0 & -> & Happ & _ & Hwindow & Hnumber & ->).
  destruct (validateResultSettings_ranges s0) as (Hfiles & Hsamples & _ & Hreport & Happ').
  rewrite Hreport, Happ', Happ, Hwindow, Hnumber.
  split; [|split; [reflexivity|]].
  - split; [exact Hfiles|]. split; [exact Hsamples|].
    split; destruct_tests; bool_facts; lia.
  - rewrite andb_true_iff, orb_true_iff, !String.eqb_eq. reflexivity.
Qed.

End validateSettings_ranges.

Section validated_manager.
Import configuration.
Context `{!UUID}.
Variable notExist : string -> bool.

(** X21.  With the local settings as [validateSettings] leaves them,
    [startStoreProcess] does not panic: it returns at once when the local
    results are disabled, and otherwise the window between two calls of
    [storeFiles] is 24 hours divided by [FilesPerDay], between 1 and 24
    hours. *)
Theorem startStoreProcess_after_validateSettings (cm : ConfigurationManager) (s : Settings)
    (isValid : bool) :
  validateSettings notExist s = inr (isValid, cm_settings cm) ->
  startStoreProcess cm
  = inr (if Enabled (s_ResultSettings s)
         then Some (24 / FilesPerDay (s_ResultSettings (cm_settings cm)))
         else None)
  /\ 1 <= 24 / FilesPerDay (s_ResultSettings (cm_settings cm)) <= 24.
Proof.
  intros Hrun.
  destruct (validateSettings_checks notExist _ _ _ Hrun) as (s0 & Hs' & _ & Hresult & _).
  destruct (validateResultSettings_ranges s0) as (Hfiles & _ & Henabled & _).
  rewrite <- Hs' in Hfiles, Henabled. rewrite Hresult in Henabled.
  assert (Hwindow : 1 <= 24 / FilesPerDay (s_ResultSettings (cm_settings cm)) <= 24).
  { split.
    - apply Z.div_le_lower_bound; lia.
    - apply Z.div_le_upper_bound; lia. }
  split; [|exact Hwindow].
  unfold startStoreProcess; cbv zeta. rewrite Henabled.
  destruct (Enabled (s_ResultSettings s)); simpl; [|reflexivity].
  destruct (Z.eqb_spec (FilesPerDay (s_ResultSettings (cm_settings cm))) 0) as [He|_]; [lia|].
  rewrite Z.quot_div_nonneg by lia.
  destruct (Z.eqb_spec (24 / FilesPerDay (s_ResultSettings (cm_settings cm))) 0) as [He|_];
    [lia|reflexivity].
Qed.

(** X22.  With the local settings as [validateSettings] leaves them, the
    report window is the local one when that was given in 1..60 and the one
    of the catalog otherwise, and the report number is the local one when
    that was given in 10000..200000 and the one of the catalog otherwise: a
    local value out of range falls back to the catalog. *)
Theorem report_settings_after_validateSettings (cm : ConfigurationManager) (s : Settings)
    (isValid : bool) :
  validateSettings notExist s = inr (isValid, cm_settings cm) ->
  GetReportExecutionWindow cm
  = (if (1 <=? ExecutionWindow (s_ReportSettings s))
        && (ExecutionWindow (s_ReportSettings s) <=? 60)
     then ExecutionWindow (s_ReportSettings s)
     else ReportExecutionWindow (cs_ReportSettings (cm_ConfigurationSettings cm)))
  /\ GetSendOnReportNumber cm
     = (if (10000 <=? ExecutionNumber (s_ReportSettings s))
           && (ExecutionNumber (s_ReportSettings s) <=? 200000)
        then ExecutionNumber (s_ReportSettings s)
        else SendOnReportNumber (cs_ReportSettings (cm_ConfigurationSettings cm))).
Proof.
  intros Hrun.
  destruct (validateSettings_checks notExist _ _ _ Hrun)
    as (s0 & Hs' & _ & _ & Hwindow & Hnumber & _).
  destruct (validateResultSettings_ranges s0) as (_ & _ & _ & Hreport & _).
  rewrite <- Hs' in Hreport. unfold GetReportExecutionWindow, GetSendOnReportNumber.
  rewrite Hreport, Hwindow, Hnumber.
  split;
    repeat match goal with
    | |- context [Z.leb ?a ?b] => destruct (Z.leb_spec a b); simpl
    | |- context [Z.ltb ?a ?b] => destruct (Z.ltb_spec a b); simpl
    end; try reflexivity; lia.
Qed.

End validated_manager.

Lemma validateSettings_ranges_witness :
  let s' := configuration.set_ResultSettings (configuration.set_SamplesPerError 7)
              fixtures.settings in
  @configuration.validateSettings fixtures.canonical_UUID (fun _ => true) fixtures.settings
  = inr (true, s')
  /\ 1 <= configuration.FilesPerDay (configuration.s_ResultSettings s') <= 24
  /\ 1 <= configuration.SamplesPerError (configuration.s_ResultSettings s') <= 10.
Proof.
  cbv zeta.
  assert (Hrun : @configuration.validateSettings fixtures.canonical_UUID (fun _ => true)
                   fixtures.settings
                 = inr (true, configuration.set_ResultSettings
                                (configuration.set_SamplesPerError 7) fixtures.settings))
    by (vm_compute; reflexivity).
  split; [exact Hrun|].
  destruct (@validateSettings_ranges fixtures.canonical_UUID (fun _ => true) _ _ _ Hrun)
    as ((Hfiles & Hsamples & _) & _).
  split; [exact Hfiles|exact Hsamples].
Defined.

Lemma startStoreProcess_after_validateSettings_witness :
  @configuration.validateSettings fixtures.canonical_UUID (fun _ => true) fixtures.settings
  = inr (true, cm_settings fixtures.validated_manager)
  /\ startStoreProcess fixtures.validated_manager = inr (Some 3).
Proof.
  assert (Hrun : @configuration.validateSettings fixtures.canonical_UUID (fun _ => true)
                   fixtures.settings
                 = inr (true, cm_settings fixtures.validated_manager))
    by (vm_compute; reflexivity).
  split; [exact Hrun|].
  exact (proj1 (@startStoreProcess_after_validateSettings fixtures.canonical_UUID
                  (fun _ => true) fixtures.validated_manager _ _ Hrun)).
Defined.

Lemma report_settings_after_validateSettings_witness :
  @configuration.validateSettings fixtures.canonical_UUID (fun _ => true) fixtures.settings
  = inr (true, cm_settings fixtures.validated_manager)
  /\ GetReportExecutionWindow fixtures.validated_manager = 30
  /\ GetSendOnReportNumber fixtures.validated_manager = 10000.
Proof.
  assert (Hrun : @configuration.validateSettings fixtures.canonical_UUID (fun _ => true)
                   fixtures.settings
                 = inr (true, cm_settings fixtures.validated_manager))
    by (vm_compute; reflexivity).
  split; [exact Hrun|].
  exact (@report_settings_after_validateSettings fixtures.canonical_UUID (fun _ => true)
           fixtures.validated_manager _ _ Hrun).
Defined.

(** ** The local result manager: counts and samples *)

Lemma wrap64_small (z : Z) : - 2 ^ 63 <= z < 2 ^ 63 -> wrap64 z = z.
Proof. intros Hz. unfold wrap64. rewrite Z.mod_small; lia. Qed.

Section LocalResultManager_facts.
Context `{!GoStrings.Unicode} `{!json.Decoder}.

(** What the loops over the errors keep, from the counts [recorded0]: the
    counts stay within the cap, none goes down, and the flag is set exactly
    when one has gone up. *)
Lemma recordError_invariant (cap : Z) (prefix field validError : string)
    (recorded0 : gmap string Z) (acc : gmap string Z * bool) :
  cap < 2 ^ 63 ->
  withinSamples cap acc.1
  /\ (forall key, recordedCount recorded0 key <= recordedCount acc.1 key)
  /\ (if acc.2 then exists key, recordedCount recorded0 key < recordedCount acc.1 key
      else acc.1 = recorded0) ->
  let acc' := recordError cap prefix field acc validError in
  withinSamples cap acc'.1
  /\ (forall key, recordedCount recorded0 key <= recordedCount acc'.1 key)
  /\ (if acc'.2 then exists key, recordedCount recorded0 key < recordedCount acc'.1 key
      else acc'.1 = recorded0).
Proof.
  intros Hcap (Hwithin & Hmono & Hflag). cbv zeta. unfold recordError.
  set (errorKey := prefix +:+ "-" +:+ field +:+ "-" +:+ validError).
  destruct (Z.leb_spec cap (default 0 (acc.1 !! errorKey))) as [_|Hbelow];
    [exact (conj Hwithin (conj Hmono Hflag))|].
  assert (Hcount : 0 <= default 0 (acc.1 !! errorKey)).
  { destruct (acc.1 !! errorKey) as [count|] eqn:Hkey; simpl; [|lia].
    pose proof (Hwithin _ _ Hkey) as Hc. simpl in Hc. lia. }
  rewrite wrap64_small by lia. simpl. split; [|split].
  - apply map_Forall_insert_2; [lia|exact Hwithin].
  - intros key. unfold recordedCount.
    destruct (decide (key = errorKey)) as [->|Hne].
    + rewrite lookup_insert_eq. simpl. specialize (Hmono errorKey).
      unfold recordedCount in Hmono. lia.
    + rewrite lookup_insert_ne by congruence. apply Hmono.
  - exists errorKey. unfold recordedCount. rewrite lookup_insert_eq. simpl.
    specialize (Hmono errorKey). unfold recordedCount in Hmono. lia.
Qed.

Lemma recordErrors_invariant (cap : Z) (prefix : string) (errors : gmap string (list string))
    (recorded0 : gmap string Z) :
  cap < 2 ^ 63 ->
  withinSamples cap recorded0 ->
  let acc := recordErrors cap prefix errors recorded0 in
  withinSamples cap acc.1
  /\ (forall key, recordedCount recorded0 key <= recordedCount acc.1 key)
  /\ (if acc.2 then exists key, recordedCount recorded0 key < recordedCount acc.1 key
      else acc.1 = recorded0).
Proof.
  intros Hcap Hwithin. cbv zeta. unfold recordErrors.
  apply (map_fold_weak_ind
           (fun (acc : gmap string Z * bool) (_ : gmap string (list string)) =>
              withinSamples cap acc.1
              /\ (forall key, recordedCount recorded0 key <= recordedCount acc.1 key)
              /\ (if acc.2
                  then exists key, recordedCount recorded0 key < recordedCount acc.1 key
                  else acc.1 = recorded0))).
  - simpl. split; [exact Hwithin|]. split; [intros; lia|reflexivity].
  - intros field errorField _ acc _. revert acc.
    induction errorField as [|validError errorField IH]; intros acc Hacc; [exact Hacc|].
    simpl. apply IH. by apply recordError_invariant.
Qed.

(** X23.  The counts of the recorded errors stay within [SamplesPerError]:
    when every recorded error has between one and [SamplesPerError]
    occurrences, it is so after [AppendResult]; no count goes down; and the
    summary of the endpoint gets a sample exactly when the count of some
    error of the result has gone up. *)
Theorem lrm_AppendResult_sample_cap (cm : ConfigurationManager) (message : Message)
    (res : MessageResult) (settings : APIValidationSettings) (mng : LocalResultManager) :
  let cap := configuration.SamplesPerError (configuration.s_ResultSettings (cm_settings cm)) in
  let mng' := lrm_AppendResult cm message res settings mng in
  cap < 2 ^ 63 ->
  withinSamples cap (recordedErrors mng) ->
  withinSamples cap (recordedErrors mng')
  /\ (forall key, recordedCount (recordedErrors mng) key
                  <= recordedCount (recordedErrors mng') key)
  /\ ((exists key, recordedCount (recordedErrors mng) key
                   < recordedCount (recordedErrors mng') key)
      <-> exists summary',
            result mng' !! summaryKey settings = Some summary'
            /\ PayloadDetails summary'
               = PayloadDetails (default (newSummary settings)
                                         (result mng !! summaryKey settings))
                 ++ [sampleOf cm message res]).
Proof.
  cbv zeta. intros Hcap Hwithin. unfold lrm_AppendResult; cbv zeta.
  fold (summaryKey settings). fold (newSummary settings).
  destruct (configuration.Enabled _); simpl.
  2: { split; [exact Hwithin|]. split; [intros; lia|]. split.
       - intros (key & Hkey). lia.
       - intros (summary' & Hsummary & Hdetails).
         rewrite Hsummary in Hdetails. simpl in Hdetails.
         apply (f_equal (@length _)) in Hdetails. rewrite length_app in Hdetails.
         simpl in Hdetails. lia. }
  destruct (mr_Result res); simpl.
  { split; [exact Hwithin|]. split; [intros; lia|]. split.
    - intros (key & Hkey). lia.
    - intros (summary' & Hsummary & Hdetails).
      rewrite lookup_insert_eq in Hsummary. injection Hsummary as <-.
      simpl in Hdetails. apply (f_equal (@length _)) in Hdetails.
      rewrite length_app in Hdetails. simpl in Hdetails. lia. }
  pose proof (recordErrors_invariant _ (summaryKey settings) (mr_Errors res) _ Hcap Hwithin)
    as Hloop. cbv zeta in Hloop.
  destruct (recordErrors _ (summaryKey settings) (mr_Errors res) (recordedErrors mng))
    as [recorded needToSaveSample].
  simpl in *. destruct Hloop as (Hwithin' & Hmono & Hflag).
  split; [exact Hwithin'|]. split; [exact Hmono|].
  destruct needToSaveSample.
  - split; [|intros _; exact Hflag].
    intros _. eexists. rewrite lookup_insert_eq. split; reflexivity.
  - subst recorded. split.
    + intros (key & Hkey). lia.
    + intros (summary' & Hsummary & Hdetails).
      rewrite lookup_insert_eq in Hsummary. injection Hsummary as <-.
      simpl in Hdetails. apply (f_equal (@length _)) in Hdetails.
      rewrite length_app in Hdetails. simpl in Hdetails. lia.
Qed.

(** X24.  With the local results disabled [AppendResult] changes nothing.
    Otherwise it writes the summary of the endpoint of the message and no
    other: the summary counts one more request, and one more request with
    errors when the result is not valid; its samples are those it had,
    followed at most by the sample of the message, whose payload is the
    decoded body with the attributes of the catalog masked; a valid result
    adds no sample and leaves the recorded errors as they were. *)
Theorem lrm_AppendResult_summary (cm : ConfigurationManager) (message : Message)
    (res : MessageResult) (settings : APIValidationSettings) (mng : LocalResultManager) :
  let mng' := lrm_AppendResult cm message res settings mng in
  let old := default (newSummary settings) (result mng !! summaryKey settings) in
  if configuration.Enabled (configuration.s_ResultSettings (cm_settings cm))
  then (forall key, key <> summaryKey settings -> result mng' !! key = result mng !! key)
       /\ exists summary',
            result mng' !! summaryKey settings = Some summary'
            /\ EndpointName summary' = EndpointName old
            /\ Requests summary' = wrap64 (Requests old + 1)
            /\ RequestsWithErrors summary'
               = (if mr_Result res then RequestsWithErrors old
                  else wrap64 (RequestsWithErrors old + 1))
            /\ (PayloadDetails summary' = PayloadDetails old
                \/ mr_Result res = false
                   /\ PayloadDetails summary'
                      = PayloadDetails old ++ [sampleOf cm message res])
            /\ (mr_Result res = true ->
                PayloadDetails summary' = PayloadDetails old
                /\ recordedErrors mng' = recordedErrors mng)
  else mng' = mng.
Proof.
  cbv zeta. unfold lrm_AppendResult; cbv zeta.
  fold (summaryKey settings). fold (newSummary settings).
  destruct (configuration.Enabled _); simpl; [|reflexivity].
  destruct (mr_Result res); simpl.
  - split; [intros key Hkey; by rewrite lookup_insert_ne by congruence|].
    eexists. rewrite lookup_insert_eq. split; [reflexivity|]. simpl.
    repeat split; try reflexivity. by left.
  - destruct (recordErrors _ (summaryKey settings) (mr_Errors res) (recordedErrors mng))
      as [recorded needToSaveSample].
    simpl. split; [intros key Hkey; by rewrite lookup_insert_ne by congruence|].
    eexists. rewrite lookup_insert_eq. split; [reflexivity|]. simpl.
    split; [reflexivity|]. split; [reflexivity|]. split; [reflexivity|].
    split; [|intros Habs; discriminate Habs].
    destruct needToSaveSample; [right; split; reflexivity|by left].
Qed.

End LocalResultManager_facts.

(** A first invalid result for the endpoint of the catalog, with the cap of
    three samples for an error. *)
Lemma lrm_AppendResult_sample_cap_witness :
  let cm := fixtures.manager 100 in
  let mng := localResults (fixtures.process []) in
  let mng' :=
    @lrm_AppendResult fixtures.ascii_Unicode fixtures.two_documents cm (fixtures.message "{}")
      fixtures.invalid_result fixtures.accounts_settings mng in
  (configuration.SamplesPerError (configuration.s_ResultSettings (cm_settings cm)) < 2 ^ 63
   /\ withinSamples 3 (recordedErrors mng))
  /\ withinSamples 3 (recordedErrors mng')
  /\ recordedCount (recordedErrors mng')
       "open-data-accounts-/accounts-data.name-name is required" = 1.
Proof.
  cbv zeta.
  assert (Hcap : configuration.SamplesPerError
                   (configuration.s_ResultSettings (cm_settings (fixtures.manager 100)))
                 < 2 ^ 63) by (simpl; lia).
  assert (Hwithin : withinSamples 3 (recordedErrors (localResults (fixtures.process []))))
    by apply map_Forall_empty.
  split; [split; assumption|]. split; [|vm_compute; reflexivity].
  exact (proj1 (@lrm_AppendResult_sample_cap fixtures.ascii_Unicode fixtures.two_documents
                  (fixtures.manager 100) (fixtures.message "{}") fixtures.invalid_result
                  fixtures.accounts_settings (localResults (fixtures.process []))
                  Hcap Hwithin)).
Defined.

(** ** The summary of a report: the details of a field *)

Section updateFieldDetails_facts.
Variable xfapiID : string.

Lemma updateFieldDetail_types (details : list FieldDetail) (errorDetail : string) :
  map fd_ErrorType (updateFieldDetail xfapiID details errorDetail)
  = map fd_ErrorType details
    ++ (if existsb (fun fieldDetail => String.eqb (fd_ErrorType fieldDetail) errorDetail)
                   details
        then [] else [errorDetail]).
Proof.
  unfold updateFieldDetail; cbv zeta.
  assert (Hmap : forall l,
             map fd_ErrorType
               (map (fun fieldDetail =>
                       if String.eqb (fd_ErrorType fieldDetail) errorDetail
                       then {| fd_ErrorType := fd_ErrorType fieldDetail;
                               fd_XFapiList := fd_XFapiList fieldDetail ++ [xfapiID];
                               fd_TotalCount := wrap64 (fd_TotalCount fieldDetail + 1) |}
                       else fieldDetail) l)
             = map fd_ErrorType l).
  { induction l as [|fieldDetail l IH]; [reflexivity|]. simpl. rewrite IH.
    by destruct (String.eqb (fd_ErrorType fieldDetail) errorDetail). }
  destruct (existsb _ details); simpl.
  - by rewrite Hmap, app_nil_r.
  - by rewrite map_app, Hmap.
Qed.

Lemma existsb_type (details : list FieldDetail) (errorDetail : string) :
  existsb (fun fieldDetail => String.eqb (fd_ErrorType fieldDetail) errorDetail) details = true
  <-> In errorDetail (map fd_ErrorType details).
Proof.
  rewrite existsb_exists, in_map_iff. split.
  - intros (fieldDetail & Hin & Heq). apply String.eqb_eq in Heq. by exists fieldDetail.
  - intros (fieldDetail & Heq & Hin). exists fieldDetail. split; [exact Hin|].
    by apply String.eqb_eq.
Qed.

Lemma updateFieldDetail_wellCounted (details : list FieldDetail) (errorDetail : string) :
  wellCounted details -> wellCounted (updateFieldDetail xfapiID details errorDetail).
Proof.
  intros [Hnodup Hcounts]. split.
  - rewrite updateFieldDetail_types.
    destruct (existsb _ details) eqn:Hfound; [by rewrite app_nil_r|].
    apply NoDup_app. split; [exact Hnodup|]. split; [|apply NoDup_singleton].
    intros e He Hlast. apply list_elem_of_singleton in Hlast as ->.
    apply list_elem_of_In, existsb_type in He. congruence.
  - unfold updateFieldDetail; cbv zeta.
    assert (Hmap : Forall (fun fieldDetail =>
                             fd_TotalCount fieldDetail
                             = wrap64 (Z.of_nat (length (fd_XFapiList fieldDetail))))
                     (map (fun fieldDetail =>
                             if String.eqb (fd_ErrorType fieldDetail) errorDetail
                             then {| fd_ErrorType := fd_ErrorType fieldDetail;
                                     fd_XFapiList := fd_XFapiList fieldDetail ++ [xfapiID];
                                     fd_TotalCount := wrap64 (fd_TotalCount fieldDetail + 1) |}
                             else fieldDetail) details)).
    { induction Hcounts as [|fieldDetail l Hcount _ IH]; simpl; [constructor|].
      inversion Hnodup; subst. constructor; [|by apply IH].
      destruct (String.eqb (fd_ErrorType fieldDetail) errorDetail); [|exact Hcount].
      simpl. rewrite Hcount, wrap64_add_l, length_app. simpl. f_equal. lia. }
    destruct (negb _); [|exact Hmap].
    apply Forall_app. split; [exact Hmap|]. by repeat constructor.
Qed.

(** An error type that has a detail ending with the identifier keeps one,
    and a detail is never lost: its identifiers are a beginning of those of
    a detail of its type. *)
Lemma updateFieldDetail_keeps (details : list FieldDetail) (errorDetail : string)
    (fieldDetail : FieldDetail) :
  In fieldDetail details ->
  exists fieldDetail',
    In fieldDetail' (updateFieldDetail xfapiID details errorDetail)
    /\ fd_ErrorType fieldDetail' = fd_ErrorType fieldDetail
    /\ fd_XFapiList fieldDetail `prefix_of` fd_XFapiList fieldDetail'
    /\ (last (fd_XFapiList fieldDetail) = Some xfapiID ->
        last (fd_XFapiList fieldDetail') = Some xfapiID)
    /\ (fd_ErrorType fieldDetail = errorDetail ->
        last (fd_XFapiList fieldDetail') = Some xfapiID).
Proof.
  intros Hin. unfold updateFieldDetail; cbv zeta.
  set (update := fun fieldDetail0 : FieldDetail =>
                   if String.eqb (fd_ErrorType fieldDetail0) errorDetail
                   then {| fd_ErrorType := fd_ErrorType fieldDetail0;
                           fd_XFapiList := fd_XFapiList fieldDetail0 ++ [xfapiID];
                           fd_TotalCount := wrap64 (fd_TotalCount fieldDetail0 + 1) |}
                   else fieldDetail0).
  exists (update fieldDetail). split.
  - destruct (negb _); [apply in_or_app; left|]; by apply in_map.
  - unfold update.
    destruct (String.eqb_spec (fd_ErrorType fieldDetail) errorDetail) as [He|Hne]; simpl.
    + split; [reflexivity|]. split; [by apply prefix_app_r|].
      split; intros _; apply last_snoc.
    + split; [reflexivity|]. split; [reflexivity|]. split; [auto|]. intros He. contradiction.
Qed.

Lemma updateFieldDetail_records (details : list FieldDetail) (errorDetail : string) :
  exists fieldDetail,
    In fieldDetail (updateFieldDetail xfapiID details errorDetail)
    /\ fd_ErrorType fieldDetail = errorDetail
    /\ last (fd_XFapiList fieldDetail) = Some xfapiID.
Proof.
  destruct (existsb (fun fieldDetail => String.eqb (fd_ErrorType fieldDetail) errorDetail)
                    details) eqn:Hfound.
  - apply existsb_exists in Hfound as (fieldDetail & Hin & Heq).
    apply String.eqb_eq in Heq.
    destruct (updateFieldDetail_keeps details errorDetail fieldDetail Hin)
      as (fieldDetail' & Hin' & Htype & _ & _ & Hlast).
    exists fieldDetail'. split; [exact Hin'|]. split; [congruence|by apply Hlast].
  - unfold updateFieldDetail; cbv zeta. rewrite Hfound. simpl.
    eexists. split; [apply in_or_app; right; by left|]. split; reflexivity.
Qed.

(** X25.  [updateFieldDetails] keeps the details of a field well counted:
    no two details have the same error type and the count of each is the
    number of interaction identifiers it lists.  After the call every
    description has a detail of its type whose last identifier is the one of
    the call, and no detail is lost: the identifiers it had are a beginning
    of those of the detail of its type. *)
Theorem updateFieldDetails_wellCounted (details : list FieldDetail)
    (fieldDetails : list string) :
  wellCounted details ->
  wellCounted (updateFieldDetails details fieldDetails xfapiID)
  /\ (forall errorDetail,
        In errorDetail fieldDetails ->
        exists fieldDetail,
          In fieldDetail (updateFieldDetails details fieldDetails xfapiID)
          /\ fd_ErrorType fieldDetail = errorDetail
          /\ last (fd_XFapiList fieldDetail) = Some xfapiID)
  /\ (forall fieldDetail,
        In fieldDetail details ->
        exists fieldDetail',
          In fieldDetail' (updateFieldDetails details fieldDetails xfapiID)
          /\ fd_ErrorType fieldDetail' = fd_ErrorType fieldDetail
          /\ fd_XFapiList fieldDetail `prefix_of` fd_XFapiList fieldDetail').
Proof.
  unfold updateFieldDetails. revert details.
  induction fieldDetails as [|errorDetail fieldDetails IH]; intros details Hwell; simpl.
  - split; [exact Hwell|]. split; [intros ? []|].
    intros fieldDetail Hin. exists fieldDetail. by repeat split.
  - destruct (IH _ (updateFieldDetail_wellCounted details errorDetail Hwell))
      as (Hwell' & Hrecorded & Hkept).
    split; [exact Hwell'|]. split.
    + intros e [<-|Hin]; [|by apply Hrecorded].
      destruct (updateFieldDetail_records details errorDetail)
        as (fieldDetail & Hin & Htype & Hlast).
      clear Hrecorded Hwell Hwell'. revert fieldDetail Hin Htype Hlast.
      generalize (updateFieldDetail xfapiID details errorDetail). clear IH Hkept.
      induction fieldDetails as [|e fieldDetails IH]; intros l fieldDetail Hin Htype Hlast;
        simpl; [by exists fieldDetail|].
      destruct (updateFieldDetail_keeps l e fieldDetail Hin)
        as (fieldDetail' & Hin' & Htype' & _ & Hlast' & _).
      apply (IH _ fieldDetail' Hin'); [congruence|by apply Hlast'].
    + intros fieldDetail Hin.
      destruct (updateFieldDetail_keeps details errorDetail fieldDetail Hin)
        as (fieldDetail1 & Hin1 & Htype1 & Hprefix1 & _).
      destruct (Hkept fieldDetail1 Hin1) as (fieldDetail' & Hin' & Htype' & Hprefix').
      exists fieldDetail'. split; [exact Hin'|]. split; [congruence|].
      by transitivity (fd_XFapiList fieldDetail1).
Qed.

End updateFieldDetails_facts.

(** The same description twice, for a field without details. *)
Lemma updateFieldDetails_wellCounted_witness :
  wellCounted []
  /\ wellCounted (updateFieldDetails [] ["name is required"; "name is required"]
                    "22222222-2222-2222-2222-222222222222")
  /\ map fd_TotalCount (updateFieldDetails [] ["name is required"; "name is required"]
                          "22222222-2222-2222-2222-222222222222") = [2].
Proof.
  assert (Hwell : wellCounted []) by (split; constructor).
  split; [exact Hwell|]. split; [|vm_compute; reflexivity].
  exact (proj1 (updateFieldDetails_wellCounted "22222222-2222-2222-2222-222222222222" []
                  ["name is required"; "name is required"] Hwell)).
Defined.

(** ** The summary of a report: servers and endpoints *)

Lemma requestsOf_snoc (endpoint : string) (results : list MessageResult)
    (res : MessageResult) :
  requestsOf endpoint (results ++ [res])
  = requestsOf endpoint results + (if String.eqb (mr_Endpoint res) endpoint then 1 else 0).
Proof.
  unfold requestsOf. rewrite List.filter_app, length_app. simpl.
  destruct (String.eqb (mr_Endpoint res) endpoint); simpl; lia.
Qed.

Lemma errorsOf_snoc (endpoint : string) (results : list MessageResult) (res : MessageResult) :
  errorsOf endpoint (results ++ [res])
  = errorsOf endpoint results
    + (if String.eqb (mr_Endpoint res) endpoint && negb (mr_Result res) then 1 else 0).
Proof.
  unfold errorsOf. rewrite List.filter_app, length_app. simpl.
  destruct (String.eqb (mr_Endpoint res) endpoint && negb (mr_Result res)); simpl; lia.
Qed.

Lemma requestsOf_absent (endpoint : string) (results : list MessageResult) :
  ~ In endpoint (map mr_Endpoint results) ->
  requestsOf endpoint results = 0 /\ errorsOf endpoint results = 0.
Proof.
  intros Habsent. unfold requestsOf, errorsOf.
  induction results as [|res results IH]; [by split|].
  simpl in *. destruct (String.eqb_spec (mr_Endpoint res) endpoint) as [He|_]; simpl.
  - exfalso. apply Habsent. by left.
  - apply IH. intros Hin. apply Habsent. by right.
Qed.

Section getSummary_facts.
Variable errorsOrder : gmap string (list string) -> list (string * list string).
Variable serversOrder : gmap string (list MessageResult) -> list (string * list MessageResult).

(** The update of the summary of the endpoint of a result. *)
Lemma updateFirstEndpoint_names (res : MessageResult) (summary summary' : list EndPointSummary) :
  updateFirstEndpoint errorsOrder res summary = Some summary' ->
  map es_EndpointName summary' = map es_EndpointName summary
  /\ In (mr_Endpoint res) (map es_EndpointName summary).
Proof.
  revert summary'. induction summary as [|ep summary IH]; intros summary'; simpl;
    [discriminate|].
  destruct (String.eqb_spec (es_EndpointName ep) (mr_Endpoint res)) as [He|Hne].
  - intros [= <-]. simpl. split; [reflexivity|by left].
  - destruct (updateFirstEndpoint errorsOrder res summary) as [rest|]; [|discriminate].
    simpl. intros [= <-]. destruct (IH rest eq_refl) as [Hnames Hin].
    simpl. split; [by rewrite Hnames|by right].
Qed.

Lemma updateFirstEndpoint_None (res : MessageResult) (summary : list EndPointSummary) :
  updateFirstEndpoint errorsOrder res summary = None ->
  ~ In (mr_Endpoint res) (map es_EndpointName summary).
Proof.
  induction summary as [|ep summary IH]; simpl; [tauto|].
  destruct (String.eqb_spec (es_EndpointName ep) (mr_Endpoint res)) as [He|Hne];
    [discriminate|].
  destruct (updateFirstEndpoint errorsOrder res summary); [discriminate|].
  intros _ [Hin|Hin]; [contradiction|by apply IH].
Qed.

(** Where no two summaries have the same endpoint, the update of the first
    summary of the endpoint leaves every summary of another endpoint as it
    was and counts the result in that of its endpoint. *)
Lemma updateFirstEndpoint_counts (res : MessageResult) (results : list MessageResult)
    (summary summary' : list EndPointSummary) :
  NoDup (map es_EndpointName summary) ->
  Forall (fun ep =>
            es_TotalRequests ep = wrap64 (requestsOf (es_EndpointName ep) results)
            /\ es_ValidationErrors ep = wrap64 (errorsOf (es_EndpointName ep) results))
         summary ->
  updateFirstEndpoint errorsOrder res summary = Some summary' ->
  Forall (fun ep =>
            es_TotalRequests ep = wrap64 (requestsOf (es_EndpointName ep) (results ++ [res]))
            /\ es_ValidationErrors ep
               = wrap64 (errorsOf (es_EndpointName ep) (results ++ [res])))
         summary'.
Proof.
  intros Hnodup Hcounts. revert summary'.
  induction Hcounts as [|ep summary [Htotal Herrors] Hrest IH]; intros summary'; simpl;
    [discriminate|].
  inversion Hnodup as [|? ? Hfirst Hnodup']; subst.
  destruct (String.eqb_spec (es_EndpointName ep) (mr_Endpoint res)) as [He|Hne].
  - intros [= <-]. constructor.
    + simpl. rewrite requestsOf_snoc, errorsOf_snoc, He, String.eqb_refl, Htotal, Herrors.
      simpl. rewrite He. split; [apply wrap64_add_l|].
      destruct (mr_Result res); simpl; [by rewrite Z.add_0_r|apply wrap64_add_l].
    + apply List.Forall_forall. intros ep' Hin.
      destruct (proj1 (List.Forall_forall _ _) Hrest ep' Hin) as [Htotal' Herrors'].
      assert (Hother : mr_Endpoint res <> es_EndpointName ep').
      { intros Heq. apply Hfirst. rewrite He, Heq. apply list_elem_of_In. by apply in_map. }
      rewrite requestsOf_snoc, errorsOf_snoc.
      destruct (String.eqb_spec (mr_Endpoint res) (es_EndpointName ep')) as [Heq|_];
        [contradiction|].
      simpl. by rewrite !Z.add_0_r.
  - destruct (updateFirstEndpoint errorsOrder res summary) as [rest|]; [|discriminate].
    simpl. intros [= <-]. constructor; [|by apply IH].
    rewrite requestsOf_snoc, errorsOf_snoc.
    destruct (String.eqb_spec (mr_Endpoint res) (es_EndpointName ep)) as [He|_];
      [congruence|].
    simpl. by rewrite !Z.add_0_r.
Qed.

Lemma updateEndpointSummary_invariant (res : MessageResult) (results : list MessageResult)
    (summary : list EndPointSummary) :
  NoDup (map es_EndpointName summary)
  /\ (forall name, In name (map es_EndpointName summary) <-> In name (map mr_Endpoint results))
  /\ Forall (fun ep =>
               es_TotalRequests ep = wrap64 (requestsOf (es_EndpointName ep) results)
               /\ es_ValidationErrors ep = wrap64 (errorsOf (es_EndpointName ep) results))
            summary ->
  let summary' := updateEndpointSummary errorsOrder summary res in
  NoDup (map es_EndpointName summary')
  /\ (forall name, In name (map es_EndpointName summary')
                   <-> In name (map mr_Endpoint (results ++ [res])))
  /\ Forall (fun ep =>
               es_TotalRequests ep
               = wrap64 (requestsOf (es_EndpointName ep) (results ++ [res]))
               /\ es_ValidationErrors ep
                  = wrap64 (errorsOf (es_EndpointName ep) (results ++ [res])))
            summary'.
Proof.
  intros (Hnodup & Hnames & Hcounts). cbv zeta. unfold updateEndpointSummary.
  destruct (updateFirstEndpoint errorsOrder res summary) as [summary'|] eqn:Hupdate.
  - destruct (updateFirstEndpoint_names _ _ _ Hupdate) as [Hsame Hin].
    rewrite Hsame. split; [exact Hnodup|]. split.
    + intros name. rewrite map_app, in_app_iff, <- Hnames. simpl. split; [auto|].
      intros [Hname|[<-|[]]]; [exact Hname|exact Hin].
    + by apply (updateFirstEndpoint_counts res results summary).
  - apply updateFirstEndpoint_None in Hupdate.
    assert (Habsent : ~ In (mr_Endpoint res) (map mr_Endpoint results))
      by (by rewrite <- Hnames).
    destruct (requestsOf_absent _ _ Habsent) as [Hzero Hzero'].
    rewrite map_app. simpl. split; [|split].
    + apply NoDup_app. split; [exact Hnodup|]. split; [|apply NoDup_singleton].
      intros name Hname Hlast. apply list_elem_of_singleton in Hlast as ->.
      by apply list_elem_of_In in Hname.
    + intros name. rewrite map_app, !in_app_iff, <- Hnames. reflexivity.
    + apply Forall_app. split.
      * apply List.Forall_forall. intros ep Hin.
        destruct (proj1 (List.Forall_forall _ _) Hcounts ep Hin) as [Htotal Herrors].
        assert (Hother : mr_Endpoint res <> es_EndpointName ep).
        { intros Heq. apply Hupdate. rewrite Heq. by apply in_map. }
        rewrite requestsOf_snoc, errorsOf_snoc.
        destruct (String.eqb_spec (mr_Endpoint res) (es_EndpointName ep)) as [Heq|_];
          [contradiction|].
        simpl. by rewrite !Z.add_0_r.
      * constructor; [|constructor]. simpl.
        rewrite requestsOf_snoc, errorsOf_snoc, String.eqb_refl, Hzero, Hzero'. simpl.
        split; [reflexivity|]. by destruct (mr_Result res).
Qed.

Lemma fold_updateEndpointSummary_invariant (later results : list MessageResult)
    (summary : list EndPointSummary) :
  NoDup (map es_EndpointName summary)
  /\ (forall name, In name (map es_EndpointName summary) <-> In name (map mr_Endpoint results))
  /\ Forall (fun ep =>
               es_TotalRequests ep = wrap64 (requestsOf (es_EndpointName ep) results)
               /\ es_ValidationErrors ep = wrap64 (errorsOf (es_EndpointName ep) results))
            summary ->
  let summary' := fold_left (updateEndpointSummary errorsOrder) later summary in
  NoDup (map es_EndpointName summary')
  /\ (forall name, In name (map es_EndpointName summary')
                   <-> In name (map mr_Endpoint (results ++ later)))
  /\ Forall (fun ep =>
               es_TotalRequests ep
               = wrap64 (requestsOf (es_EndpointName ep) (results ++ later))
               /\ es_ValidationErrors ep
                  = wrap64 (errorsOf (es_EndpointName ep) (results ++ later)))
            summary'.
Proof.
  revert results summary. induction later as [|res later IH]; intros results summary Hinv.
  - cbv zeta. simpl. by rewrite app_nil_r.
  - cbv zeta. simpl.
    replace (results ++ res :: later) with ((results ++ [res]) ++ later)
      by (by rewrite <- app_assoc).
    apply IH. by apply updateEndpointSummary_invariant.
Qed.

(** The summary of a server: its requests are counted, its endpoint
    summaries are those of the loop. *)
Lemma serverSummary_fold (results : list MessageResult) (server : string) (total : Z)
    (summary : list EndPointSummary) :
  fold_left (fun newSummary endpointResult =>
               {| ss_ServerID := ss_ServerID newSummary;
                  ss_TotalRequests := wrap64 (ss_TotalRequests newSummary + 1);
                  ss_EndpointSummary :=
                    updateEndpointSummary errorsOrder (ss_EndpointSummary newSummary)
                                          endpointResult |})
            results
            {| ss_ServerID := server; ss_TotalRequests := wrap64 total;
               ss_EndpointSummary := summary |}
  = {| ss_ServerID := server;
       ss_TotalRequests := wrap64 (total + Z.of_nat (length results));
       ss_EndpointSummary := fold_left (updateEndpointSummary errorsOrder) results summary |}.
Proof.
  revert total summary. induction results as [|res results IH]; intros total summary.
  - simpl. by rewrite Z.add_0_r.
  - cbn [fold_left ss_ServerID ss_TotalRequests ss_EndpointSummary].
    rewrite wrap64_add_l, IH. do 2 f_equal. rewrite length_cons. lia.
Qed.

(** X26.  [getSummary] makes one summary for each server of the table,
    in the order of the range.  The summary of a server counts its results;
    it has one endpoint summary for each endpoint among those results and
    none for another; the endpoint summary counts the results of the
    endpoint and, as validation errors, those of them that are not valid
    (all counts as 64-bit integers). *)
Theorem getSummary_counts (results : gmap string (list MessageResult)) :
  serversOrder results ≡ₚ map_to_list results ->
  let summary := getSummary errorsOrder serversOrder results in
  map ss_ServerID summary ≡ₚ map fst (map_to_list results)
  /\ forall serverSummary,
       In serverSummary summary ->
       exists serverResults,
         results !! ss_ServerID serverSummary = Some serverResults
         /\ ss_TotalRequests serverSummary = wrap64 (Z.of_nat (length serverResults))
         /\ NoDup (map es_EndpointName (ss_EndpointSummary serverSummary))
         /\ (forall name,
               In name (map es_EndpointName (ss_EndpointSummary serverSummary))
               <-> In name (map mr_Endpoint serverResults))
         /\ Forall (fun ep =>
                      es_TotalRequests ep
                      = wrap64 (requestsOf (es_EndpointName ep) serverResults)
                      /\ es_ValidationErrors ep
                         = wrap64 (errorsOf (es_EndpointName ep) serverResults))
                   (ss_EndpointSummary serverSummary).
Proof.
  intros Horder. cbv zeta. unfold getSummary.
  assert (Hsummary : forall entry,
             application.serverSummary errorsOrder entry
             = {| ss_ServerID := entry.1;
                  ss_TotalRequests := wrap64 (Z.of_nat (length entry.2));
                  ss_EndpointSummary :=
                    fold_left (updateEndpointSummary errorsOrder) entry.2 [] |}).
  { intros [server serverResults]. unfold application.serverSummary. simpl.
    change 0 with (wrap64 0) at 1. by rewrite serverSummary_fold. }
  split.
  - rewrite map_map. rewrite <- Horder. apply Permutation_refl'.
    apply map_ext. intros entry. by rewrite Hsummary.
  - intros s Hin. apply in_map_iff in Hin as ([server serverResults] & <- & Hentry).
    rewrite Hsummary. simpl. exists serverResults. split.
    + apply elem_of_map_to_list. rewrite <- Horder. by apply list_elem_of_In.
    + split; [reflexivity|].
      apply (fold_updateEndpointSummary_invariant serverResults [] []).
      split; [constructor|]. split; [reflexivity|constructor].
Qed.

End getSummary_facts.

(** A server with a valid and an invalid result for the same endpoint. *)
Lemma getSummary_counts_witness :
  let results : gmap string (list MessageResult) :=
    {[ "11111111-1111-1111-1111-111111111111"
       := [fixtures.valid_result; fixtures.invalid_result] ]} in
  map_to_list results ≡ₚ map_to_list results
  /\ map ss_ServerID (getSummary map_to_list map_to_list results)
     ≡ₚ map fst (map_to_list results)
  /\ map ss_TotalRequests (getSummary map_to_list map_to_list results) = [2]
  /\ map (fun s => map es_ValidationErrors (ss_EndpointSummary s))
         (getSummary map_to_list map_to_list results) = [[1]].
Proof.
  cbv zeta. split; [reflexivity|]. split; [|split; vm_compute; reflexivity].
  exact (proj1 (getSummary_counts map_to_list map_to_list
                  {[ "11111111-1111-1111-1111-111111111111"
                     := [fixtures.valid_result; fixtures.invalid_result] ]}
                  (Permutation_refl _))).
Defined.

(** ** The configuration manager: an update is all or nothing *)

Lemma forEach_Forall2 {A B} (f : A -> M B) (P : A -> B -> Prop) (l : list A) :
  (forall a w b w1, f a w = (inr b, w1) -> P a b) ->
  forall w bs w', forEach f l w = (inr bs, w') -> Forall2 P l bs.
Proof.
  intros Hf. induction l as [|a l IH]; intros w bs w'; simpl.
  - unfold ret. intros [= <- _]. constructor.
  - unfold bind at 1. destruct (f a w) as [[err|b] w1] eqn:Hfa; [discriminate|].
    unfold bind at 1. destruct (forEach f l w1) as [[err|bs'] w2] eqn:Hrest; [discriminate|].
    unfold ret. intros [= <- _]. constructor; [by eapply Hf|by eapply IH].
Qed.

Section updateConfiguration_facts.
Context `{!GoStrings.Unicode} `{!ReportServer} `{!json.Decoder}.

Lemma updateGroup_Group (current : option ConfigurationSettings) (newSet g' : APIGroupSetting)
    (w w' : Fetch) :
  updateGroup current newSet w = (inr g', w') ->
  Group g' = Group newSet /\ grp_BasePath g' = grp_BasePath newSet.
Proof.
  unfold updateGroup.
  destruct current as [old|];
    [destruct (GetGroupSetting (cs_ValidationSettings old) (Group newSet))|];
    unfold bind at 1; destruct (forEach _ _ w) as [[err|apis] w1]; try discriminate;
    unfold ret; intros [= <- _]; by split.
Qed.

(** What an update that ends without error keeps of the settings it was
    given: everything but the endpoint lists. *)
Lemma updateValidationSettings_keeps (current : option ConfigurationSettings)
    (newSettings cs' : ConfigurationSettings) (w w' : Fetch) :
  updateValidationSettings current newSettings w = (inr cs', w') ->
  cs_Version cs' = cs_Version newSettings
  /\ cs_ReportSettings cs' = cs_ReportSettings newSettings
  /\ cs_SecuritySettings cs' = cs_SecuritySettings newSettings
  /\ map Group (groupsOf cs') = map Group (groupsOf newSettings).
Proof.
  unfold updateValidationSettings. unfold bind at 1.
  destruct (forEach (updateGroup current) _ w) as [[err|groups] w1] eqn:Hrun; [discriminate|].
  unfold ret. intros [= <- _]. repeat split.
  unfold groupsOf. simpl.
  apply (forEach_Forall2 _ (fun g g' => Group g' = Group g)) in Hrun.
  - induction Hrun as [|g g' l l' Hg _ IH]; [reflexivity|]. simpl. by rewrite Hg, IH.
  - intros a w0 b w0' Hb. by apply updateGroup_Group in Hb as [Hg _].
Qed.

(** X27.  [updateConfiguration] records the time of the attempt and is all
    or nothing.  When it returns an error, the catalog and the date of the
    last update are as they were and the text of the error is among the
    update messages.  When it returns nil, either the server has the
    version the manager holds, and then nothing is requested and the
    catalog stays; or the manager holds a new catalog with the version, the
    report settings and the groups of the loaded one, whose attributes to
    mask are the loaded ones followed by [companyCnpj] (so that every key
    masked by the loaded settings is masked), the update is dated with the
    attempt, and the update messages are emptied. *)
Theorem updateConfiguration_all_or_nothing (now now' : Time)
    (loaded : error + ConfigurationSettings) (st : ManagerState) (w : Fetch) :
  let '(err, st', w') := updateConfiguration now now' loaded st w in
  let status := ms_configurationUpdateStatus st in
  let status' := ms_configurationUpdateStatus st' in
  LastExecutionDate status' = now
  /\ match err with
     | Some text =>
         ms_ConfigurationSettings st' = ms_ConfigurationSettings st
         /\ LastUpdatedDate status' = LastUpdatedDate status
         /\ (UpdateMessages status' !! now' = Some text
             \/ UpdateMessages status' !! now = Some text)
         /\ forall t, t <> now -> t <> now' ->
                      UpdateMessages status' !! t = UpdateMessages status !! t
     | None =>
         exists cs,
           loaded = inr cs
           /\ ((exists current,
                  ms_ConfigurationSettings st = Some current
                  /\ cs_Version cs = cs_Version current
                  /\ ms_ConfigurationSettings st' = ms_ConfigurationSettings st
                  /\ LastUpdatedDate status' = LastUpdatedDate status
                  /\ UpdateMessages status' = UpdateMessages status
                  /\ w' = w)
               \/ (exists new,
                     ms_ConfigurationSettings st' = Some new
                     /\ cs_Version new = cs_Version cs
                     /\ cs_ReportSettings new = cs_ReportSettings cs
                     /\ map Group (groupsOf new) = map Group (groupsOf cs)
                     /\ AttributesToMask (cs_SecuritySettings new)
                        = AttributesToMask (cs_SecuritySettings cs) ++ ["companyCnpj"]
                     /\ (forall key,
                           HaveToMask (cs_SecuritySettings new) key
                           = HaveToMask (cs_SecuritySettings cs) key
                             || GoStrings.EqualFold "companyCnpj" key)
                     /\ LastUpdatedDate status' = now
                     /\ UpdateMessages status' = ∅))
     end.
Proof.
  unfold updateConfiguration; cbv zeta.
  destruct loaded as [text|cs]; simpl.
  { split; [reflexivity|]. split; [reflexivity|]. split; [reflexivity|].
    split; [left; apply lookup_insert_eq|].
    intros t _ Ht. by rewrite lookup_insert_ne by congruence. }
  destruct (match ms_ConfigurationSettings st with
            | Some current => String.eqb (cs_Version cs) (cs_Version current)
            | None => false
            end) eqn:Hsame; simpl.
  { split; [reflexivity|]. exists cs. split; [reflexivity|]. left.
    destruct (ms_ConfigurationSettings st) as [current|]; [|discriminate].
    exists current. apply String.eqb_eq in Hsame. by repeat split. }
  destruct (updateValidationSettings (ms_ConfigurationSettings st) cs w)
    as [[text|cs'] w'] eqn:Hrun; simpl.
  { split; [reflexivity|]. split; [reflexivity|]. split; [reflexivity|].
    split; [right; apply lookup_insert_eq|].
    intros t Ht _. by rewrite lookup_insert_ne by congruence. }
  split; [reflexivity|]. exists cs. split; [reflexivity|]. right.
  destruct (updateValidationSettings_keeps _ _ _ _ _ Hrun)
    as (Hversion & Hreport & Hsecurity & Hgroups).
  exists (appendCompanyCnpj cs'). split; [reflexivity|]. simpl.
  split; [exact Hversion|]. split; [exact Hreport|]. split; [exact Hgroups|].
  rewrite Hsecurity. split; [reflexivity|]. split; [|by split].
  intros key. unfold HaveToMask; simpl. rewrite anyEqualFold_app. simpl.
  by destruct (GoStrings.EqualFold "companyCnpj" key).
Qed.

End updateConfiguration_facts.

(** ** The local result manager: the files of [storeFiles] *)

Lemma Split_second_piece (a s : string) (sep : ascii) :
  is_Some (GoStrings.Split (a +:+ String sep s) sep !! 1%nat).
Proof.
  assert (Hone : forall t, exists piece pieces, GoStrings.Split t sep = piece :: pieces).
  { induction t as [|c t IH]; simpl; [by eexists _, _|].
    destruct (Ascii.eqb c sep); [by eexists _, _|].
    destruct IH as (piece & pieces & ->). by eexists _, _. }
  induction a as [|c a IH].
  - change (EmptyString +:+ String sep s) with (String sep s). simpl.
    rewrite Ascii.eqb_refl. destruct (Hone s) as (piece & pieces & ->). simpl. eauto.
  - rewrite string_app_cons. simpl. destruct (Ascii.eqb c sep).
    + destruct (Hone (a +:+ String sep s)) as (piece & pieces & ->). simpl. eauto.
    + destruct (GoStrings.Split (a +:+ String sep s) sep) as [|piece [|piece' pieces]];
        simpl in *; first [exact IH|destruct IH as [? IH]; discriminate IH].
Qed.

Lemma HasPrefix_hyphen (c : ascii) (s : string) :
  GoStrings.HasPrefix (String c s) "-" = Ascii.eqb c "-".
Proof.
  unfold GoStrings.HasPrefix.
  change (String.prefix "-" (String c s))
    with (if ascii_dec "-" c then String.prefix EmptyString s else false).
  destruct (ascii_dec "-" c) as [<-|Hne]; [by destruct s|].
  symmetry. apply Ascii.eqb_neq. congruence.
Qed.

(** Replacing the hyphens by nothing leaves no hyphen. *)
Lemma ReplaceAll_no_hyphen (s : string) :
  hasByte "-" (GoStrings.ReplaceAll s "-" EmptyString) = false.
Proof.
  unfold GoStrings.ReplaceAll. induction s as [|c s IH]; [reflexivity|].
  change (GoStrings.replace_from "-" "" 0 (String c s))
    with (if GoStrings.HasPrefix (String c s) "-"
          then GoStrings.replace_from "-" "" 0 s
          else String c (GoStrings.replace_from "-" "" 0 s)).
  rewrite HasPrefix_hyphen. destruct (Ascii.eqb c "-") eqn:Hc; [exact IH|].
  cbn [hasByte]. by rewrite Hc, IH.
Qed.

Lemma summaryKey_family (settings : APIValidationSettings) :
  is_Some (GoStrings.Split (summaryKey settings) "-" !! 1%nat)
  /\ (hasByte "-" (APIGroup settings) = false ->
      GoStrings.Split (summaryKey settings) "-" !! 1%nat
      = Some (GoStrings.ReplaceAll (BasePath settings) "-" EmptyString)).
Proof.
  unfold summaryKey.
  change (APIGroup settings +:+ "-" +:+ GoStrings.ReplaceAll (BasePath settings) "-" ""
          +:+ "-" +:+ Endpoint (EndpointSettings settings))
    with (APIGroup settings
          +:+ String "-" (GoStrings.ReplaceAll (BasePath settings) "-" ""
                          +:+ String "-" (Endpoint (EndpointSettings settings)))).
  split; [apply Split_second_piece|].
  intros Hgroup. rewrite (Split_app_sep _ _ _ Hgroup).
  by rewrite (Split_app_sep _ _ _ (ReplaceAll_no_hyphen (BasePath settings))).
Qed.

(** The first loop of [storeFiles] on keys that have a second piece: no
    panic, every summary is in the file of the second piece of its key, and
    what a file held it still holds. *)
Lemma storeFiles_loop (entries : list (string * localEndpointSummary))
    (acc : gmap string (list localEndpointSummary)) :
  (forall entry, In entry entries -> is_Some (GoStrings.Split entry.1 "-" !! 1%nat)) ->
  exists filesToSave,
    fold_left storeFiles_step entries (inr acc) = inr filesToSave
    /\ (forall entry,
          In entry entries ->
          exists family file,
            GoStrings.Split entry.1 "-" !! 1%nat = Some family
            /\ filesToSave !! family = Some file /\ In entry.2 file)
    /\ (forall family file summary,
          acc !! family = Some file -> In summary file ->
          exists file', filesToSave !! family = Some file' /\ In summary file').
Proof.
  revert acc. induction entries as [|entry entries IH]; intros acc Hkeys.
  - exists acc. split; [reflexivity|]. split; [intros ? []|]. eauto.
  - destruct (Hkeys entry (or_introl eq_refl)) as [family Hfamily].
    simpl. rewrite Hfamily.
    destruct (IH (<[family := default [] (acc !! family) ++ [entry.2]]> acc)
                 (fun e He => Hkeys e (or_intror He)))
      as (filesToSave & Hrun & Hentries & Hkept).
    exists filesToSave. split; [exact Hrun|]. split.
    + intros e [<-|He]; [|by apply Hentries].
      destruct (Hkept family (default [] (acc !! family) ++ [entry.2]) entry.2)
        as (file' & Hfile' & Hin'); [apply lookup_insert_eq|apply in_or_app; right; by left|].
      by exists family, file'.
    + intros family' file summary Hfile Hin.
      destruct (decide (family' = family)) as [->|Hne].
      * apply (Hkept family (default [] (acc !! family) ++ [entry.2]));
          [apply lookup_insert_eq|].
        rewrite Hfile. simpl. apply in_or_app. by left.
      * apply (Hkept family' file); [by rewrite lookup_insert_ne by congruence|exact Hin].
Qed.

(** X28.  [storeFiles] on summaries whose keys [AppendResult] has made,
    whatever the order of the range.  Without summaries it changes nothing.
    Otherwise it does not panic, it leaves the manager without summaries and
    without recorded errors, and every summary is in the file of the family
    that is the second hyphen-separated piece of its key: the base path of
    its API without hyphens when the name of the group has no hyphen. *)
Theorem storeFiles_families
    (reports : gmap string localEndpointSummary -> list (string * localEndpointSummary))
    (mng : LocalResultManager) :
  reports (result mng) ≡ₚ map_to_list (result mng) ->
  (forall key, is_Some (result mng !! key) -> exists settings, key = summaryKey settings) ->
  if decide (result mng = ∅) then storeFiles reports mng = inr (∅, mng)
  else
    exists filesToSave,
      storeFiles reports mng = inr (filesToSave, {| result := ∅; recordedErrors := ∅ |})
      /\ forall settings summary,
           result mng !! summaryKey settings = Some summary ->
           exists family file,
             GoStrings.Split (summaryKey settings) "-" !! 1%nat = Some family
             /\ filesToSave !! family = Some file
             /\ In summary file
             /\ (hasByte "-" (APIGroup settings) = false ->
                 family = GoStrings.ReplaceAll (BasePath settings) "-" EmptyString).
Proof.
  intros Horder Hkeys. unfold storeFiles.
  destruct (decide (result mng = ∅)) as [Hempty|Hsome].
  - rewrite Hempty, map_size_empty. reflexivity.
  - destruct (Nat.leb_spec (size (result mng)) 0) as [Hsize|_].
    + exfalso. apply Hsome. apply map_size_empty_iff. lia.
    + destruct (storeFiles_loop (reports (result mng)) ∅) as (filesToSave & Hrun & Hin & _).
      * intros [key summary] Hentry.
        assert (Hlookup : result mng !! key = Some summary).
        { apply elem_of_map_to_list. rewrite <- Horder. by apply list_elem_of_In. }
        destruct (Hkeys key (ex_intro _ summary Hlookup)) as [settings ->].
        apply summaryKey_family.
      * exists filesToSave. rewrite Hrun. split; [reflexivity|].
        intros settings summary Hlookup.
        destruct (Hin (summaryKey settings, summary)) as (family & file & Hfamily & Hfile & Hs).
        { apply list_elem_of_In. rewrite Horder. by apply elem_of_map_to_list. }
        exists family, file. simpl in *. repeat split; try assumption.
        intros Hgroup. destruct (summaryKey_family settings) as [_ Hbase].
        rewrite (Hbase Hgroup) in Hfamily. by injection Hfamily as <-.
Qed.

(** The summary of the endpoint of the catalog, whose group is named
    [open-data]: the second piece of the key is [data], and that is the
    family of the file. *)
Lemma storeFiles_families_witness :
  let mng :=
    @lrm_AppendResult fixtures.ascii_Unicode fixtures.two_documents (fixtures.manager 100)
      (fixtures.message "{}") fixtures.valid_result fixtures.accounts_settings
      (localResults (fixtures.process [])) in
  (map_to_list (result mng) ≡ₚ map_to_list (result mng)
   /\ forall key, is_Some (result mng !! key) -> exists settings, key = summaryKey settings)
  /\ (exists filesToSave,
        storeFiles map_to_list mng = inr (filesToSave, {| result := ∅; recordedErrors := ∅ |}))
  /\ GoStrings.Split (summaryKey fixtures.accounts_settings) "-" !! 1%nat = Some "data".
Proof.
  cbv zeta.
  set (mng := @lrm_AppendResult fixtures.ascii_Unicode fixtures.two_documents
                (fixtures.manager 100) (fixtures.message "{}") fixtures.valid_result
                fixtures.accounts_settings (localResults (fixtures.process []))).
  assert (Hresult : result mng
                    = {[ summaryKey fixtures.accounts_settings
                         := {| EndpointName := "/accounts"; Requests := 1;
                               RequestsWithErrors := 0; PayloadDetails := [] |} ]})
    by (vm_compute; reflexivity).
  assert (Hkeys : forall key, is_Some (result mng !! key) ->
                              exists settings, key = summaryKey settings).
  { intros key [summary Hkey]. rewrite Hresult in Hkey.
    apply lookup_singleton_Some in Hkey as [<- _]. by exists fixtures.accounts_settings. }
  split; [split; [reflexivity|exact Hkeys]|]. split; [|vm_compute; reflexivity].
  pose proof (storeFiles_families map_to_list mng (Permutation_refl _) Hkeys) as Hstore.
  destruct (decide (result mng = ∅)) as [Hempty|_].
  - rewrite Hresult in Hempty. exfalso. by apply (insert_non_empty _ _ _ Hempty).
  - destruct Hstore as (filesToSave & Hrun & _). by exists filesToSave.
Defined.

(** ** The metrics of a report *)

Lemma totalMicroseconds_nonneg (durations : list Z) :
  Forall (fun d => 0 <= d) durations -> 0 <= totalMicroseconds durations.
Proof.
  intros Hall. induction Hall as [|d durations Hd _ IH]; simpl; [lia|].
  unfold monitoring.Microseconds. pose proof (Z.quot_pos d 1000 Hd). lia.
Qed.

(** Without overflow the sum of [calculateAverageDuration] is the sum. *)
Lemma calculateAverageDuration_sum (durations : list Z) (sum : Z) :
  Forall (fun d => 0 <= d) durations ->
  0 <= sum -> sum + totalMicroseconds durations < 2 ^ 63 ->
  fold_left (fun sum m => wrap64 (sum + monitoring.Microseconds m)) durations sum
  = sum + totalMicroseconds durations.
Proof.
  intros Hall. revert sum. induction Hall as [|d durations Hd Hrest IH]; intros sum Hsum Hfit.
  - simpl. lia.
  - simpl in *. pose proof (totalMicroseconds_nonneg _ Hrest) as Hpos.
    assert (Hmicro : 0 <= monitoring.Microseconds d)
      by (unfold monitoring.Microseconds; apply Z.quot_pos; lia).
    rewrite wrap64_small by lia. rewrite IH by lia. lia.
Qed.

Lemma totalMicroseconds_bounds (durations : list Z) (lo hi : Z) :
  Forall (fun d => 0 <= d /\ lo <= d <= hi) durations ->
  Z.of_nat (length durations) * (lo / 1000) <= totalMicroseconds durations
  <= Z.of_nat (length durations) * (hi / 1000).
Proof.
  intros Hall. induction Hall as [|d durations (Hd & Hlo & Hhi) _ IH]; [simpl; lia|].
  rewrite length_cons. cbn [totalMicroseconds fold_right]. fold (totalMicroseconds durations).
  unfold monitoring.Microseconds. rewrite Z.quot_div_nonneg by lia.
  pose proof (Z.div_le_mono lo d 1000 ltac:(lia) Hlo).
  pose proof (Z.div_le_mono d hi 1000 ltac:(lia) Hhi). lia.
Qed.

(** X29.  [calculateAverageDuration] of no duration is 0.  For durations
    that are not negative and whose microseconds add up below 2^63, it is
    the sum of the microseconds of the durations (each rounded down) divided
    by their number, rounded down; it lies between the microseconds of the
    shortest and of the longest duration. *)
Theorem calculateAverageDuration_mean (durations : list Z) (lo hi : Z) :
  Forall (fun d => 0 <= d /\ lo <= d <= hi) durations ->
  totalMicroseconds durations < 2 ^ 63 ->
  monitoring.calculateAverageDuration durations
  = (if decide (durations = []) then 0
     else totalMicroseconds durations / Z.of_nat (length durations))
  /\ (durations <> [] ->
      lo / 1000 <= monitoring.calculateAverageDuration durations <= hi / 1000).
Proof.
  intros Hall Hfit.
  assert (Hpos : Forall (fun d => 0 <= d) durations)
    by (eapply Forall_impl; [exact Hall|]; by intros d [Hd _]).
  pose proof (totalMicroseconds_nonneg _ Hpos) as Htotal.
  assert (Hmean : monitoring.calculateAverageDuration durations
                  = if decide (durations = []) then 0
                    else totalMicroseconds durations / Z.of_nat (length durations)).
  { unfold monitoring.calculateAverageDuration.
    destruct durations as [|d durations]; [reflexivity|].
    destruct (decide (d :: durations = [])) as [Habs|_]; [discriminate|].
    change (length (d :: durations) =? 0)%nat with false. cbv iota zeta.
    rewrite calculateAverageDuration_sum by (try assumption; lia).
    rewrite Z.add_0_l. apply Z.quot_div_nonneg; [exact Htotal|].
    rewrite length_cons. lia. }
  split; [exact Hmean|]. intros Hne. rewrite Hmean.
  destruct (decide (durations = [])) as [Habs|_]; [contradiction|].
  pose proof (totalMicroseconds_bounds _ _ _ Hall) as [Hlo Hhi].
  assert (Hn : 0 < Z.of_nat (length durations))
    by (destruct durations; [contradiction|rewrite length_cons; lia]).
  split; [by apply Z.div_le_lower_bound|by apply Z.div_le_upper_bound].
Qed.

(** Three requests answered in 1.5, 2.5 and 4 milliseconds. *)
Lemma calculateAverageDuration_mean_witness :
  (Forall (fun d => 0 <= d /\ 1500000 <= d <= 4000000) [1500000; 2500000; 4000000]
   /\ totalMicroseconds [1500000; 2500000; 4000000] < 2 ^ 63)
  /\ monitoring.calculateAverageDuration [1500000; 2500000; 4000000] = 2666.
Proof.
  assert (Hall : Forall (fun d => 0 <= d /\ 1500000 <= d <= 4000000)
                        [1500000; 2500000; 4000000])
    by (repeat constructor; lia).
  assert (Hfit : totalMicroseconds [1500000; 2500000; 4000000] < 2 ^ 63)
    by (vm_compute; reflexivity).
  split; [split; assumption|].
  refine (eq_trans (proj1 (calculateAverageDuration_mean _ _ _ Hall Hfit)) _).
  vm_compute. reflexivity.
Defined.

Section GetAndCleanSystemMetrics_facts.
Context `{!monitoring.Sprintf}.

Lemma recordEvent_counts (events : list metricEvent) (m : monitoring.Metrics)
    (received bad : Z) :
  monitoring.requestsReceived m = wrap64 received ->
  monitoring.badRequestsReceived m = wrap64 bad ->
  let m' := fold_left recordEvent events m in
  monitoring.requestsReceived m' = wrap64 (received + countEvents isReceived events)
  /\ monitoring.badRequestsReceived m' = wrap64 (bad + countEvents isBad events)
  /\ monitoring.responseTime m' = monitoring.responseTime m ++ durationsOf events
  /\ monitoring.requests m' = monitoring.requests m + countEvents isReceived events.
Proof.
  cbv zeta. unfold countEvents. revert m received bad.
  induction events as [|e events IH]; intros m received bad Hreceived Hbad.
  - simpl. rewrite !Z.add_0_r, app_nil_r. by repeat split.
  - cbn [fold_left]. destruct e; cbn [List.filter isReceived isBad durationsOf].
    + destruct (IH (recordEvent m RequestReceived) (received + 1) bad)
        as (H1 & H2 & H3 & H4);
        [simpl; rewrite Hreceived; apply wrap64_add_l|exact Hbad|].
      rewrite H1, H2, H3, H4, length_cons. simpl. repeat split; first [reflexivity|lia|f_equal; lia].
    + destruct (IH (recordEvent m BadRequest) received (bad + 1))
        as (H1 & H2 & H3 & H4);
        [exact Hreceived|simpl; rewrite Hbad; apply wrap64_add_l|].
      rewrite H1, H2, H3, H4, length_cons. simpl. repeat split; first [reflexivity|lia|f_equal; lia].
    + destruct (IH (recordEvent m (BadEndpoint endpoint version errorMessage))
                   received (bad + 1))
        as (H1 & H2 & H3 & H4);
        [exact Hreceived|simpl; rewrite Hbad; apply wrap64_add_l|].
      rewrite H1, H2, H3, H4, length_cons. simpl. repeat split; first [reflexivity|lia|f_equal; lia].
    + destruct (IH (recordEvent m (ResponseDuration elapsed)) received bad)
        as (H1 & H2 & H3 & H4); [exact Hreceived|exact Hbad|].
      rewrite H1, H2, H3, H4. simpl. rewrite <- app_assoc. by repeat split.
    + destruct (IH (recordEvent m (ValidationResult serverID endpointName valid))
                   received bad)
        as (H1 & H2 & H3 & H4); [exact Hreceived|exact Hbad|].
      rewrite H1, H2, H3, H4. by repeat split.
Qed.

(** X30.  What the handler and the worker record between two calls of
    [GetAndCleanSystemMetrics] is reported by the second call and by it
    alone: its requests received are the number of calls of
    [IncreaseRequestsReceived], its bad requests the number of calls of
    [IncreaseBadRequestsReceived] and [IncreaseBadEndpointsReceived] (as
    64-bit integers, in decimal), its average response time that of the
    durations recorded.  The call leaves the counters at zero and the
    measurements and durations empty; the counter [requests] of the
    exporter is never reset, and neither is the record of the unsupported
    endpoints. *)
Theorem GetAndCleanSystemMetrics_reports_once (measurements measurements' :
    list monitoring.Measurement) (m : monitoring.Metrics) (events : list metricEvent) :
  let '(_, _, m1) := monitoring.GetAndCleanSystemMetrics measurements m in
  let m2 := fold_left recordEvent events m1 in
  let '(report, measurements'', m3) := monitoring.GetAndCleanSystemMetrics measurements' m2 in
  (monitoring.RequestsReceived report = strconv.Itoa (wrap64 (countEvents isReceived events))
   /\ monitoring.BadRequestsReceived report = strconv.Itoa (wrap64 (countEvents isBad events))
   /\ monitoring.AverageResponseTime report
      = strconv.Itoa (monitoring.calculateAverageDuration (durationsOf events)))
  /\ (monitoring.requestsReceived m3 = 0 /\ monitoring.badRequestsReceived m3 = 0
      /\ monitoring.responseTime m3 = [] /\ measurements'' = [])
  /\ monitoring.requests m3 = monitoring.requests m + countEvents isReceived events
  /\ monitoring.unsupportedEndpoints m3 = monitoring.unsupportedEndpoints m2.
Proof.
  unfold monitoring.GetAndCleanSystemMetrics.
  destruct (monitoring.calculateAverageMemory measurements) as [[avg mx] cpus].
  destruct (monitoring.calculateAverageMemory measurements') as [[avg' mx'] cpus'].
  cbn [monitoring.getAndCleanRequestsReceived monitoring.getAndCleanBadRequestsReceived
       monitoring.getAndCleanResponseTime].
  match goal with
  | |- context [fold_left recordEvent events ?m1] =>
      destruct (recordEvent_counts events m1 0 0 eq_refl eq_refl) as (H1 & H2 & H3 & H4)
  end.
  cbn [monitoring.requestsReceived monitoring.badRequestsReceived monitoring.responseTime
       monitoring.requests monitoring.unsupportedEndpoints monitoring.RequestsReceived
       monitoring.BadRequestsReceived monitoring.AverageResponseTime] in *.
  rewrite H1, H2, H3, H4. rewrite !Z.add_0_l. simpl. by repeat split.
Qed.

End GetAndCleanSystemMetrics_facts.
